(** * Togather-Watch: the synchronization engine ([useSyncLogic]), the
      room pages, the video component and the socket server, embedded
      as state-passing functions.

    Modelling conventions:
    - numbers of the source (JavaScript doubles: seconds, rates, volumes)
      are rationals [Q]; every constant of the source (0.3, 1.5, 1.05,
      0.95, 0.2, 0.8) is written as the rational it denotes;
    - React state ([useState]) and refs ([useRef]) of one hook instance
      are the fields of [World], next to the collaborators the hook drives:
      the media surface, the channel (as the log of published messages)
      and the timer queue;
    - every handler runs to completion in one turn and its state updates
      are committed at the end of the turn; a closure handed to
      [setTimeout] that reads React state carries the value it captured;
    - timers carry their delay but there is no clock: a timer may expire
      at any turn after it was armed. *)

From Stdlib Require Import String List ZArith QArith Qabs Qminmax Bool Lia
  Lqa.
Import ListNotations.

Local Open Scope string_scope.
Local Open Scope list_scope.

(* ================================================================== *)
(** ** Constants of [useSyncLogic] *)

Definition HAVE_FUTURE_DATA : Z := 3.

Definition MICRO_DRIFT_THRESHOLD : Q := 3 # 10.
Definition SOFT_SYNC_THRESHOLD : Q := 15 # 10.
Definition HARD_SYNC_THRESHOLD : Q := 15 # 10.

Definition DEBOUNCE_MS : Z := 200.

(* ================================================================== *)
(** ** Data model *)

(** [type SyncState = 'idle' | 'requesting' | 'waiting-ack' | 'syncing' |
    'playing' | 'paused'] *)
Inductive SyncState : Type :=
| idle | requesting | waiting_ack | syncing | playing | paused.

Definition SyncState_eqb (a b : SyncState) : bool :=
  match a, b with
  | idle, idle | requesting, requesting | waiting_ack, waiting_ack
  | syncing, syncing | playing, playing | paused, paused => true
  | _, _ => false
  end.

(** [string | null]: the identity the transport assigns. *)
Definition UserId : Type := option string.

(** JavaScript [===] on [string | null]. *)
Definition id_eqb (a b : UserId) : bool :=
  match a, b with
  | Some x, Some y => String.eqb x y
  | None, None => true
  | _, _ => false
  end.

(** [myUserId || 'self']: null and the empty string are both falsy. *)
Definition or_self (me : UserId) : string :=
  match me with
  | Some s => if String.eqb s "" then "self" else s
  | None => "self"
  end.

(** [pendingSync.current : { time; initiator } | null] *)
Record Pending : Type := mkPending { p_time : Q; p_initiator : string }.

(** Payloads of the channel events the hook triggers and binds. *)
Inductive Msg : Type :=
| SyncRequest (type : string) (time : Q) (initiator : UserId)
| SyncAck (time : Q) (responder : UserId)
| SyncGo (time : Q)
| PauseMsg (time : Q)
| UrlMsg (url : string)
| StateRequest (requesterId : UserId)
| StateResponse (url : string) (isPlaying : bool) (time : Q)
                (responderId targetId : UserId)
| TimeCheck (time : Q) (sender : UserId).

(** What [getInternalPlayer()] returns when it is not null: the fields of
    the media element the hook looks at. *)
Record Internal : Type := mkInternal {
  readyState : option Z;      (* [undefined] for non-video players *)
  playbackRate : option Q;    (* [undefined] when the player has none *)
  has_play : bool;            (* [typeof player.play === 'function'] *)
  has_pause : bool            (* [player.pause?.()] *)
}.

(** [playerRef.current] when mounted: the [VideoPlayerHandle]. [position]
    is what its [getCurrentTime()] returns and what [seekTo] sets. *)
Record Handle : Type := mkHandle {
  position : Q;
  internal : option Internal
}.

(** Calls made on the media surface, in order. *)
Inductive PlayerCall : Type :=
| CallPlay | CallPause | CallSeek (time : Q) | CallRate (rate : Q).

(** The closures handed to [setTimeout]. A closure over React state holds
    the value it captured. *)
Inductive Callback : Type :=
| AckTimeout (capturedState : SyncState)
| CheckReady (type : string) (time : Q)
| ReleaseLock
| ResetRate
| DebouncePlay (capturedState : SyncState)
| DebouncePause
| DebounceSeek (time : Q).

Record Timer : Type := mkTimer { tid : nat; delay : Z; callback : Callback }.

(** One hook instance together with its collaborators. *)
Record World : Type := mkWorld {
  (* props *)
  myUserId : UserId;
  isConnected : bool;
  channel : bool;                 (* [channel] is non-null *)
  (* useState *)
  syncState : SyncState;
  url : string;
  isPlaying : bool;
  (* useRef *)
  syncLock : bool;
  isRemoteAction : bool;
  pendingSync : option Pending;
  debounceTimer : option nat;
  (* media surface *)
  playerRef : option Handle;
  calls : list PlayerCall;
  (* channel transport and timers *)
  sent : list Msg;
  timers : list Timer;
  nextTimer : nat
}.

(** The hook right after its first render, before the channel is up. *)
Definition initial (me : UserId) (p : option Handle) : World :=
  {| myUserId := me; isConnected := false; channel := false;
     syncState := idle; url := ""; isPlaying := false;
     syncLock := false; isRemoteAction := false; pendingSync := None;
     debounceTimer := None;
     playerRef := p; calls := [];
     sent := []; timers := []; nextTimer := 0 |}.

(* ------------------------------------------------------------------ *)
(** *** Field updates *)

Definition set_props (me : UserId) (c ch : bool) (w : World) : World :=
  mkWorld me c ch (syncState w) (url w) (isPlaying w) (syncLock w)
          (isRemoteAction w) (pendingSync w) (debounceTimer w) (playerRef w)
          (calls w) (sent w) (timers w) (nextTimer w).

Definition set_syncState (s : SyncState) (w : World) : World :=
  mkWorld (myUserId w) (isConnected w) (channel w) s (url w) (isPlaying w)
          (syncLock w) (isRemoteAction w) (pendingSync w) (debounceTimer w)
          (playerRef w) (calls w) (sent w) (timers w) (nextTimer w).

Definition set_url (u : string) (w : World) : World :=
  mkWorld (myUserId w) (isConnected w) (channel w) (syncState w) u
          (isPlaying w) (syncLock w) (isRemoteAction w) (pendingSync w)
          (debounceTimer w) (playerRef w) (calls w) (sent w) (timers w)
          (nextTimer w).

Definition set_isPlaying (b : bool) (w : World) : World :=
  mkWorld (myUserId w) (isConnected w) (channel w) (syncState w) (url w) b
          (syncLock w) (isRemoteAction w) (pendingSync w) (debounceTimer w)
          (playerRef w) (calls w) (sent w) (timers w) (nextTimer w).

Definition set_syncLock (b : bool) (w : World) : World :=
  mkWorld (myUserId w) (isConnected w) (channel w) (syncState w) (url w)
          (isPlaying w) b (isRemoteAction w) (pendingSync w)
          (debounceTimer w) (playerRef w) (calls w) (sent w) (timers w)
          (nextTimer w).

Definition set_isRemoteAction (b : bool) (w : World) : World :=
  mkWorld (myUserId w) (isConnected w) (channel w) (syncState w) (url w)
          (isPlaying w) (syncLock w) b (pendingSync w) (debounceTimer w)
          (playerRef w) (calls w) (sent w) (timers w) (nextTimer w).

Definition set_pendingSync (p : option Pending) (w : World) : World :=
  mkWorld (myUserId w) (isConnected w) (channel w) (syncState w) (url w)
          (isPlaying w) (syncLock w) (isRemoteAction w) p (debounceTimer w)
          (playerRef w) (calls w) (sent w) (timers w) (nextTimer w).

Definition set_debounceTimer (d : option nat) (w : World) : World :=
  mkWorld (myUserId w) (isConnected w) (channel w) (syncState w) (url w)
          (isPlaying w) (syncLock w) (isRemoteAction w) (pendingSync w) d
          (playerRef w) (calls w) (sent w) (timers w) (nextTimer w).

Definition set_playerRef (p : option Handle) (w : World) : World :=
  mkWorld (myUserId w) (isConnected w) (channel w) (syncState w) (url w)
          (isPlaying w) (syncLock w) (isRemoteAction w) (pendingSync w)
          (debounceTimer w) p (calls w) (sent w) (timers w) (nextTimer w).

Definition set_calls (c : list PlayerCall) (w : World) : World :=
  mkWorld (myUserId w) (isConnected w) (channel w) (syncState w) (url w)
          (isPlaying w) (syncLock w) (isRemoteAction w) (pendingSync w)
          (debounceTimer w) (playerRef w) c (sent w) (timers w) (nextTimer w).

Definition set_sent (s : list Msg) (w : World) : World :=
  mkWorld (myUserId w) (isConnected w) (channel w) (syncState w) (url w)
          (isPlaying w) (syncLock w) (isRemoteAction w) (pendingSync w)
          (debounceTimer w) (playerRef w) (calls w) s (timers w) (nextTimer w).

Definition set_timers (t : list Timer) (n : nat) (w : World) : World :=
  mkWorld (myUserId w) (isConnected w) (channel w) (syncState w) (url w)
          (isPlaying w) (syncLock w) (isRemoteAction w) (pendingSync w)
          (debounceTimer w) (playerRef w) (calls w) (sent w) t n.

(* ------------------------------------------------------------------ *)
(** *** A state monad over [World] *)

Definition M (A : Type) : Type := World -> A * World.

Definition ret {A : Type} (a : A) : M A := fun w => (a, w).

Definition bind {A B : Type} (c : M A) (k : A -> M B) : M B :=
  fun w => k (fst (c w)) (snd (c w)).

Definition get {A : Type} (f : World -> A) : M A := fun w => (f w, w).

Definition modify (f : World -> World) : M unit := fun w => (tt, f w).

Definition exec {A : Type} (c : M A) (w : World) : World := snd (c w).

Declare Scope engine_scope.
Delimit Scope engine_scope with engine.
Notation "x <- c ;; k" := (bind c (fun x => k))
  (at level 61, c at next level, right associativity) : engine_scope.
Notation "c ;; k" := (bind c (fun _ => k))
  (at level 61, right associativity) : engine_scope.
Local Open Scope engine_scope.

(** [if (b) { c }] *)
Definition when (b : bool) (c : M unit) : M unit :=
  if b then c else ret tt.

(* ------------------------------------------------------------------ *)
(** *** Collaborators: channel, timers, media surface *)

(** [usePusher.trigger]: publishes only when the channel exists. *)
Definition trigger (m : Msg) : M unit :=
  fun w => (tt, if channel w then set_sent (sent w ++ [m]) w else w).

(** [setTimeout(cb, ms)] returns the new timer's id. *)
Definition setTimeout (cb : Callback) (ms : Z) : M nat :=
  fun w => (nextTimer w,
            set_timers (timers w ++ [mkTimer (nextTimer w) ms cb])
                       (S (nextTimer w)) w).

Definition clearTimeout (id : nat) : M unit :=
  fun w => (tt, set_timers
                  (filter (fun t => negb (Nat.eqb (tid t) id)) (timers w))
                  (nextTimer w) w).

Definition record_call (c : PlayerCall) : M unit :=
  modify (fun w => set_calls (calls w ++ [c]) w).

(** [getInternalPlayer]: null when the ref or the inner player is. *)
Definition getInternalPlayer : M (option Internal) :=
  get (fun w => match playerRef w with
                | Some h => internal h
                | None => None
                end).

(** [getCurrentTime]: the player's position, 0 without a player. *)
Definition getCurrentTime : M Q :=
  get (fun w => match playerRef w with
                | Some h => position h
                | None => 0%Q
                end).

(** [seekTo(time)]: forwarded to the handle when there is one. *)
Definition seekTo (time : Q) : M unit :=
  fun w => match playerRef w with
           | Some h =>
               (tt, set_calls (calls w ++ [CallSeek time])
                      (set_playerRef (Some (mkHandle time (internal h))) w))
           | None => (tt, w)
           end.

(** [isPlayerReady]: [readyState >= HAVE_FUTURE_DATA], true as a fallback
    when there is no player or no [readyState]. *)
Definition isPlayerReady : M bool :=
  player <- getInternalPlayer ;;
  match player with
  | Some p => match readyState p with
              | Some r => ret (HAVE_FUTURE_DATA <=? r)%Z
              | None => ret true
              end
  | None => ret true
  end.

(** [player.playbackRate = rate] on the current internal player. *)
Definition assign_rate (rate : Q) : M unit :=
  fun w => match playerRef w with
           | Some h =>
               match internal h with
               | Some p =>
                   (tt, set_calls (calls w ++ [CallRate rate])
                          (set_playerRef
                             (Some (mkHandle (position h)
                                (Some (mkInternal (readyState p) (Some rate)
                                         (has_play p) (has_pause p))))) w))
               | None => (tt, w)
               end
           | None => (tt, w)
           end.

(* ================================================================== *)
(** ** Local actions *)

(** [executePlay] *)
Definition executePlay : M unit :=
  player <- getInternalPlayer ;;
  when (match player with Some p => has_play p | None => false end)
       (record_call CallPlay) ;;
  modify (set_isPlaying true) ;;
  modify (set_syncState playing) ;;
  modify (set_syncLock false) ;;
  modify (set_pendingSync None).

(** [requestPlay]. [captured] is the [syncState] of the render that built
    this closure: the 3000 ms callback tests that value. *)
Definition requestPlay (captured : SyncState) : M unit :=
  locked <- get syncLock ;;
  if locked then ret tt else
  time <- getCurrentTime ;;
  modify (set_syncLock true) ;;
  modify (set_syncState requesting) ;;
  me <- get myUserId ;;
  modify (set_pendingSync (Some (mkPending time (or_self me)))) ;;
  trigger (SyncRequest "play" time me) ;;
  _ <- setTimeout (AckTimeout captured) 3000 ;;
  ret tt.

(** [requestPause] *)
Definition requestPause : M unit :=
  remote <- get isRemoteAction ;;
  if remote then modify (set_isRemoteAction false) else
  time <- getCurrentTime ;;
  modify (set_isPlaying false) ;;
  modify (set_syncState paused) ;;
  trigger (PauseMsg time).

(** [requestSeek] *)
Definition requestSeek (time : Q) : M unit :=
  locked <- get syncLock ;;
  if locked then ret tt else
  remote <- get isRemoteAction ;;
  if remote then modify (set_isRemoteAction false) else
  modify (set_syncLock true) ;;
  modify (set_syncState syncing) ;;
  me <- get myUserId ;;
  modify (set_pendingSync (Some (mkPending time (or_self me)))) ;;
  trigger (SyncRequest "seek" time me).

(** [handleUrlChange] *)
Definition handleUrlChange (newUrl : string) : M unit :=
  modify (set_url newUrl) ;;
  modify (set_isPlaying false) ;;
  modify (set_syncState idle) ;;
  trigger (UrlMsg newUrl).

(* ================================================================== *)
(** ** Remote event handlers *)

(** The [checkReady] closure of [onSyncRequest]. *)
Definition checkReady (type : string) (time : Q) : M unit :=
  ready <- isPlayerReady ;;
  if ready then
    me <- get myUserId ;;
    trigger (SyncAck time me) ;;
    if String.eqb type "play" then modify (set_syncState waiting_ack)
    else (modify (set_syncLock false) ;; modify (set_syncState paused))
  else
    _ <- setTimeout (CheckReady type time) 50 ;; ret tt.

(** [onSyncRequest] *)
Definition onSyncRequest (type : string) (time : Q) (initiator : UserId)
  : M unit :=
  me <- get myUserId ;;
  if id_eqb initiator me then ret tt else
  locked <- get syncLock ;;
  if locked then ret tt else
  modify (set_syncLock true) ;;
  modify (set_syncState syncing) ;;
  modify (set_isRemoteAction true) ;;
  player <- getInternalPlayer ;;
  match player with
  | Some p =>
      when (has_pause p) (record_call CallPause) ;;
      seekTo time ;;
      _ <- setTimeout (CheckReady type time) 100 ;; ret tt
  | None => ret tt
  end.

(** [onSyncAck] *)
Definition onSyncAck (time : Q) (responder : UserId) : M unit :=
  me <- get myUserId ;;
  if id_eqb responder me then ret tt else
  pending <- get pendingSync ;;
  match pending with
  | Some p => trigger (SyncGo (p_time p)) ;; executePlay
  | None => ret tt
  end.

(** [onSyncGo] *)
Definition onSyncGo (time : Q) : M unit := executePlay.

(** [onPause] *)
Definition onPause (time : Q) : M unit :=
  modify (set_isRemoteAction true) ;;
  player <- getInternalPlayer ;;
  when (match player with Some p => has_pause p | None => false end)
       (record_call CallPause) ;;
  modify (set_isPlaying false) ;;
  modify (set_syncState paused).

(** [onUrl] *)
Definition onUrl (u : string) : M unit :=
  modify (set_url u) ;;
  modify (set_isPlaying false) ;;
  modify (set_syncState idle).

(** [onStateRequest] *)
Definition onStateRequest (requesterId : UserId) : M unit :=
  me <- get myUserId ;;
  if id_eqb requesterId me then ret tt else
  u <- get url ;;
  p <- get isPlaying ;;
  time <- getCurrentTime ;;
  trigger (StateResponse u p time me requesterId).

(** [a > b] on numbers. *)
Definition Qgtb (a b : Q) : bool := negb (Qle_bool a b).

(** [a < b] on numbers. *)
Definition Qltb (a b : Q) : bool := negb (Qle_bool b a).

(** [onStateResponse] *)
Definition onStateResponse (u : string) (p : bool) (time : Q)
    (responderId targetId : UserId) : M unit :=
  me <- get myUserId ;;
  if negb (id_eqb targetId me) then ret tt else
  cur <- get url ;;
  when (negb (String.eqb u "") && negb (String.eqb u cur))
       (modify (set_url u)) ;;
  when (Qgtb time 0) (seekTo time) ;;
  modify (set_isPlaying p) ;;
  modify (set_syncState (if p then playing else paused)).

(* ================================================================== *)
(** ** Drift correction *)

(** The 2000 ms interval callback. *)
Definition driftTick : M unit :=
  locked <- get syncLock ;;
  if locked then ret tt else
  time <- getCurrentTime ;;
  me <- get myUserId ;;
  trigger (TimeCheck time me).

(** [onTimeCheck] *)
Definition onTimeCheck (time : Q) (sender : UserId) : M unit :=
  me <- get myUserId ;;
  if id_eqb sender me then ret tt else
  locked <- get syncLock ;;
  if locked then ret tt else
  localTime <- getCurrentTime ;;
  let diff := Qabs (time - localTime) in
  if Qltb diff MICRO_DRIFT_THRESHOLD then ret tt else
  player <- getInternalPlayer ;;
  if Qgtb diff HARD_SYNC_THRESHOLD then
    modify (set_syncLock true) ;;
    modify (set_isRemoteAction true) ;;
    seekTo time ;;
    _ <- setTimeout ReleaseLock 500 ;; ret tt
  else if Qgtb diff MICRO_DRIFT_THRESHOLD then
    match player with
    | Some p =>
        match playbackRate p with
        | Some _ =>
            let rate := if Qgtb time localTime then 105 # 100 else 95 # 100 in
            assign_rate rate ;;
            _ <- setTimeout ResetRate 1500 ;; ret tt
        | None => ret tt
        end
    | None => ret tt
    end
  else ret tt.

(* ================================================================== *)
(** ** Player event handlers (debounced) *)

(** The common prologue of the three handlers, after the two guards. *)
Definition debounce (cb : Callback) : M unit :=
  d <- get debounceTimer ;;
  match d with
  | Some id => clearTimeout id
  | None => ret tt
  end ;;
  id <- setTimeout cb DEBOUNCE_MS ;;
  modify (set_debounceTimer (Some id)).

(** [handlePlayerPlay]: the debounced closure calls the [requestPlay] of
    the current render. *)
Definition handlePlayerPlay : M unit :=
  remote <- get isRemoteAction ;;
  if remote then modify (set_isRemoteAction false) else
  locked <- get syncLock ;;
  if locked then ret tt else
  s <- get syncState ;;
  debounce (DebouncePlay s).

(** [handlePlayerPause] *)
Definition handlePlayerPause : M unit :=
  remote <- get isRemoteAction ;;
  if remote then modify (set_isRemoteAction false) else
  locked <- get syncLock ;;
  if locked then ret tt else
  debounce DebouncePause.

(** [handlePlayerSeek] *)
Definition handlePlayerSeek (time : Q) : M unit :=
  remote <- get isRemoteAction ;;
  if remote then modify (set_isRemoteAction false) else
  locked <- get syncLock ;;
  if locked then ret tt else
  debounce (DebounceSeek time).

(** The wrappers [VideoPlayer] puts around [onPlay] and [onPause] before
    they reach the hook: they test the same flag. *)
Definition videoPlayer_onPlay : M unit :=
  remote <- get isRemoteAction ;;
  if remote then modify (set_isRemoteAction false) else handlePlayerPlay.

Definition videoPlayer_onPause : M unit :=
  remote <- get isRemoteAction ;;
  if remote then modify (set_isRemoteAction false) else handlePlayerPause.

(* ================================================================== *)
(** ** The event loop of one peer *)

(** Both effects start with [if (!isConnected || !channel) return]. *)
Definition bound (w : World) : bool := isConnected w && channel w.

(** What the first effect does after binding its handlers. *)
Definition syncEffect : M unit :=
  b <- get bound ;;
  when b (me <- get myUserId ;; trigger (StateRequest me)).

(** The entries of the first effect's dependency array that are not
    stable callbacks: the effect runs again when one of them changes. *)
Definition deps_changed (w w' : World) : bool :=
  negb (Bool.eqb (isConnected w) (isConnected w')
        && Bool.eqb (channel w) (channel w')
        && id_eqb (myUserId w) (myUserId w')
        && String.eqb (url w) (url w')
        && Bool.eqb (isPlaying w) (isPlaying w')).

(** The body of a timer's closure. *)
Definition run_callback (cb : Callback) : M unit :=
  match cb with
  | AckTimeout captured =>
      when (SyncState_eqb captured requesting
            || SyncState_eqb captured waiting_ack) executePlay
  | CheckReady type time => checkReady type time
  | ReleaseLock => modify (set_syncLock false)
  | ResetRate => assign_rate 1
  | DebouncePlay captured => requestPlay captured
  | DebouncePause => requestPause
  | DebounceSeek time => requestSeek time
  end.

(** A pending timer expires: it leaves the queue and its closure runs. *)
Definition expire (id : nat) : M unit :=
  fun w =>
    match find (fun t => Nat.eqb (tid t) id) (timers w) with
    | Some t => run_callback (callback t) (exec (clearTimeout id) w)
    | None => (tt, w)
    end.

(** Delivery of a channel event to the handler bound to it.  The
    [time-check] handler is bound only while [syncState === 'playing']. *)
Definition receive (m : Msg) : M unit :=
  b <- get bound ;;
  if negb b then ret tt else
  match m with
  | SyncRequest type time initiator => onSyncRequest type time initiator
  | SyncAck time responder => onSyncAck time responder
  | SyncGo time => onSyncGo time
  | PauseMsg time => onPause time
  | UrlMsg u => onUrl u
  | StateRequest r => onStateRequest r
  | StateResponse u p time r t => onStateResponse u p time r t
  | TimeCheck time sender =>
      s <- get syncState ;;
      if SyncState_eqb s playing then onTimeCheck time sender else ret tt
  end.

(** What can start a turn. [Subscribed] stands for [usePusher] reporting
    the connection, the channel and the identity at once. *)
Inductive Event : Type :=
| Subscribed (me : string)     (* the presence channel is up *)
| Receive (m : Msg)
| Expire (id : nat)
| OnPlay | OnPause | OnSeek (time : Q)
| ChangeUrl (newUrl : string)
| Interval.                    (* the 2000 ms drift interval *)

Definition handle (e : Event) : M unit :=
  match e with
  | Subscribed me => modify (set_props (Some me) true true)
  | Receive m => receive m
  | Expire id => expire id
  | OnPlay => handlePlayerPlay
  | OnPause => handlePlayerPause
  | OnSeek time => handlePlayerSeek time
  | ChangeUrl u => handleUrlChange u
  | Interval =>
      b <- get bound ;;
      s <- get syncState ;;
      when (b && SyncState_eqb s playing) driftTick
  end.

(** One run-to-completion turn, followed by the re-run of the first
    effect when its dependencies changed. *)
Definition step (e : Event) (w : World) : World :=
  let w' := exec (handle e) w in
  if deps_changed w w' then exec syncEffect w' else w'.

Fixpoint run (es : list Event) (w : World) : World :=
  match es with
  | [] => w
  | e :: es' => run es' (step e w)
  end.

(** The part of a peer that the handlers decide on: React state, refs and
    the media surface, without the logs and the timer queue. *)
Definition core (w : World)
  : SyncState * string * bool * bool * bool * option Pending * option Handle :=
  (syncState w, url w, isPlaying w, syncLock w, isRemoteAction w,
   pendingSync w, playerRef w).

(** A video element that has buffered enough. *)
Definition video (pos : Q) : Handle :=
  mkHandle pos (Some (mkInternal (Some 4%Z) (Some 1%Q) true true)).

(** A peer that is connected and holds a ready video at position 0. *)
Definition joined (me : string) : World :=
  step (Subscribed me) (initial None (Some (video 0))).

(* ================================================================== *)
(** ** The room page over the presence channel ([page.tsx]) *)

Module RoomPage.


(** The hidden [<audio>] element for walkie-talkie playback. The two
    event handlers are closures over the [prevVolume] of the call that
    installed them. *)
Record Audio : Type := mkAudio {
  src : option string;
  audioVolume : Q;
  onended : option Q;
  onerror : option Q
}.

Record Page : Type := mkPage {
  engine : World;                 (* [useSyncLogic] *)
  volume : Q;
  baseVolume : Q;
  talkieAudioRef : option Audio
}.

(** [useState(0.8)] twice; the audio element is mounted with the page. *)
Definition mounted (w : World) : Page :=
  mkPage w (8 # 10) (8 # 10) (Some (mkAudio None 1 None None)).

Definition setVolume (v : Q) (p : Page) : Page :=
  mkPage (engine p) v (baseVolume p) (talkieAudioRef p).




(** The element fires [error]. *)
Definition audioError (p : Page) : Page :=
  match talkieAudioRef p with
  | Some a => match onerror a with
              | Some prevVolume => setVolume prevVolume p
              | None => p
              end
  | None => p
  end.


End RoomPage.

(* ================================================================== *)
(** ** The room page over the socket server (the earlier [RoomPage]) *)

Module SocketRoomPage.

(** [VideoState] *)
Record VideoState : Type := mkVideoState {
  playing : bool;
  timestamp : Q;
  url : string
}.

Record Page : Type := mkPage {
  videoState : VideoState;
  isVoiceInterruption : bool;
  audioRef : bool;                (* [audioRef.current] is non-null *)
  volume : Q
}.

Definition setPlaying (b : bool) (p : Page) : Page :=
  mkPage (mkVideoState b (timestamp (videoState p)) (url (videoState p)))
         (isVoiceInterruption p) (audioRef p) (volume p).

Definition setInterruption (b : bool) (p : Page) : Page :=
  mkPage (videoState p) b (audioRef p) (volume p).

(** The ['voice-note'] handler. [playOk] tells whether
    [audioRef.current.play()] resolved. *)
Definition onVoiceNote (playOk : bool) (p : Page) : Page :=
  let p1 := setPlaying false (setInterruption true p) in
  if audioRef p1 then
    if playOk then p1 else setInterruption false p1
  else p1.

(** [handleAudioEnded] *)
Definition handleAudioEnded (p : Page) : Page :=
  if isVoiceInterruption p
  then setPlaying true (setInterruption false p)
  else p.

End SocketRoomPage.

(* ================================================================== *)
(** ** Observations and scenarios used in the statements *)

(** The properties of the hook: identity and connection. *)
Definition props (w : World) : UserId * bool * bool :=
  (myUserId w, isConnected w, channel w).

(** Timer ids are allocated in increasing order: every armed timer has
    an id below the next one to be handed out. *)
Definition timers_fresh (w : World) : Prop :=
  Forall (fun t => (tid t < nextTimer w)%nat) (timers w).

(** The events the media surface reports: play, pause, seek. *)
Definition is_media_event (e : Event) : bool :=
  match e with
  | OnPlay | OnPause | OnSeek _ => true
  | _ => false
  end.

(** The messages that carry an identity field equal to the local one. *)
Definition carries_identity (me : UserId) (m : Msg) : bool :=
  match m with
  | SyncRequest _ _ initiator => id_eqb initiator me
  | SyncAck _ responder => id_eqb responder me
  | StateRequest requesterId => id_eqb requesterId me
  | TimeCheck _ sender => id_eqb sender me
  | _ => false
  end.

Definition is_url_msg (m : Msg) : bool :=
  match m with
  | UrlMsg _ => true
  | _ => false
  end.

(** [data.url && data.url !== url]: the URL after a state response. *)
Definition adopted_url (cur u : string) : string :=
  if negb (String.eqb u "") && negb (String.eqb u cur) then u else cur.

(** The playback rate of the internal player, when it has one. *)
Definition current_rate (w : World) : option Q :=
  match playerRef w with
  | Some h => match internal h with
              | Some p => playbackRate p
              | None => None
              end
  | None => None
  end.

(** A playing peer at position 0. *)
Definition playing_peer (me : string) : World :=
  step (Receive (SyncGo 0)) (joined me).

(** The peers of the two-party scenarios, with the messages of the
    bootstrap left undelivered. *)
Definition alice_seeks : World :=
  run [OnSeek 42; Expire 0] (joined "alice").

Definition bob_answers : World :=
  run [Receive (SyncRequest "seek" 42 (Some "alice")); Expire 0]
      (joined "bob").

(** Alice's play request is in flight. *)
Definition alice_requesting : World :=
  run [OnPlay; Expire 0] (joined "alice").

(** Bob watches a video: connected, URL set, playing at position 30. *)
Definition bob_watching : World :=
  run [ChangeUrl "https://example.org/a.mp4"; Receive (SyncGo 30)]
      (step (Subscribed "bob") (initial None (Some (video 30)))).

(** Bob is playing when a hard-seek correction takes the lock and arms
    the 500 ms settle timer (timer 0); a go then commits play and frees
    the lock, and the play event it causes consumes the remote-echo
    flag. Bob scrubs to 20: after the debounce (timer 1) [requestSeek]
    takes the lock and sets the target. *)
Definition bob_seeks_after_correction : World :=
  run [Receive (TimeCheck 10 (Some "alice")); Receive (SyncGo 10);
       OnPlay; OnSeek 20; Expire 1]
      (playing_peer "bob").

(* ================================================================== *)
(** ** Further observations of the engine *)

(** The position the hook reads from the player. *)
Definition localTime (w : World) : Q := fst (getCurrentTime w).

(** The closure a surviving media event hands to the debounce. *)
Definition debounce_callback (s : SyncState) (e : Event) : Callback :=
  match e with
  | OnPlay => DebouncePlay s
  | OnSeek time => DebounceSeek time
  | _ => DebouncePause
  end.

(** The timers other than the one [debounceTimer.current] refers to. *)
Definition without_debounce (w : World) : list Timer :=
  match debounceTimer w with
  | Some id => filter (fun t => negb (Nat.eqb (tid t) id)) (timers w)
  | None => timers w
  end.


(** [handleTogglePlay] of the room page: the control bar's button. *)
Definition handleTogglePlay : M unit :=
  p <- get isPlaying ;;
  if p then handlePlayerPause else handlePlayerPlay.

(** [k] rounds of the timer armed last expiring. *)
Fixpoint expire_last (k : nat) (w : World) : World :=
  match k with
  | O => w
  | S k' => expire_last k' (step (Expire (pred (nextTimer w))) w)
  end.

(** The time-check events carrying the given samples. *)
Definition time_checks (samples : list (Q * UserId)) : list Event :=
  map (fun s => Receive (TimeCheck (fst s) (snd s))) samples.

(** A peer whose debounce is armed with the timer handed out last. *)
Definition debounce_armed (base : list Timer) (e : Event) (w : World) : Prop :=
  isRemoteAction w = false /\ syncLock w = false /\
  debounceTimer w = Some (pred (nextTimer w)) /\
  (0 < nextTimer w)%nat /\
  Forall (fun t => (tid t < pred (nextTimer w))%nat) base /\
  timers w = base ++ [mkTimer (pred (nextTimer w)) DEBOUNCE_MS
                        (debounce_callback (syncState w) e)].

(** [isPlayerReady] on an internal player. *)
Definition internal_ready (p : Internal) : bool :=
  match readyState p with
  | Some r => (HAVE_FUTURE_DATA <=? r)%Z
  | None => true
  end.

(** Bob's player is still buffering when Alice's play request arrives. *)
Definition bob_buffering : World :=
  step (Receive (SyncRequest "play" 5 (Some "alice")))
    (step (Subscribed "bob")
       (initial None
          (Some (mkHandle 0 (Some (mkInternal (Some 1%Z) (Some 1%Q)
                                     true true)))))).

(* ================================================================== *)
(** ** The video component ([VideoPlayer]): seek bar and double tap *)

Module VideoPlayer.

(** [const DOUBLE_TAP_DELAY = 300; const SKIP_SECONDS = 10] *)
Definition DOUBLE_TAP_DELAY : Z := 300.
Definition SKIP_SECONDS : Q := 10.

(** What [getBoundingClientRect()] is read for. *)
Record Rect : Type := mkRect { left : Q; width : Q }.







Inductive Side : Type := SideLeft | SideRight.

Definition side_eqb (a : option Side) (b : Side) : bool :=
  match a, b with
  | Some SideLeft, SideLeft | Some SideRight, SideRight => true
  | _, _ => false
  end.

(** The refs of the double-tap detection, the position of the inner
    player ([None] without one) and the seeks made. The visibility of
    the controls is left out. *)
Record Taps : Type := mkTaps {
  lastTapTime : Z;
  lastTapSide : option Side;
  position : option Q;
  tapSeeks : list Q
}.

(** A click, or a touch end with its remaining touches and the position
    of the changed one. *)
Inductive TapEvent : Type :=
| Click (clientX : Q)
| TouchEnd (touches : nat) (changedX : Q).

Definition tap_side (rect : Rect) (clientX : Q) : Side :=
  if Qltb (clientX - left rect) (width rect / 2) then SideLeft
  else SideRight.

(** The time a double tap on [side] seeks to. *)
Definition skip_target (side : Side) (duration current : Q) : Q :=
  match side with
  | SideLeft => Qmax 0 (current - SKIP_SECONDS)
  | SideRight => Qmin duration (current + SKIP_SECONDS)
  end.

(** [handleVideoTap]; [container] is [containerRef.current], [now] is
    [Date.now()]. *)
Definition handleVideoTap (container : option Rect) (duration : Q)
    (ev : TapEvent) (now : Z) (s : Taps) : Taps :=
  match container with
  | None => s
  | Some rect =>
      match (match ev with
             | Click x => Some x
             | TouchEnd O _ => None
             | TouchEnd (S _) x => Some x
             end) with
      | None => s
      | Some clientX =>
          let side := tap_side rect clientX in
          if (now - lastTapTime s <? DOUBLE_TAP_DELAY)%Z
             && side_eqb (lastTapSide s) side
          then
            let current := match position s with
                           | Some c => c
                           | None => 0
                           end in
            let newTime := skip_target side duration current in
            mkTaps 0 None
                   (match position s with
                    | Some _ => Some newTime
                    | None => None
                    end)
                   (tapSeeks s ++ [newTime])
          else mkTaps now (Some side) (position s) (tapSeeks s)
      end
  end.

(** A series of clicks at the given times and positions. *)
Definition clicks (container : option Rect) (duration : Q)
    (taps : list (Z * Q)) (s : Taps) : Taps :=
  fold_left (fun st t => handleVideoTap container duration (Click (snd t))
                                        (fst t) st) taps s.

(** Every tap follows the previous one by less than the delay. *)
Fixpoint gaps_ok (prev : Z) (taps : list (Z * Q)) : Prop :=
  match taps with
  | [] => True
  | t :: rest => (fst t - prev < DOUBLE_TAP_DELAY)%Z /\ gaps_ok (fst t) rest
  end.

Definition quick_taps (taps : list (Z * Q)) : Prop :=
  match taps with
  | [] => True
  | t :: rest => gaps_ok (fst t) rest
  end.

End VideoPlayer.

(** ** The recording countdown ([useWalkieTalkie], [ControlBar]) *)

Module WalkieTalkie.

(** [const MAX_RECORD_SECONDS = 3] *)
Definition MAX_RECORD_SECONDS : Z := 3.

(** The updater of the one-second interval:
    [prev => prev <= 1 ? 0 : prev - 1]. *)
Definition countdown_tick (prev : Z) : Z :=
  if (prev <=? 1)%Z then 0%Z else (prev - 1)%Z.

(** The countdown after [n] ticks of the interval. *)
Definition countdown_after (n : nat) (start : Z) : Z :=
  Nat.iter n countdown_tick start.

(** [ControlBar]'s progress ring:
    [isRecording ? ((maxSeconds - countdown) / maxSeconds) * 100 : 0]. *)
Definition progress (isRecording : bool) (maxSeconds countdown : Z) : Q :=
  if isRecording
  then (inject_Z (maxSeconds - countdown) / inject_Z maxSeconds) * 100
  else 0.

End WalkieTalkie.

(* ================================================================== *)
(** ** The socket server ([server.ts]) *)

Module Server.

(** [videoState?: { playing; timestamp; url? }] *)
Record VideoState : Type := mkVideoState {
  playing : bool;
  timestamp : Q;
  url : option string
}.

(** [interface Room]: [users] is a [Set<string>], kept as the list of its
    elements in insertion order. *)
Record Room : Type := mkRoom {
  users : list string;
  videoState : option VideoState
}.

(** [Set.prototype.has], [add] and [delete]. *)
Definition set_has (x : string) (s : list string) : bool :=
  existsb (String.eqb x) s.

Definition set_add (x : string) (s : list string) : list string :=
  if set_has x s then s else s ++ [x].

Definition set_delete (x : string) (s : list string) : list string :=
  filter (fun y => negb (String.eqb y x)) s.

(** [Map.prototype.get], [set] and [delete] on [rooms]. *)
Fixpoint map_get (k : string) (m : list (string * Room)) : option Room :=
  match m with
  | [] => None
  | (k', r) :: m' => if String.eqb k' k then Some r else map_get k m'
  end.

Fixpoint map_set (k : string) (r : Room) (m : list (string * Room))
  : list (string * Room) :=
  match m with
  | [] => [(k, r)]
  | (k', r') :: m' =>
      if String.eqb k' k then (k, r) :: m' else (k', r') :: map_set k r m'
  end.

Definition map_delete (k : string) (m : list (string * Room))
  : list (string * Room) :=
  filter (fun e => negb (String.eqb (fst e) k)) m.

(** Where an [emit] goes: [socket.emit], [socket.to(room).emit] (the
    room without the sender) and [io.to(target).emit]. *)
Inductive Target : Type :=
| ToSocket (id : string)
| ToRoomExcept (room sender : string)
| ToRoom (room : string).

Inductive Emit : Type :=
| RoomFull
| UserJoined (id : string)
| VideoSync (state : VideoState)
| AllUsers (ids : list string)
| VideoUpdate (state : VideoState)
| Signal (signal callerID : string)
| VoiceNote (senderId audioBlob : string) (duration : Q)
| UserDisconnected (id : string).

(** The server: the [rooms] map, for every connected socket the rooms it
    has joined ([socket.rooms] without the socket's own room), and the
    log of emits. *)
Record State : Type := mkState {
  rooms : list (string * Room);
  joined : list (string * list string);
  out : list (Target * Emit)
}.

Definition empty : State := mkState [] [] [].

Definition emit (t : Target) (e : Emit) (s : State) : State :=
  mkState (rooms s) (joined s) (out s ++ [(t, e)]).

Fixpoint joined_of (id : string) (j : list (string * list string))
  : list string :=
  match j with
  | [] => []
  | (id', rs) :: j' => if String.eqb id' id then rs else joined_of id j'
  end.

(** [socket.rooms]: the socket's own room and the rooms it joined. *)
Definition socket_rooms (id : string) (s : State) : list string :=
  set_add id [] ++ filter (fun r => negb (String.eqb r id))
                          (joined_of id (joined s)).

Fixpoint join_set (id room : string) (j : list (string * list string))
  : list (string * list string) :=
  match j with
  | [] => [(id, [room])]
  | (id', rs) :: j' =>
      if String.eqb id' id then (id, set_add room rs) :: j'
      else (id', rs) :: join_set id room j'
  end.

(** [socket.join(roomId)] *)
Definition socket_join (id room : string) (s : State) : State :=
  mkState (rooms s) (join_set id room (joined s)) (out s).

(** The ['join-room'] handler of socket [id]. *)
Definition joinRoom (id roomId : string) (s : State) : State :=
  let room := match map_get roomId (rooms s) with
              | Some r => r
              | None => mkRoom [] None
              end in
  let s0 := match map_get roomId (rooms s) with
            | Some _ => s
            | None => mkState (map_set roomId room (rooms s)) (joined s)
                              (out s)
            end in
  if (2 <=? length (users room))%nat && negb (set_has id (users room))
  then emit (ToSocket id) RoomFull s0
  else
    let s1 := socket_join id roomId s0 in
    let room' := mkRoom (set_add id (users room)) (videoState room) in
    let s2 := mkState (map_set roomId room' (rooms s1)) (joined s1) (out s1) in
    let s3 := emit (ToRoomExcept roomId id) (UserJoined id) s2 in
    let s4 := match videoState room' with
              | Some vs => emit (ToSocket id) (VideoSync vs) s3
              | None => s3
              end in
    emit (ToSocket id)
         (AllUsers (filter (fun u => negb (String.eqb u id)) (users room')))
         s4.

(** The ['video-update'] handler. *)
Definition videoUpdate (id roomId : string) (vs : VideoState) (s : State)
  : State :=
  match map_get roomId (rooms s) with
  | Some room =>
      emit (ToRoomExcept roomId id) (VideoUpdate vs)
           (mkState (map_set roomId (mkRoom (users room) (Some vs)) (rooms s))
                    (joined s) (out s))
  | None => s
  end.

(** The ['signal'] handler. *)
Definition signal (target sig callerID : string) (s : State) : State :=
  emit (ToRoom target) (Signal sig callerID) s.

(** The ['voice-note'] handler. *)
Definition voiceNote (id audioBlob : string) (duration : Q) (s : State)
  : State :=
  fold_left
    (fun st roomId =>
       if negb (String.eqb roomId id)
       then emit (ToRoomExcept roomId id) (VoiceNote id audioBlob duration) st
       else st)
    (socket_rooms id s) s.

(** One round of the ['disconnecting'] loop. *)
Definition leave (id : string) (st : State) (roomId : string) : State :=
  match map_get roomId (rooms st) with
  | Some room =>
      let room' := mkRoom (set_delete id (users room)) (videoState room) in
      let st1 := emit (ToRoomExcept roomId id) (UserDisconnected id)
                   (mkState (map_set roomId room' (rooms st)) (joined st)
                            (out st)) in
      if Nat.eqb (length (users room')) 0
      then mkState (map_delete roomId (rooms st1)) (joined st1) (out st1)
      else st1
  | None => st
  end.

(** The ['disconnecting'] handler, after which the socket has left its
    rooms. *)
Definition disconnecting (id : string) (s : State) : State :=
  let s1 := fold_left (leave id) (socket_rooms id s) s in
  mkState (rooms s1)
          (filter (fun e => negb (String.eqb (fst e) id)) (joined s1))
          (out s1).

Inductive Event : Type :=
| JoinRoom (id roomId : string)
| UpdateVideo (id roomId : string) (vs : VideoState)
| SendSignal (target sig callerID : string)
| SendVoiceNote (id audioBlob : string) (duration : Q)
| Disconnecting (id : string).

Definition step (e : Event) (s : State) : State :=
  match e with
  | JoinRoom id roomId => joinRoom id roomId s
  | UpdateVideo id roomId vs => videoUpdate id roomId vs s
  | SendSignal target sig callerID => signal target sig callerID s
  | SendVoiceNote id audioBlob duration => voiceNote id audioBlob duration s
  | Disconnecting id => disconnecting id s
  end.

Definition run (es : list Event) (s : State) : State :=
  fold_left (fun st e => step e st) es s.

(** Every room has one or two users, each once, and no room id occurs
    twice in the map. *)
Definition room_ok (r : Room) : Prop :=
  (1 <= length (users r) <= 2)%nat /\ NoDup (users r).

Definition rooms_ok (s : State) : Prop :=
  Forall (fun e => room_ok (snd e)) (rooms s) /\ NoDup (map fst (rooms s)).

End Server.

(* ================================================================== *)
(** ** The room page over the socket server: its handlers and effect *)

Module SocketClient.

(** [tempAudio.duration], a number that may be infinite or NaN. *)
Inductive Duration : Type :=
| Finite (d : Q)
| Infinite
| NaN.

(** [duration || 0] *)
Definition or_zero (d : Duration) : Duration :=
  match d with
  | NaN => Finite 0
  | _ => d
  end.

(** [duration && isFinite(duration)]: the delay of the sender's wait. *)
Definition finite_nonzero (d : Duration) : option Q :=
  match d with
  | Finite q => if Qeq_bool q 0 then None else Some q
  | _ => None
  end.

(** What the page sends to the server. *)
Inductive Emit : Type :=
| EmitJoinRoom (roomId : string)
| EmitVideoUpdate (roomId : string) (playing : bool) (timestamp : Q)
                  (url : string)
| EmitVoiceNote (duration : Duration).

(** The page: the state of [SocketRoomPage.Page], the seek command, the
    user count, the socket ([socket] is non-null, [isConnected]), the
    log of emits, the temporary audio elements waiting for their
    metadata and the armed resume timers, each with the [videoState]
    its closure captured. An absent [url] is the empty string, as every
    reader of it takes [url || '']. *)
Record Client : Type := mkClient {
  page : SocketRoomPage.Page;
  seekCmd : option Q;
  userCount : Z;
  socket : bool;
  isConnected : bool;
  roomId : string;
  emitted : list Emit;
  recordings : list SocketRoomPage.VideoState;
  resumes : list (Q * SocketRoomPage.VideoState)
}.

Definition videoState (c : Client) : SocketRoomPage.VideoState :=
  SocketRoomPage.videoState (page c).

Definition timestamp (c : Client) : Q := SocketRoomPage.timestamp (videoState c).

Definition set_page (p : SocketRoomPage.Page) (c : Client) : Client :=
  mkClient p (seekCmd c) (userCount c) (socket c) (isConnected c) (roomId c)
           (emitted c) (recordings c) (resumes c).

Definition setVideoState (v : SocketRoomPage.VideoState) (c : Client)
  : Client :=
  set_page (SocketRoomPage.mkPage v (SocketRoomPage.isVoiceInterruption (page c))
              (SocketRoomPage.audioRef (page c))
              (SocketRoomPage.volume (page c))) c.

Definition setSeekCmd (t : Q) (c : Client) : Client :=
  mkClient (page c) (Some t) (userCount c) (socket c) (isConnected c)
           (roomId c) (emitted c) (recordings c) (resumes c).

Definition setUserCount (n : Z) (c : Client) : Client :=
  mkClient (page c) (seekCmd c) n (socket c) (isConnected c) (roomId c)
           (emitted c) (recordings c) (resumes c).

Definition emit (e : Emit) (c : Client) : Client :=
  mkClient (page c) (seekCmd c) (userCount c) (socket c) (isConnected c)
           (roomId c) (emitted c ++ [e]) (recordings c) (resumes c).

Definition set_recordings (l : list SocketRoomPage.VideoState) (c : Client)
  : Client :=
  mkClient (page c) (seekCmd c) (userCount c) (socket c) (isConnected c)
           (roomId c) (emitted c) l (resumes c).

Definition set_resumes (l : list (Q * SocketRoomPage.VideoState))
    (c : Client) : Client :=
  mkClient (page c) (seekCmd c) (userCount c) (socket c) (isConnected c)
           (roomId c) (emitted c) (recordings c) l.

Definition setPlaying (b : bool) (c : Client) : Client :=
  set_page (SocketRoomPage.setPlaying b (page c)) c.

Definition setInterruption (b : bool) (c : Client) : Client :=
  set_page (SocketRoomPage.setInterruption b (page c)) c.

(** The ['video-sync'] handler. *)
Definition onVideoSync (state : SocketRoomPage.VideoState) (c : Client)
  : Client :=
  setSeekCmd (SocketRoomPage.timestamp state) (setVideoState state c).

(** The ['video-update'] handler. *)
Definition onVideoUpdate (playing : bool) (time : Q) (url : string)
    (c : Client) : Client :=
  let prev := videoState c in
  let c1 :=
    if negb (SocketRoomPage.isVoiceInterruption (page c))
    then setVideoState
           (SocketRoomPage.mkVideoState playing
              (SocketRoomPage.timestamp prev) url) c
    else setVideoState
           (SocketRoomPage.mkVideoState (SocketRoomPage.playing prev)
              (SocketRoomPage.timestamp prev) url) c in
  if Qgtb (Qabs (time - timestamp c)) 1 then setSeekCmd time c1 else c1.

(** The ['user-joined'] and ['user-disconnected'] handlers. *)
Definition onUserJoined (c : Client) : Client :=
  setUserCount (Z.min (userCount c + 1) 2) c.

Definition onUserDisconnected (c : Client) : Client :=
  setUserCount (Z.max (userCount c - 1) 1) c.

(** [handlePlay] and [handlePause] as closed over the [videoState] of
    one render. *)
Definition handlePlay_in (cap : SocketRoomPage.VideoState) (time : Q)
    (c : Client) : Client :=
  if socket c
  then setPlaying true
         (emit (EmitVideoUpdate (roomId c) true time (SocketRoomPage.url cap))
               c)
  else c.

Definition handlePause_in (cap : SocketRoomPage.VideoState) (time : Q)
    (c : Client) : Client :=
  if socket c
  then setPlaying false
         (emit (EmitVideoUpdate (roomId c) false time (SocketRoomPage.url cap))
               c)
  else c.

Definition handlePlay (time : Q) (c : Client) : Client :=
  handlePlay_in (videoState c) time c.

Definition handlePause (time : Q) (c : Client) : Client :=
  handlePause_in (videoState c) time c.

(** [handleTogglePlay] *)
Definition handleTogglePlay (c : Client) : Client :=
  if SocketRoomPage.playing (videoState c)
  then handlePause (timestamp c) c
  else handlePlay (timestamp c) c.

(** [handleSeek] *)
Definition handleSeek (time : Q) (c : Client) : Client :=
  if socket c
  then setVideoState
         (SocketRoomPage.mkVideoState (SocketRoomPage.playing (videoState c))
            time (SocketRoomPage.url (videoState c)))
         (emit (EmitVideoUpdate (roomId c)
                  (SocketRoomPage.playing (videoState c)) time
                  (SocketRoomPage.url (videoState c))) c)
  else c.

(** [handleUrlChange] *)
Definition handleUrlChange (newUrl : string) (c : Client) : Client :=
  if socket c
  then setVideoState (SocketRoomPage.mkVideoState false 0 newUrl)
         (emit (EmitVideoUpdate (roomId c) false 0 newUrl) c)
  else c.

(** The [onProgress] property handed to the player. *)
Definition onProgress (playedSeconds : Q) (c : Client) : Client :=
  setVideoState
    (SocketRoomPage.mkVideoState (SocketRoomPage.playing (videoState c))
       playedSeconds (SocketRoomPage.url (videoState c))) c.

(** [handleRecordStart] *)
Definition handleRecordStart (c : Client) : Client :=
  setPlaying false (setInterruption true c).

(** [handleRecordStop]; [blob] tells whether [stopRecording()] gave a
    blob. The handlers of the temporary audio element close over the
    [videoState] of this render. *)
Definition handleRecordStop (blob : bool) (c : Client) : Client :=
  if blob && socket c
  then set_recordings (recordings c ++ [videoState c]) c
  else setInterruption false c.

(** The end of the sender's wait:
    [isVoiceInterruption.current = false; handlePlay(videoState.timestamp)]. *)
Definition resume (cap : SocketRoomPage.VideoState) (c : Client) : Client :=
  handlePlay_in cap (SocketRoomPage.timestamp cap) (setInterruption false c).

Fixpoint remove_nth {A : Type} (n : nat) (l : list A) : list A :=
  match n, l with
  | _, [] => []
  | O, _ :: l' => l'
  | S n', a :: l' => a :: remove_nth n' l'
  end.

(** [tempAudio.onloadedmetadata] of the [i]-th waiting element. *)
Definition onloadedmetadata (i : nat) (d : Duration) (c : Client) : Client :=
  match nth_error (recordings c) i with
  | None => c
  | Some cap =>
      let c1 := emit (EmitVoiceNote (or_zero d))
                  (set_recordings (remove_nth i (recordings c)) c) in
      match finite_nonzero d with
      | Some q => set_resumes (resumes c1 ++ [(q * 1000, cap)]) c1
      | None => resume cap c1
      end
  end.

(** [tempAudio.onerror] of the [i]-th waiting element. *)
Definition onerror (i : nat) (c : Client) : Client :=
  match nth_error (recordings c) i with
  | None => c
  | Some cap =>
      resume cap
        (emit (EmitVoiceNote (Finite 0))
           (set_recordings (remove_nth i (recordings c)) c))
  end.

(** The [j]-th resume timer expires. *)
Definition expire (j : nat) (c : Client) : Client :=
  match nth_error (resumes c) j with
  | None => c
  | Some (_, cap) => resume cap (set_resumes (remove_nth j (resumes c)) c)
  end.

Inductive Event : Type :=
| VideoSync (state : SocketRoomPage.VideoState)
| VideoUpdate (playing : bool) (timestamp : Q) (url : string)
| UserJoined
| UserDisconnected
| VoiceNote (playOk : bool)
| AudioEnded
| Play (time : Q)
| Pause (time : Q)
| TogglePlay
| Seek (time : Q)
| UrlChange (newUrl : string)
| Progress (playedSeconds : Q)
| RecordStart
| RecordStop (blob : bool)
| LoadedMetadata (i : nat) (d : Duration)
| LoadError (i : nat)
| Expire (j : nat).

(** The socket handlers are bound by the effect, which returns early
    without a connected socket. *)
Definition subscribed (c : Client) : bool := socket c && isConnected c.

Definition handle (e : Event) (c : Client) : Client :=
  match e with
  | VideoSync state => if subscribed c then onVideoSync state c else c
  | VideoUpdate p t u => if subscribed c then onVideoUpdate p t u c else c
  | UserJoined => if subscribed c then onUserJoined c else c
  | UserDisconnected => if subscribed c then onUserDisconnected c else c
  | VoiceNote playOk =>
      if subscribed c
      then set_page (SocketRoomPage.onVoiceNote playOk (page c)) c
      else c
  | AudioEnded => set_page (SocketRoomPage.handleAudioEnded (page c)) c
  | Play time => handlePlay time c
  | Pause time => handlePause time c
  | TogglePlay => handleTogglePlay c
  | Seek time => handleSeek time c
  | UrlChange u => handleUrlChange u c
  | Progress t => onProgress t c
  | RecordStart => handleRecordStart c
  | RecordStop blob => handleRecordStop blob c
  | LoadedMetadata i d => onloadedmetadata i d c
  | LoadError i => onerror i c
  | Expire j => expire j c
  end.

(** The sync effect, with dependencies
    [[socket, isConnected, roomId, videoState.timestamp]]: when it runs
    with a connected socket it emits ['join-room'] and binds the
    handlers. *)
Definition syncEffect (c : Client) : Client :=
  if subscribed c then emit (EmitJoinRoom (roomId c)) c else c.

(** One turn: the handler, then the effect again if the position it
    depends on has changed ([socket], [isConnected] and [roomId] do not
    change here). *)
Definition step (e : Event) (c : Client) : Client :=
  let c' := handle e c in
  if Qeq_bool (timestamp c) (timestamp c') then c' else syncEffect c'.

Definition run (es : list Event) (c : Client) : Client :=
  fold_left (fun st e => step e st) es c.

(** The page once mounted, with its audio element, after the first run
    of the effect. *)
Definition mounted (socket isConnected : bool) (roomId : string) : Client :=
  syncEffect
    (mkClient (SocketRoomPage.mkPage (SocketRoomPage.mkVideoState false 0 "")
                 false true (8 # 10))
              None 1 socket isConnected roomId [] [] []).

(** The state the server stores, as the page receives it. *)
Definition of_server (vs : Server.VideoState) : SocketRoomPage.VideoState :=
  SocketRoomPage.mkVideoState (Server.playing vs) (Server.timestamp vs)
    (match Server.url vs with
     | Some u => u
     | None => ""
     end).

(** The events that do not come from a recording or its timer. *)
Definition is_recording_event (e : Event) : bool :=
  match e with
  | RecordStop _ | LoadedMetadata _ _ | LoadError _ | Expire _ => true
  | _ => false
  end.

End SocketClient.

(* ================================================================== *)
(** * Properties *)

(** ** Arithmetic and equality helpers *)

Lemma Qltb_spec (a b : Q) : Qltb a b = true <-> (a < b)%Q.
Proof.
  unfold Qltb. rewrite negb_true_iff.
  split; intros H.
  - apply Qnot_le_lt. intros L. apply Qle_bool_iff in L. congruence.
  - destruct (Qle_bool b a) eqn:E; [| reflexivity].
    apply Qle_bool_iff in E. exfalso. apply (Qlt_not_le _ _ H E).
Qed.

Lemma Qgtb_spec (a b : Q) : Qgtb a b = true <-> (b < a)%Q.
Proof. apply (Qltb_spec b a). Qed.

Lemma Qltb_false (a b : Q) : Qltb a b = false <-> (b <= a)%Q.
Proof.
  unfold Qltb. rewrite negb_false_iff. apply Qle_bool_iff.
Qed.

Lemma Qgtb_false (a b : Q) : Qgtb a b = false <-> (a <= b)%Q.
Proof. apply (Qltb_false b a). Qed.

Lemma id_eqb_refl (a : UserId) : id_eqb a a = true.
Proof. destruct a as [s|]; simpl; [apply String.eqb_refl | reflexivity]. Qed.

Lemma id_eqb_eq (a b : UserId) : id_eqb a b = true <-> a = b.
Proof.
  destruct a as [x|], b as [y|]; simpl; split; intros H;
    try congruence; try reflexivity.
  - apply String.eqb_eq in H. congruence.
  - inversion H. apply String.eqb_refl.
Qed.

Lemma id_eqb_neq (a b : UserId) : id_eqb a b = false <-> a <> b.
Proof.
  rewrite <- id_eqb_eq. destruct (id_eqb a b); split; congruence.
Qed.

Lemma SyncState_eqb_eq (a b : SyncState) : SyncState_eqb a b = true <-> a = b.
Proof. destruct a, b; simpl; split; congruence. Qed.

(* ------------------------------------------------------------------ *)
(** ** Proof automation *)

(** Unfolding the monad and the handlers down to record updates. *)
Ltac unfold_engine :=
  unfold step, handle, receive, expire, run_callback, syncEffect,
    videoPlayer_onPlay, videoPlayer_onPause,
    handlePlayerPlay, handlePlayerPause, handlePlayerSeek, debounce,
    onTimeCheck, driftTick, onStateResponse, onStateRequest, onUrl, onPause,
    onSyncGo, onSyncAck, onSyncRequest, checkReady, handleUrlChange,
    requestSeek, requestPause, requestPlay, executePlay, assign_rate,
    isPlayerReady, seekTo, getCurrentTime, getInternalPlayer, record_call,
    clearTimeout, setTimeout, trigger, when, exec, modify, get, bind, ret,
    bound in *.

(** The same, in the conclusion only. *)
Ltac unfold_handlers :=
  unfold step, handle, receive, expire, run_callback, syncEffect,
    videoPlayer_onPlay, videoPlayer_onPause,
    handlePlayerPlay, handlePlayerPause, handlePlayerSeek, debounce,
    onTimeCheck, driftTick, onStateResponse, onStateRequest, onUrl, onPause,
    onSyncGo, onSyncAck, onSyncRequest, checkReady, handleUrlChange,
    requestSeek, requestPause, requestPlay, executePlay, assign_rate,
    isPlayerReady, seekTo, getCurrentTime, getInternalPlayer, record_call,
    clearTimeout, setTimeout, trigger, when, exec, modify, get, bind, ret,
    bound.

(** Proof steps for the unfolded handlers: reduce the record updates,
    then replace a test by its known value. *)
Ltac world_norm :=
  cbv beta iota in *;
  cbn [myUserId isConnected channel syncState url isPlaying syncLock
       isRemoteAction pendingSync debounceTimer playerRef calls sent timers
       nextTimer set_props set_syncState set_url set_isPlaying set_syncLock
       set_isRemoteAction set_pendingSync set_debounceTimer set_playerRef
       set_calls set_sent set_timers position internal readyState
       playbackRate has_play has_pause tid delay callback p_time
       p_initiator fst snd negb andb orb SyncState_eqb core] in *.

Ltac engine_rew :=
  match goal with
  | H : ?x = true |- context [?x] => rewrite H
  | H : ?x = false |- context [?x] => rewrite H
  | H : ?x = Some _ |- context [?x] => rewrite H
  | H : ?x = None |- context [?x] => rewrite H
  | H : syncState ?w = _ |- context [syncState ?w] => rewrite H
  end.

Ltac engine_eval :=
  unfold_engine; world_norm; repeat (engine_rew; world_norm).

(** Take the world apart so that hypotheses on its fields become
    substitutions. *)
Ltac open_world w :=
  destruct w; world_norm; subst; world_norm.

(** Case analysis on the next test of an unfolded handler. *)
Ltac break_test :=
  match goal with
  | |- context [if ?c then _ else _] =>
      lazymatch c with
      | context [if _ then _ else _] => fail
      | context [match _ with _ => _ end] => fail
      | _ => destruct c eqn:?
      end
  | |- context [match ?c with _ => _ end] =>
      lazymatch c with
      | context [if _ then _ else _] => fail
      | context [match _ with _ => _ end] => fail
      | _ => destruct c eqn:?
      end
  end.

Ltac engine_cases :=
  repeat (world_norm; rewrite ?String.eqb_refl, ?id_eqb_refl; world_norm;
          first [engine_rew | break_test]);
  world_norm; rewrite ?String.eqb_refl, ?id_eqb_refl; world_norm.

(* ------------------------------------------------------------------ *)
(** ** Structure of a turn *)

Lemma deps_unchanged (w w' : World) :
  isConnected w' = isConnected w -> channel w' = channel w ->
  myUserId w' = myUserId w -> url w' = url w -> isPlaying w' = isPlaying w ->
  deps_changed w w' = false.
Proof.
  intros Hc Hch Hid Hu Hp. unfold deps_changed.
  rewrite Hc, Hch, Hid, Hu, Hp.
  rewrite !Bool.eqb_reflx, id_eqb_refl, String.eqb_refl. reflexivity.
Qed.

Lemma bound_channel (w : World) : bound w = true -> channel w = true.
Proof. unfold bound. intros H. apply andb_prop in H. tauto. Qed.

(** The re-run of the first effect publishes at most a state request and
    changes nothing else. *)
Lemma rerun_effect (w w' : World) :
  let w'' := if deps_changed w w' then exec syncEffect w' else w' in
  core w'' = core w' /\ props w'' = props w' /\
  timers w'' = timers w' /\ calls w'' = calls w' /\
  nextTimer w'' = nextTimer w' /\ debounceTimer w'' = debounceTimer w' /\
  (sent w'' = sent w' \/ sent w'' = sent w' ++ [StateRequest (myUserId w')]).
Proof.
  destruct (deps_changed w w'); cbv zeta; [| repeat split; left; reflexivity].
  unfold_engine. world_norm.
  destruct (isConnected w' && channel w') eqn:Hb; world_norm;
    [| repeat split; left; reflexivity].
  apply andb_prop in Hb. destruct Hb as [_ Hc]. rewrite Hc.
  repeat split. right. reflexivity.
Qed.

Lemma step_core (e : Event) (w : World) :
  core (step e w) = core (exec (handle e) w).
Proof. unfold step. apply rerun_effect. Qed.

Lemma step_props (e : Event) (w : World) :
  props (step e w) = props (exec (handle e) w).
Proof. unfold step. apply rerun_effect. Qed.

(** Field by field: a turn is its handler, up to one state request. *)
Lemma step_fields (e : Event) (w : World) :
  let w' := step e w in
  let v := exec (handle e) w in
  syncState w' = syncState v /\ url w' = url v /\
  isPlaying w' = isPlaying v /\ syncLock w' = syncLock v /\
  isRemoteAction w' = isRemoteAction v /\ pendingSync w' = pendingSync v /\
  playerRef w' = playerRef v /\ timers w' = timers v /\
  calls w' = calls v /\ myUserId w' = myUserId v /\
  (sent w' = sent v \/ sent w' = sent v ++ [StateRequest (myUserId v)]).
Proof.
  cbv zeta. unfold step. generalize (exec (handle e) w) as v. intros v.
  destruct (deps_changed w v);
    [| repeat split; try reflexivity; left; reflexivity].
  unfold_handlers. world_norm.
  destruct (isConnected v && channel v) eqn:Hb; world_norm;
    [| repeat split; try reflexivity; left; reflexivity].
  apply andb_prop in Hb. destruct Hb as [_ Hc]. rewrite Hc.
  repeat split; try reflexivity. right. reflexivity.
Qed.

(** Replace the fields of a turn's result by those of its handler. *)
Ltac step_to_handler e w Hs :=
  let H := fresh in
  pose proof (step_fields e w) as H; cbv zeta in H;
  destruct H as (?E & ?E & ?E & ?E & ?E & ?E & ?E & ?E & ?E & ?E & Hs);
  repeat match goal with
         | E : _ (step e w) = _ |- _ => rewrite ?E; clear E
         end.

(** No handler of a channel event touches the properties. *)
Lemma receive_props (m : Msg) (w : World) :
  props (exec (receive m) w) = props w.
Proof.
  unfold props. destruct m; unfold_engine; engine_cases; reflexivity.
Qed.

(** The effect of a channel event on the core depends on the core and
    the properties only. *)
Lemma receive_core_congr (m : Msg) (a b : World) :
  core a = core b -> props a = props b ->
  core (exec (receive m) a) = core (exec (receive m) b).
Proof.
  intros Hc Hp. destruct a, b. unfold core, props in Hc, Hp.
  world_norm. inversion Hc; inversion Hp; subst.
  destruct m; unfold_engine; engine_cases; reflexivity.
Qed.

(** Handling the same channel event twice in a row leaves the core as
    handling it once. *)
Lemma receive_idem (m : Msg) (w : World) :
  core (exec (receive m) (exec (receive m) w)) = core (exec (receive m) w).
Proof.
  destruct w.
  destruct m; unfold_engine; engine_cases; try reflexivity; congruence.
Qed.

(** A turn whose handler leaves the world as it is. *)
Lemma step_dropped (e : Event) (w : World) :
  exec (handle e) w = w -> step e w = w.
Proof.
  intros H. unfold step. rewrite H, deps_unchanged; reflexivity.
Qed.

(* ------------------------------------------------------------------ *)
(** ** Timers *)

Lemma fresh_weaken (n m : nat) (l : list Timer) :
  Forall (fun t => (tid t < n)%nat) l -> (n <= m)%nat ->
  Forall (fun t => (tid t < m)%nat) l.
Proof.
  intros H Hnm. induction H as [| t l Ht _ IH]; constructor; [lia | exact IH].
Qed.

Lemma fresh_filter (n : nat) (f : Timer -> bool) (l : list Timer) :
  Forall (fun t => (tid t < n)%nat) l ->
  Forall (fun t => (tid t < n)%nat) (filter f l).
Proof.
  intros H. induction H as [| t l Ht _ IH]; cbn [filter]; [constructor |].
  destruct (f t); [constructor; assumption | exact IH].
Qed.

Ltac fresh_solve :=
  unfold timers_fresh in *; world_norm;
  repeat first
    [ assumption
    | apply Forall_app; split
    | apply Forall_cons; [cbn [tid]; lia |]
    | apply Forall_nil
    | apply fresh_filter
    | (eapply fresh_weaken; [eassumption | lia]) ].

(** No handler arms a timer under an id in use. *)
Lemma handle_fresh (e : Event) (w : World) :
  timers_fresh w -> timers_fresh (exec (handle e) w).
Proof.
  intros H. destruct w. unfold timers_fresh in H. world_norm.
  destruct e as [me | m | id | | | t | u |].
  - exact H.
  - destruct m; unfold_handlers; engine_cases; fresh_solve.
  - unfold handle, expire, exec. cbn [timers].
    destruct (find (fun t => Nat.eqb (tid t) id) timers0) as [t|];
      [| exact H].
    destruct (callback t); unfold_handlers; engine_cases; fresh_solve.
  - unfold_handlers; engine_cases; fresh_solve.
  - unfold_handlers; engine_cases; fresh_solve.
  - unfold_handlers; engine_cases; fresh_solve.
  - unfold_handlers; engine_cases; fresh_solve.
  - unfold_handlers; engine_cases; fresh_solve.
Qed.

Lemma step_fresh (e : Event) (w : World) :
  timers_fresh w -> timers_fresh (step e w).
Proof.
  intros H. apply (handle_fresh e) in H. unfold timers_fresh, step in *.
  destruct (rerun_effect w (exec (handle e) w)) as [_ [_ [Ht [_ [Hn _]]]]].
  rewrite Ht, Hn. exact H.
Qed.

(** Freshness is an invariant of every run from the initial world. *)
Lemma run_fresh (es : list Event) (w : World) :
  timers_fresh w -> timers_fresh (run es w).
Proof.
  revert w. induction es as [| e es IH]; intros w H; cbn [run];
    [exact H | apply IH, step_fresh, H].
Qed.

Lemma initial_fresh (me : UserId) (p : option Handle) :
  timers_fresh (initial me p).
Proof. constructor. Qed.

(** The timer armed last, under a fresh id, is the one that expires under
    that id: its closure runs on the world without it. *)
Lemma expire_armed (v : World) (l : list Timer) (id : nat) (d : Z)
    (cb : Callback) :
  timers v = l ++ [mkTimer id d cb] ->
  Forall (fun t => (tid t < id)%nat) l ->
  exec (handle (Expire id)) v
  = exec (run_callback cb) (set_timers l (nextTimer v) v).
Proof.
  intros Ht Hl. cbn [handle]. unfold expire, exec at 1.
  assert (Hfind : find (fun t => Nat.eqb (tid t) id) (timers v)
                  = Some (mkTimer id d cb)).
  { rewrite Ht. clear Ht. induction Hl as [| t l Hlt _ IH]; cbn [app find tid].
    - rewrite Nat.eqb_refl. reflexivity.
    - destruct (Nat.eqb_spec (tid t) id) as [E | _]; [lia | exact IH]. }
  assert (Hfilter : filter (fun t => negb (Nat.eqb (tid t) id)) (timers v) = l).
  { rewrite Ht. clear Ht Hfind.
    induction Hl as [| t l Hlt _ IH]; cbn [app filter tid].
    - rewrite Nat.eqb_refl. reflexivity.
    - destruct (Nat.eqb_spec (tid t) id) as [E | _]; [lia |].
      cbn [negb]. rewrite IH. reflexivity. }
  rewrite Hfind. cbn [callback]. unfold clearTimeout, exec.
  cbn [snd]. rewrite Hfilter. reflexivity.
Qed.

(* ------------------------------------------------------------------ *)
(** ** Remote-echo guard *)



(* ------------------------------------------------------------------ *)
(** ** Acknowledgement timeout of the play handshake *)

(** The callback armed by [requestPlay] tests the [syncState] its closure
    captured, which is the state before the request: unless that state
    was already a handshake state, the callback does nothing, in whatever
    world it runs. *)
Lemma ack_timeout_stale (captured : SyncState) (w : World) :
  captured <> requesting -> captured <> waiting_ack ->
  exec (run_callback (AckTimeout captured)) w = w.
Proof.
  intros H1 H2. destruct captured; try congruence; reflexivity.
Qed.

(** What [requestPlay] does when the lock is free. *)
Lemma requestPlay_unlocked (captured : SyncState) (w : World) :
  syncLock w = false ->
  let w1 := exec (requestPlay captured) w in
  syncLock w1 = true /\ syncState w1 = requesting /\
  isPlaying w1 = isPlaying w /\ calls w1 = calls w /\
  pendingSync w1 =
    Some (mkPending (fst (getCurrentTime w)) (or_self (myUserId w))) /\
  sent w1 =
    (if channel w
     then sent w ++ [SyncRequest "play" (fst (getCurrentTime w)) (myUserId w)]
     else sent w) /\
  timers w1 = timers w ++ [mkTimer (nextTimer w) 3000 (AckTimeout captured)].
Proof.
  intros Hl. unfold_engine. rewrite Hl. cbn.
  destruct (channel w); cbn; repeat split; reflexivity.
Qed.

(** In general: from any world with the lock free, when the closure did
    not capture a handshake state, the expiry of the timer that
    [requestPlay] armed only removes that timer: the lock stays held, the
    state 'requesting', and [isPlaying] as it was. *)
Lemma ack_timeout_never_commits (w : World) (captured : SyncState) :
  timers_fresh w -> syncLock w = false ->
  captured <> requesting -> captured <> waiting_ack ->
  let w1 := exec (requestPlay captured) w in
  let w2 := step (Expire (nextTimer w)) w1 in
  w2 = set_timers (timers w) (nextTimer w1) w1 /\
  syncLock w2 = true /\ syncState w2 = requesting /\
  isPlaying w2 = isPlaying w /\ calls w2 = calls w.
Proof.
  intros Hf Hl H1 H2. cbv zeta.
  destruct (requestPlay_unlocked captured w Hl)
    as [Hlk [Hst [Hpl [Hcl [_ [_ Ht]]]]]].
  assert (E : step (Expire (nextTimer w)) (exec (requestPlay captured) w)
              = set_timers (timers w)
                  (nextTimer (exec (requestPlay captured) w))
                  (exec (requestPlay captured) w)).
  { unfold step.
    rewrite (expire_armed _ (timers w) (nextTimer w) 3000
               (AckTimeout captured) Ht Hf).
    rewrite (ack_timeout_stale captured _ H1 H2).
    rewrite deps_unchanged; reflexivity. }
  rewrite E. world_norm. repeat split; assumption.
Qed.

(** C1 (evaluation of the code). A connected, idle peer observes a local
    play; the debounce expires and [requestPlay] broadcasts the request
    and arms the 3000 ms timer; no acknowledgement arrives and the timer
    expires. Play has been committed zero times: the player was never
    told to play, [isPlaying] is still false, the state is still
    'requesting' and the lock is still held, with no timer left that
    could change this. *)
Theorem ack_timeout_commits_no_play :
  let w := run [OnPlay; Expire 0; Expire 1] (joined "alice") in
  sent w = [StateRequest (Some "alice");
            SyncRequest "play" 0 (Some "alice")] /\
  calls w = [] /\ isPlaying w = false /\ syncState w = requesting /\
  syncLock w = true /\ timers w = [].
Proof. cbv. repeat split; reflexivity. Qed.

(* ------------------------------------------------------------------ *)
(** ** Drift correction *)

(** The handler is not reached, or returns at once, unless the peer is
    bound, playing, unlocked and the sample is a peer's. *)
Lemma time_check_gate (w : World) (time : Q) (sender : UserId) :
  bound w = false \/ syncState w <> playing \/ syncLock w = true \/
    sender = myUserId w ->
  step (Receive (TimeCheck time sender)) w = w.
Proof.
  intros H. unfold step.
  assert (E : exec (handle (Receive (TimeCheck time sender))) w = w).
  { destruct (bound w) eqn:Hb; [| engine_eval; reflexivity].
    destruct (SyncState_eqb (syncState w) playing) eqn:Hs;
      [| engine_eval; reflexivity].
    destruct (id_eqb sender (myUserId w)) eqn:Hid;
      [engine_eval; reflexivity |].
    destruct (syncLock w) eqn:Hl; [engine_eval; reflexivity |].
    exfalso. destruct H as [H | [H | [H | H]]]; try discriminate.
    - apply H. apply SyncState_eqb_eq. exact Hs.
    - apply id_eqb_neq in Hid. contradiction. }
  rewrite E, deps_unchanged; reflexivity.
Qed.

(** The handler itself, once the gate is passed. *)
Lemma time_check_bands (w : World) (time : Q) (sender : UserId) :
  bound w = true -> sender <> myUserId w ->
  syncState w = playing -> syncLock w = false ->
  let localTime := fst (getCurrentTime w) in
  let diff := Qabs (time - localTime) in
  let w' := step (Receive (TimeCheck time sender)) w in
  (diff <= MICRO_DRIFT_THRESHOLD -> w' = w)%Q /\
  (MICRO_DRIFT_THRESHOLD < diff -> diff <= SOFT_SYNC_THRESHOLD ->
   forall r, current_rate w = Some r ->
     (localTime < time ->
        calls w' = calls w ++ [CallRate (105 # 100)] /\
        current_rate w' = Some (105 # 100)) /\
     (time <= localTime ->
        calls w' = calls w ++ [CallRate (95 # 100)] /\
        current_rate w' = Some (95 # 100)) /\
     timers w' = timers w ++ [mkTimer (nextTimer w) 1500 ResetRate] /\
     sent w' = sent w /\ syncLock w' = false /\
     current_rate (exec (run_callback ResetRate) w') = Some 1%Q)%Q /\
  (HARD_SYNC_THRESHOLD < diff ->
     syncLock w' = true /\ isRemoteAction w' = true /\ sent w' = sent w /\
     timers w' = timers w ++ [mkTimer (nextTimer w) 500 ReleaseLock] /\
     (forall h, playerRef w = Some h ->
        calls w' = calls w ++ [CallSeek time] /\
        playerRef w' = Some (mkHandle time (internal h))) /\
     syncLock (exec (run_callback ReleaseLock) w') = false)%Q.
Proof.
  intros Hb Hid Hs Hl localTime diff w'.
  apply id_eqb_neq in Hid.
  unfold MICRO_DRIFT_THRESHOLD, SOFT_SYNC_THRESHOLD, HARD_SYNC_THRESHOLD.
  split; [| split].
  - (* at most 0.3: either below, or exactly on, the micro threshold *)
    intros Hd. subst w'.
    destruct (Qltb diff MICRO_DRIFT_THRESHOLD) eqn:Hm.
    + subst diff localTime. open_world w. engine_eval.
      rewrite deps_unchanged by reflexivity. reflexivity.
    + assert (Hh : Qgtb diff HARD_SYNC_THRESHOLD = false)
        by (apply Qgtb_false; unfold HARD_SYNC_THRESHOLD; lra).
      assert (Hg : Qgtb diff MICRO_DRIFT_THRESHOLD = false)
        by (apply Qgtb_false; unfold MICRO_DRIFT_THRESHOLD; lra).
      subst diff localTime. open_world w. engine_eval.
      rewrite deps_unchanged by reflexivity. reflexivity.
  - (* soft band *)
    intros Hlo Hhi r Hr.
    assert (Hm : Qltb diff MICRO_DRIFT_THRESHOLD = false)
      by (apply Qltb_false; unfold MICRO_DRIFT_THRESHOLD; lra).
    assert (Hh : Qgtb diff HARD_SYNC_THRESHOLD = false)
      by (apply Qgtb_false; unfold HARD_SYNC_THRESHOLD; lra).
    assert (Hg : Qgtb diff MICRO_DRIFT_THRESHOLD = true)
      by (apply Qgtb_spec; unfold MICRO_DRIFT_THRESHOLD; lra).
    unfold current_rate in Hr.
    destruct (playerRef w) as [h|] eqn:Hp; [| discriminate].
    destruct (internal h) as [p|] eqn:Hi; [| discriminate].
    destruct (Qgtb time localTime) eqn:Ha.
    + apply Qgtb_spec in Ha as Ha'.
      subst w' diff localTime. unfold current_rate.
      open_world w. destruct h as [pos int]. world_norm. subst.
      destruct p as [rs pr hp hpa]. world_norm. subst.
      engine_eval. rewrite deps_unchanged by reflexivity. world_norm.
      repeat split; try reflexivity; exfalso; lra.
    + apply Qgtb_false in Ha as Ha'.
      subst w' diff localTime. unfold current_rate.
      open_world w. destruct h as [pos int]. world_norm. subst.
      destruct p as [rs pr hp hpa]. world_norm. subst.
      engine_eval. rewrite deps_unchanged by reflexivity. world_norm.
      repeat split; try reflexivity; exfalso; lra.
  - (* hard band *)
    intros Hhard.
    assert (Hm : Qltb diff MICRO_DRIFT_THRESHOLD = false)
      by (apply Qltb_false; unfold MICRO_DRIFT_THRESHOLD; lra).
    assert (Hh : Qgtb diff HARD_SYNC_THRESHOLD = true)
      by (apply Qgtb_spec; unfold HARD_SYNC_THRESHOLD; lra).
    subst w' diff localTime.
    destruct (playerRef w) as [h|] eqn:Hp;
      open_world w; engine_eval; rewrite deps_unchanged by reflexivity;
      world_norm; repeat split; try reflexivity; congruence.
Qed.






(* ------------------------------------------------------------------ *)
(** ** Handshake *)

(** The responder's side of a request that is not a play request. *)
Lemma seek_request_responder (w : World) (type : string) (time : Q)
    (initiator : UserId) (h : Handle) (p : Internal) :
  bound w = true -> initiator <> myUserId w -> syncLock w = false ->
  playerRef w = Some h -> internal h = Some p ->
  let w1 := step (Receive (SyncRequest type time initiator)) w in
  syncLock w1 = true /\ syncState w1 = syncing /\ isRemoteAction w1 = true /\
  calls w1 = calls w ++ (if has_pause p then [CallPause] else [])
                     ++ [CallSeek time] /\
  playerRef w1 = Some (mkHandle time (Some p)) /\
  timers w1 = timers w ++ [mkTimer (nextTimer w) 100 (CheckReady type time)] /\
  sent w1 = sent w /\ isPlaying w1 = isPlaying w.
Proof.
  intros Hb Hid Hl Hp Hi. apply id_eqb_neq in Hid.
  destruct h as [pos int]. open_world w. destruct p as [rs pr hp hpa].
  destruct hpa; engine_eval; rewrite deps_unchanged by reflexivity;
    world_norm; rewrite <- ?app_assoc; repeat split; reflexivity.
Qed.

(** One round of the readiness poll. *)
Lemma checkReady_round (v : World) (type : string) (time : Q) :
  (fst (isPlayerReady v) = false ->
   exec (checkReady type time) v =
     set_timers (timers v ++ [mkTimer (nextTimer v) 50 (CheckReady type time)])
                (S (nextTimer v)) v) /\
  (fst (isPlayerReady v) = true ->
   let v' := exec (checkReady type time) v in
   sent v' = (if channel v then sent v ++ [SyncAck time (myUserId v)]
              else sent v) /\
   timers v' = timers v /\ isPlaying v' = isPlaying v /\
   calls v' = calls v /\ pendingSync v' = pendingSync v /\
   (type <> "play" -> syncLock v' = false /\ syncState v' = paused) /\
   (type = "play" -> syncLock v' = syncLock v /\ syncState v' = waiting_ack)).
Proof.
  assert (Hw : snd (isPlayerReady v) = v).
  { unfold isPlayerReady, getInternalPlayer, bind, get, ret. cbn [fst snd].
    destruct (playerRef v) as [h|]; [| reflexivity].
    destruct (internal h) as [p|]; [| reflexivity].
    destruct (readyState p); reflexivity. }
  split; intros Hr.
  - unfold checkReady, bind, exec. cbn [fst snd]. rewrite Hr, Hw.
    reflexivity.
  - unfold checkReady, bind, exec. cbn [fst snd]. rewrite Hr, Hw.
    destruct (String.eqb type "play") eqn:Et.
    + apply String.eqb_eq in Et.
      destruct (channel v) eqn:Hc; engine_eval;
        repeat split; try reflexivity; congruence.
    + apply String.eqb_neq in Et.
      destruct (channel v) eqn:Hc; engine_eval;
        repeat split; try reflexivity; congruence.
Qed.

(** [executePlay], whatever the state it runs in. *)
Lemma executePlay_commits (v : World) :
  let v' := exec executePlay v in
  isPlaying v' = true /\ syncState v' = playing /\ syncLock v' = false /\
  pendingSync v' = None /\ sent v' = sent v /\ timers v' = timers v /\
  url v' = url v /\ isRemoteAction v' = isRemoteAction v /\
  playerRef v' = playerRef v.
Proof.
  unfold_engine. world_norm.
  destruct (match playerRef v with Some h => internal h | None => None end)
    as [p|]; [destruct (has_play p) |]; world_norm;
    repeat split; reflexivity.
Qed.

(** An acknowledgement from the peer while a target is pending: the
    initiator broadcasts go and commits play, whether the pending request
    was a play or a seek. *)
Lemma ack_commits_play (v : World) (pd : Pending) (time : Q)
    (responder : UserId) :
  bound v = true -> pendingSync v = Some pd -> responder <> myUserId v ->
  let v' := step (Receive (SyncAck time responder)) v in
  isPlaying v' = true /\ syncState v' = playing /\ syncLock v' = false /\
  pendingSync v' = None /\
  sent v' = sent v ++ [SyncGo (p_time pd)]
            ++ (if isPlaying v then [] else [StateRequest (myUserId v)]).
Proof.
  intros Hb Hp Hid. apply id_eqb_neq in Hid.
  pose proof (bound_channel v Hb) as Hc.
  open_world v.
  destruct playerRef0 as [[pos [[rs pr [|] hpa]|]]|];
    destruct isPlaying0; engine_eval;
    unfold deps_changed; world_norm;
    rewrite ?Bool.eqb_reflx, ?id_eqb_refl, ?String.eqb_refl; world_norm;
    cbn [Bool.eqb negb andb]; world_norm; repeat (engine_rew; world_norm);
    rewrite <- ?app_assoc; repeat split; reflexivity.
Qed.

(** A go commits play in every state of a bound peer: the handler has no
    guard. *)
Lemma go_commits_play (v : World) (time : Q) :
  bound v = true ->
  let v' := step (Receive (SyncGo time)) v in
  isPlaying v' = true /\ syncState v' = playing /\ syncLock v' = false /\
  pendingSync v' = None.
Proof.
  intros Hb. pose proof (bound_channel v Hb) as Hc.
  open_world v.
  destruct playerRef0 as [[pos [[rs pr [|] hpa]|]]|];
    destruct isPlaying0; engine_eval;
    unfold deps_changed; world_norm;
    rewrite ?Bool.eqb_reflx, ?id_eqb_refl, ?String.eqb_refl; world_norm;
    cbn [Bool.eqb negb andb]; world_norm; repeat (engine_rew; world_norm);
    repeat split; reflexivity.
Qed.

(** C2 (as amended). A peer that receives a sync request that is not a
    play request, with the lock free and a player present, takes the
    lock, marks the remote echo, pauses, seeks to the requested time and
    arms the readiness poll; a poll round that finds the player not ready
    only re-arms itself; the round that finds it ready sends the
    acknowledgement, sets the state to 'paused' and frees the lock at
    once, leaving [isPlaying] alone and arming nothing that waits for a
    go. The handshake does commit play, though: the initiator answers the
    acknowledgement by broadcasting go and committing play, and a peer
    that receives go commits play in whatever state it is. *)
Theorem seek_only_handshake (w : World) (type : string) (time : Q)
    (initiator : UserId) (h : Handle) (p : Internal) :
  bound w = true -> initiator <> myUserId w -> syncLock w = false ->
  type <> "play" -> playerRef w = Some h -> internal h = Some p ->
  let w1 := step (Receive (SyncRequest type time initiator)) w in
  (syncLock w1 = true /\ syncState w1 = syncing /\ isRemoteAction w1 = true /\
   calls w1 = calls w ++ (if has_pause p then [CallPause] else [])
                      ++ [CallSeek time] /\
   playerRef w1 = Some (mkHandle time (Some p)) /\
   timers w1 = timers w ++ [mkTimer (nextTimer w) 100 (CheckReady type time)] /\
   sent w1 = sent w /\ isPlaying w1 = isPlaying w) /\
  (forall v, fst (isPlayerReady v) = false ->
     exec (checkReady type time) v =
       set_timers
         (timers v ++ [mkTimer (nextTimer v) 50 (CheckReady type time)])
         (S (nextTimer v)) v) /\
  (forall v, fst (isPlayerReady v) = true ->
     let v' := exec (checkReady type time) v in
     sent v' = (if channel v then sent v ++ [SyncAck time (myUserId v)]
                else sent v) /\
     syncLock v' = false /\ syncState v' = paused /\
     timers v' = timers v /\ isPlaying v' = isPlaying v /\
     calls v' = calls v) /\
  (forall v pd t responder,
     bound v = true -> pendingSync v = Some pd -> responder <> myUserId v ->
     let v' := step (Receive (SyncAck t responder)) v in
     isPlaying v' = true /\ syncState v' = playing /\ syncLock v' = false /\
     pendingSync v' = None /\
     sent v' = sent v ++ [SyncGo (p_time pd)]
               ++ (if isPlaying v then [] else [StateRequest (myUserId v)])) /\
  (forall v t, bound v = true ->
     let v' := step (Receive (SyncGo t)) v in
     isPlaying v' = true /\ syncState v' = playing /\ syncLock v' = false).
Proof.
  intros Hb Hid Hl Ht Hp Hi w1.
  split; [exact (seek_request_responder w type time initiator h p
                   Hb Hid Hl Hp Hi) |].
  split; [intros v Hr; exact (proj1 (checkReady_round v type time) Hr) |].
  split.
  { intros v Hr.
    destruct (proj2 (checkReady_round v type time) Hr)
      as [Hs [Htm [Hpl [Hc [_ [Hseek _]]]]]].
    destruct (Hseek Ht) as [Hlk Hst]. repeat split; assumption. }
  split.
  { intros v pd t responder Hbv Hpd Hr.
    exact (ack_commits_play v pd t responder Hbv Hpd Hr). }
  intros v t Hbv.
  destruct (go_commits_play v t Hbv) as [H1 [H2 [H3 _]]].
  repeat split; assumption.
Qed.

Lemma seek_only_handshake_witness :
  let w := joined "bob" in
  let w1 := step (Receive (SyncRequest "seek" 42 (Some "alice"))) w in
  bound w = true /\ Some "alice" <> myUserId w /\ syncLock w = false /\
  "seek" <> "play" /\
  syncLock w1 = true /\ syncState w1 = syncing /\
  calls w1 = [CallPause; CallSeek 42].
Proof.
  assert (Hid : Some "alice" <> myUserId (joined "bob")) by discriminate.
  assert (Ht : "seek" <> "play") by discriminate.
  pose proof (seek_only_handshake (joined "bob") "seek" 42 (Some "alice")
                (video 0) _ eq_refl Hid eq_refl Ht eq_refl eq_refl)
    as [[H1 [H2 [_ [H4 _]]]] _].
  repeat split; try assumption; reflexivity.
Defined.

(** C2 (counterexample). Alice, paused at 0, seeks to 42: after the
    debounce she broadcasts a seek request. Bob pauses, seeks, and on the
    first poll acknowledges and rests in 'paused' with the lock free.
    Alice receives the acknowledgement: she broadcasts go and commits
    play. Bob receives go and commits play too. *)
Lemma seek_handshake_commits_play :
  sent alice_seeks = [StateRequest (Some "alice");
                      SyncRequest "seek" 42 (Some "alice")] /\
  isPlaying alice_seeks = false /\
  sent bob_answers = [StateRequest (Some "bob"); SyncAck 42 (Some "bob")] /\
  syncState bob_answers = paused /\ syncLock bob_answers = false /\
  isPlaying bob_answers = false /\
  let alice := step (Receive (SyncAck 42 (Some "bob"))) alice_seeks in
  let bob := step (Receive (SyncGo 42)) bob_answers in
  sent alice = [StateRequest (Some "alice");
                SyncRequest "seek" 42 (Some "alice");
                SyncGo 42; StateRequest (Some "alice")] /\
  isPlaying alice = true /\ syncState alice = playing /\
  calls alice = [CallPlay] /\
  isPlaying bob = true /\ syncState bob = playing /\
  calls bob = [CallPause; CallSeek 42; CallPlay].
Proof.
  vm_compute. repeat split; reflexivity.
Qed.

(* ------------------------------------------------------------------ *)
(** ** Duplicate and stale messages *)

(** C6 (as amended). Delivering a channel event a second time right after
    the first leaves React state, refs and player as the first delivery
    left them. The four events with an identity field are discarded when
    it is the local identity, and a state response when it is addressed
    to someone else. Of the state guards, an acknowledgement is dropped
    when no target is pending, and a sync request or a time check when
    the lock is held. A go has neither filter nor guard: on a bound peer
    it commits play in every state. *)
Theorem inbound_handlers_idempotent (w : World) (m : Msg) :
  core (step (Receive m) (step (Receive m) w)) = core (step (Receive m) w) /\
  (carries_identity (myUserId w) m = true -> step (Receive m) w = w) /\
  (forall u p t r target,
     m = StateResponse u p t r target -> target <> myUserId w ->
     step (Receive m) w = w) /\
  (forall t r, m = SyncAck t r -> pendingSync w = None ->
     step (Receive m) w = w) /\
  (forall type t i, m = SyncRequest type t i -> syncLock w = true ->
     step (Receive m) w = w) /\
  (forall t s, m = TimeCheck t s -> syncLock w = true ->
     step (Receive m) w = w) /\
  (forall t, m = SyncGo t -> bound w = true ->
     isPlaying (step (Receive m) w) = true /\
     syncState (step (Receive m) w) = playing /\
     syncLock (step (Receive m) w) = false).
Proof.
  split.
  { rewrite (step_core (Receive m) (step (Receive m) w)).
    rewrite (step_core (Receive m) w).
    cbn [handle].
    rewrite (receive_core_congr m (step (Receive m) w)
               (exec (receive m) w)).
    - apply receive_idem.
    - apply (step_core (Receive m) w).
    - apply (step_props (Receive m) w). }
  split.
  { intros Hid. apply step_dropped.
    destruct m; try discriminate Hid; cbn [carries_identity] in Hid;
      cbn [handle]; unfold_engine; engine_cases; reflexivity. }
  split.
  { intros u p t r target -> Ht. apply id_eqb_neq in Ht.
    apply step_dropped. cbn [handle]. unfold_engine; engine_cases;
      reflexivity. }
  split.
  { intros t r -> Hp. apply step_dropped. cbn [handle].
    unfold_engine; engine_cases; reflexivity. }
  split.
  { intros type t i -> Hl. apply step_dropped. cbn [handle].
    unfold_engine; engine_cases; reflexivity. }
  split.
  { intros t s -> Hl. apply time_check_gate. tauto. }
  intros t -> Hb. destruct (go_commits_play w t Hb) as [H1 [H2 [H3 _]]].
  repeat split; assumption.
Qed.

(** C6 (counterexample). A connected peer that is idle, unlocked and has
    no pending target receives a go: the message is not dropped, the peer
    starts to play. *)
Lemma stray_go_changes_state :
  let w := joined "bob" in
  let w' := step (Receive (SyncGo 5)) w in
  syncState w = idle /\ pendingSync w = None /\ syncLock w = false /\
  isPlaying w = false /\
  syncState w' = playing /\ isPlaying w' = true /\ calls w' = [CallPlay] /\
  core w' <> core w.
Proof.
  vm_compute. repeat split; try reflexivity. discriminate.
Qed.

(* ------------------------------------------------------------------ *)
(** ** URL change *)

(** C4 (as amended). A local URL change sets the URL, sets playing to
    false and the state to 'idle' and broadcasts url{newUrl} on the
    channel; receiving url does the same without publishing a url
    message. Neither makes a call on the player, and neither touches the
    sync lock, the pending target, the remote-echo flag or the armed
    timers. *)
Theorem url_change_resets_state (w : World) (u : string) :
  let w1 := step (ChangeUrl u) w in
  let w2 := exec (onUrl u) w in
  (url w1 = u /\ isPlaying w1 = false /\ syncState w1 = idle /\
   sent (exec (handleUrlChange u) w)
     = (if channel w then sent w ++ [UrlMsg u] else sent w) /\
   syncLock w1 = syncLock w /\ pendingSync w1 = pendingSync w /\
   isRemoteAction w1 = isRemoteAction w /\ calls w1 = calls w /\
   timers w1 = timers w) /\
  (url w2 = u /\ isPlaying w2 = false /\ syncState w2 = idle /\
   sent w2 = sent w /\
   syncLock w2 = syncLock w /\ pendingSync w2 = pendingSync w /\
   isRemoteAction w2 = isRemoteAction w /\ calls w2 = calls w /\
   timers w2 = timers w) /\
  core (step (Receive (UrlMsg u)) w) = core (if bound w then w2 else w) /\
  filter is_url_msg (sent (step (Receive (UrlMsg u)) w))
    = filter is_url_msg (sent w).
Proof.
  cbv zeta. split; [| split; [| split]].
  - step_to_handler (ChangeUrl u) w Hs. clear Hs.
    unfold_handlers. world_norm. destruct (channel w); world_norm;
      repeat split; reflexivity.
  - unfold_handlers. world_norm. repeat split; reflexivity.
  - rewrite step_core. unfold_handlers. world_norm.
    destruct (isConnected w && channel w); reflexivity.
  - step_to_handler (Receive (UrlMsg u)) w Hs.
    assert (Hh : sent (exec (handle (Receive (UrlMsg u))) w) = sent w).
    { unfold_handlers. world_norm.
      destruct (isConnected w && channel w); reflexivity. }
    destruct Hs as [Hs | Hs]; rewrite Hs, Hh; [reflexivity |].
    rewrite filter_app. cbn [filter is_url_msg]. apply app_nil_r.
Qed.

(** C4 (counterexample). Alice's play handshake is in flight (lock held,
    target pending) when she changes the URL: the state is reset to
    'idle' but the lock stays held and the target stays pending. *)
Lemma url_change_keeps_lock :
  let w := run [OnPlay; Expire 0] (joined "alice") in
  let w' := step (ChangeUrl "https://example.org/b.mp4") w in
  syncLock w = true /\ syncState w = requesting /\
  syncState w' = idle /\ isPlaying w' = false /\
  syncLock w' = true /\
  pendingSync w' = Some (mkPending 0 "alice").
Proof.
  vm_compute. repeat split; reflexivity.
Qed.

(* ------------------------------------------------------------------ *)
(** ** State bootstrap *)

Lemma adopted_url_nonempty (cur u : string) :
  u <> "" -> adopted_url cur u = u.
Proof.
  intros H. unfold adopted_url. apply String.eqb_neq in H. rewrite H.
  cbn [negb andb]. destruct (String.eqb u cur) eqn:E; [| reflexivity].
  apply String.eqb_eq in E. cbn [negb]. symmetry. exact E.
Qed.

(** The handler of a state response addressed to this peer; it reads
    neither the lock nor the state. *)
Lemma state_response_applied (w : World) (u : string) (p : bool) (time : Q)
    (responder : UserId) :
  bound w = true ->
  let w' := step (Receive (StateResponse u p time responder (myUserId w))) w in
  url w' = adopted_url (url w) u /\
  isPlaying w' = p /\
  syncState w' = (if p then playing else paused) /\
  syncLock w' = syncLock w /\ pendingSync w' = pendingSync w /\
  isRemoteAction w' = isRemoteAction w /\ timers w' = timers w /\
  ((0 < time)%Q ->
     forall h, playerRef w = Some h ->
       playerRef w' = Some (mkHandle time (internal h)) /\
       calls w' = calls w ++ [CallSeek time]) /\
  ((time <= 0)%Q -> playerRef w' = playerRef w /\ calls w' = calls w) /\
  (sent w' = sent w \/ sent w' = sent w ++ [StateRequest (myUserId w)]).
Proof.
  intros Hb. cbv zeta.
  set (m := StateResponse u p time responder (myUserId w)).
  step_to_handler (Receive m) w Hs.
  assert (Hsent : sent (exec (handle (Receive m)) w) = sent w
                  /\ myUserId (exec (handle (Receive m)) w) = myUserId w).
  { subst m. unfold_handlers. engine_cases; split; reflexivity. }
  destruct Hsent as [Hsent Hme]. rewrite Hsent, Hme in Hs. clear Hsent Hme.
  unfold adopted_url. subst m. revert Hs.
  generalize (sent (step
    (Receive (StateResponse u p time responder (myUserId w))) w)) as out.
  intros out Hs. unfold bound in Hb.
  destruct (Qgtb time 0) eqn:Hg.
  - apply Qgtb_spec in Hg as Hg'.
    unfold_handlers. engine_cases; repeat split; try reflexivity;
      try exact Hs; try congruence;
      try (intros; exfalso; lra).
  - apply Qgtb_false in Hg as Hg'.
    unfold_handlers. engine_cases; repeat split; try reflexivity;
      try exact Hs; try congruence;
      try (intros; exfalso; lra).
Qed.



(** The round trip on two concrete peers: Carol joins while Bob plays;
    her request is answered and the answer brings her to Bob's URL,
    playing flag and position, with her lock free and no target
    pending. *)
Example late_joiner_converges :
  let carol0 := step (Subscribed "carol") (initial None (Some (video 0))) in
  let bob := step (Receive (StateRequest (Some "carol"))) bob_watching in
  let carol := step (Receive (StateResponse "https://example.org/a.mp4" true
                                30 (Some "bob") (Some "carol"))) carol0 in
  sent carol0 = [StateRequest (Some "carol")] /\
  last (sent bob) (SyncGo 0)
    = StateResponse "https://example.org/a.mp4" true 30
        (Some "bob") (Some "carol") /\
  url carol = url bob_watching /\ isPlaying carol = isPlaying bob_watching /\
  fst (getCurrentTime carol) = fst (getCurrentTime bob_watching) /\
  syncState carol = playing /\ syncLock carol = false /\
  pendingSync carol = None /\ timers carol = [].
Proof. vm_compute. repeat split; reflexivity. Qed.

(** C10. The handler of a state response never reads the sync lock: on a
    bound peer whose lock is held and whose target is pending, whatever
    its state, a response addressed to it still sets the URL (to the
    reported one when that is non-empty), the playing flag and the state
    'playing' or 'paused', while the lock stays held and the target
    stays pending. *)
Theorem state_response_ignores_lock (w : World) (pd : Pending) (u : string)
    (p : bool) (time : Q) (responder : UserId) :
  bound w = true -> syncLock w = true -> pendingSync w = Some pd ->
  let w' := step (Receive (StateResponse u p time responder (myUserId w))) w in
  url w' = adopted_url (url w) u /\
  (u <> "" -> url w' = u) /\
  isPlaying w' = p /\
  syncState w' = (if p then playing else paused) /\
  syncLock w' = true /\ pendingSync w' = Some pd.
Proof.
  intros Hb Hl Hp. cbv zeta.
  destruct (state_response_applied w u p time responder Hb)
    as [H1 [H2 [H3 [H4 [H5 _]]]]].
  split; [exact H1 |]. split.
  { intros Hu. rewrite H1. apply adopted_url_nonempty. exact Hu. }
  split; [exact H2 |]. split; [exact H3 |].
  split; congruence.
Qed.

Lemma state_response_ignores_lock_witness :
  let w := alice_requesting in
  let w' := step (Receive (StateResponse "https://example.org/b.mp4" false 0
                             (Some "bob") (Some "alice"))) w in
  bound w = true /\ syncLock w = true /\ syncState w = requesting /\
  pendingSync w = Some (mkPending 0 "alice") /\
  url w' = "https://example.org/b.mp4" /\ isPlaying w' = false /\
  syncState w' = paused /\ syncLock w' = true.
Proof.
  assert (Hu : "https://example.org/b.mp4" <> "") by discriminate.
  pose proof (state_response_ignores_lock alice_requesting
                (mkPending 0 "alice") "https://example.org/b.mp4" false 0
                (Some "bob") eq_refl eq_refl eq_refl)
    as [_ [H2 [H3 [H4 [H5 _]]]]].
  split; [reflexivity |]. split; [reflexivity |]. split; [reflexivity |].
  split; [reflexivity |]. split; [exact (H2 Hu) |]. split; [exact H3 |].
  split; [exact H4 | exact H5].
Defined.

(* ------------------------------------------------------------------ *)
(** ** Lock discipline of the handshake *)

(** While the lock is held no event puts another target in the slot: the
    pending target stays, or is cleared by a commit. *)
Lemma locked_target_kept (e : Event) (v : World) :
  syncLock v = true ->
  pendingSync (step e v) = pendingSync v \/ pendingSync (step e v) = None.
Proof.
  intros Hl. step_to_handler e v Hs. clear Hs.
  destruct e as [me | m | id | | | t | u |].
  - left. reflexivity.
  - destruct m; unfold_handlers; engine_cases; auto.
  - unfold handle, expire, exec.
    destruct (find (fun t => Nat.eqb (tid t) id) (timers v)) as [t|];
      [| left; reflexivity].
    destruct (callback t); unfold_handlers; engine_cases; auto.
  - unfold_handlers; engine_cases; auto.
  - unfold_handlers; engine_cases; auto.
  - unfold_handlers; engine_cases; auto.
  - unfold_handlers; engine_cases; auto.
  - unfold_handlers; engine_cases; auto.
Qed.

(** The initiator's two steps, for a play and for a seek. *)
Lemma initiator_path (w : World) (captured : SyncState) (time : Q)
    (peer : UserId) :
  bound w = true -> syncLock w = false -> peer <> myUserId w ->
  (let w1 := exec (requestPlay captured) w in
   let w2 := step (Receive (SyncAck time peer)) w1 in
   syncLock w1 = true /\ syncState w1 = requesting /\
   pendingSync w1 =
     Some (mkPending (fst (getCurrentTime w)) (or_self (myUserId w))) /\
   syncLock w2 = false /\ syncState w2 = playing /\ pendingSync w2 = None) /\
  (isRemoteAction w = false ->
   let w1 := exec (requestSeek time) w in
   let w2 := step (Receive (SyncAck time peer)) w1 in
   syncLock w1 = true /\ syncState w1 = syncing /\
   pendingSync w1 = Some (mkPending time (or_self (myUserId w))) /\
   syncLock w2 = false /\ syncState w2 = playing /\ pendingSync w2 = None).
Proof.
  intros Hb Hl Hid. apply id_eqb_neq in Hid. unfold bound in Hb.
  split; [| intros Hr]; cbv zeta.
  - step_to_handler (Receive (SyncAck time peer))
      (exec (requestPlay captured) w) Hs. clear Hs.
    open_world w. unfold_handlers. engine_cases; repeat split; reflexivity.
  - step_to_handler (Receive (SyncAck time peer))
      (exec (requestSeek time) w) Hs. clear Hs.
    open_world w. unfold_handlers. engine_cases; repeat split; reflexivity.
Qed.

(** C9 (as amended). The pending target is one slot, and while the lock
    is held no event replaces the target in it. A handshake takes the
    lock when the request is issued (play or seek) or received, and its
    own steps keep it until the commit: the initiator holds it until the
    acknowledgement makes it commit play; the responder holds it through
    every poll round that finds the player not ready, through the round
    that acknowledges a play request, and frees it when go makes it
    commit play, or, for a request that is not a play request, in the
    round that acknowledges and rests in 'paused'. *)
Theorem handshake_lock_discipline (w : World) (captured : SyncState)
    (type : string) (time : Q) (peer : UserId) :
  bound w = true -> syncLock w = false -> peer <> myUserId w ->
  (forall e v, syncLock v = true ->
     pendingSync (step e v) = pendingSync v \/
     pendingSync (step e v) = None) /\
  (let w1 := exec (requestPlay captured) w in
   let w2 := step (Receive (SyncAck time peer)) w1 in
   syncLock w1 = true /\ syncState w1 = requesting /\
   pendingSync w1 =
     Some (mkPending (fst (getCurrentTime w)) (or_self (myUserId w))) /\
   syncLock w2 = false /\ syncState w2 = playing /\ pendingSync w2 = None) /\
  (isRemoteAction w = false ->
   let w1 := exec (requestSeek time) w in
   let w2 := step (Receive (SyncAck time peer)) w1 in
   syncLock w1 = true /\ syncState w1 = syncing /\
   pendingSync w1 = Some (mkPending time (or_self (myUserId w))) /\
   syncLock w2 = false /\ syncState w2 = playing /\ pendingSync w2 = None) /\
  (let w1 := step (Receive (SyncRequest type time peer)) w in
   syncLock w1 = true /\ syncState w1 = syncing /\
   pendingSync w1 = pendingSync w) /\
  (forall v, syncLock v = true ->
     let v' := exec (run_callback (CheckReady type time)) v in
     (fst (isPlayerReady v) = false ->
        syncLock v' = true /\ syncState v' = syncState v) /\
     (fst (isPlayerReady v) = true -> type = "play" ->
        syncLock v' = true /\ syncState v' = waiting_ack) /\
     (fst (isPlayerReady v) = true -> type <> "play" ->
        syncLock v' = false /\ syncState v' = paused)) /\
  (forall v t, bound v = true ->
     syncLock (step (Receive (SyncGo t)) v) = false /\
     syncState (step (Receive (SyncGo t)) v) = playing).
Proof.
  intros Hb Hl Hid.
  split; [intros e v Hv; exact (locked_target_kept e v Hv) |].
  destruct (initiator_path w captured time peer Hb Hl Hid) as [Hplay Hseek].
  split; [exact Hplay |]. split; [exact Hseek |].
  split.
  { cbv zeta. step_to_handler (Receive (SyncRequest type time peer)) w Hs.
    clear Hs. apply id_eqb_neq in Hid. unfold bound in Hb.
    unfold_handlers. engine_cases; repeat split; reflexivity. }
  split.
  { intros v Hv. cbv zeta. cbn [run_callback].
    destruct (checkReady_round v type time) as [Hnot Hready].
    split; [| split].
    - intros Hr. rewrite (Hnot Hr). world_norm. split; [exact Hv | reflexivity].
    - intros Hr Ht. destruct (Hready Hr) as [_ [_ [_ [_ [_ [_ Hp]]]]]].
      destruct (Hp Ht) as [H1 H2]. rewrite H1, H2. split; [exact Hv | reflexivity].
    - intros Hr Ht. destruct (Hready Hr) as [_ [_ [_ [_ [_ [Hs _]]]]]].
      exact (Hs Ht). }
  intros v t Hv. destruct (go_commits_play v t Hv) as [_ [H2 [H3 _]]].
  split; assumption.
Qed.

Lemma handshake_lock_discipline_witness :
  let w := joined "bob" in
  let w1 := step (Receive (SyncRequest "play" 5 (Some "alice"))) w in
  bound w = true /\ syncLock w = false /\ Some "alice" <> myUserId w /\
  syncLock w1 = true /\ syncState w1 = syncing /\
  pendingSync w1 = pendingSync w.
Proof.
  assert (Hid : Some "alice" <> myUserId (joined "bob")) by discriminate.
  pose proof (handshake_lock_discipline (joined "bob") idle "play" 5
                (Some "alice") eq_refl eq_refl Hid)
    as [_ [_ [_ [H _]]]].
  split; [reflexivity |]. split; [reflexivity |]. split; [exact Hid |].
  exact H.
Defined.

(** C9 (counterexample). With Bob's seek request issued and the lock
    held for it, the settle timer of the earlier correction expires: the
    lock is free while the state is still 'syncing' and the target still
    pending, no commit having happened. *)
Lemma settle_timer_frees_lock_in_handshake :
  let w := bob_seeks_after_correction in
  let w' := step (Expire 0) w in
  syncLock w = true /\ syncState w = syncing /\
  pendingSync w = Some (mkPending 20 "bob") /\
  last (sent w) (SyncGo 0) = SyncRequest "seek" 20 (Some "bob") /\
  syncLock w' = false /\ syncState w' = syncing /\
  pendingSync w' = Some (mkPending 20 "bob") /\ isPlaying w' = isPlaying w /\
  calls w' = calls w.
Proof. vm_compute. repeat split; reflexivity. Qed.

(* ------------------------------------------------------------------ *)
(** ** Voice payloads *)




(* ================================================================== *)
(** * Further properties of the engine *)

(** What a media event does once both guards are passed: the timer the
    debounce referred to is cleared and a new 200 ms timer is armed. *)
Lemma media_event_debounced (w : World) (e : Event) :
  is_media_event e = true ->
  isRemoteAction w = false -> syncLock w = false ->
  step e w =
    set_debounceTimer (Some (nextTimer w))
      (set_timers
         (without_debounce w
            ++ [mkTimer (nextTimer w) DEBOUNCE_MS
                  (debounce_callback (syncState w) e)])
         (S (nextTimer w)) w).
Proof.
  intros He Hr Hl.
  assert (Hh : exec (handle e) w =
    set_debounceTimer (Some (nextTimer w))
      (set_timers
         (without_debounce w
            ++ [mkTimer (nextTimer w) DEBOUNCE_MS
                  (debounce_callback (syncState w) e)])
         (S (nextTimer w)) w)).
  { unfold without_debounce.
    destruct e; try discriminate He; cbn [handle debounce_callback];
      unfold_handlers; world_norm; rewrite Hr, Hl; world_norm;
      destruct (debounceTimer w); reflexivity. }
  unfold step. rewrite Hh, deps_unchanged; reflexivity.
Qed.

(** X1. With the remote-echo flag clear and the lock held, a local play,
    pause or seek event is dropped: nothing at all changes. *)
Theorem locked_peer_drops_media_event (w : World) (e : Event) :
  is_media_event e = true ->
  isRemoteAction w = false -> syncLock w = true ->
  step e w = w.
Proof.
  intros He Hr Hl. apply step_dropped.
  destruct e; try discriminate He; cbn [handle];
    unfold_handlers; world_norm; rewrite Hr, Hl; reflexivity.
Qed.

Lemma locked_peer_drops_media_event_witness :
  is_media_event (OnSeek 12) = true /\
  isRemoteAction alice_requesting = false /\
  syncLock alice_requesting = true /\
  step (OnSeek 12) alice_requesting = alice_requesting.
Proof.
  split; [reflexivity |]. split; [reflexivity |]. split; [reflexivity |].
  exact (locked_peer_drops_media_event alice_requesting (OnSeek 12)
           eq_refl eq_refl eq_refl).
Defined.

Lemma filter_fresh_last (l : list Timer) (id : nat) (d : Z) (cb : Callback) :
  Forall (fun t => (tid t < id)%nat) l ->
  filter (fun t => negb (Nat.eqb (tid t) id)) (l ++ [mkTimer id d cb]) = l.
Proof.
  intros Hl. induction Hl as [| t l Hlt _ IH]; cbn [app filter tid].
  - rewrite Nat.eqb_refl. reflexivity.
  - destruct (Nat.eqb_spec (tid t) id) as [E | _]; [lia |].
    cbn [negb]. rewrite IH. reflexivity.
Qed.

Lemma without_debounce_fresh (w : World) :
  timers_fresh w ->
  Forall (fun t => (tid t < nextTimer w)%nat) (without_debounce w).
Proof.
  unfold timers_fresh, without_debounce. intros H.
  destruct (debounceTimer w); [apply fresh_filter |]; exact H.
Qed.

Lemma last_nonempty {A : Type} (l : list A) (b d d' : A) :
  last (b :: l) d = last (b :: l) d'.
Proof.
  revert b. induction l as [| c l IH]; intros b; [reflexivity |].
  change (last (c :: l) d = last (c :: l) d'). apply IH.
Qed.

Lemma last_cons_default {A : Type} (a d : A) (l : list A) :
  last (a :: l) d = last l a.
Proof.
  destruct l as [| b l]; [reflexivity |].
  change (last (b :: l) d = last (b :: l) a). apply last_nonempty.
Qed.

Lemma debounce_armed_step (base : list Timer) (e e' : Event) (w : World) :
  is_media_event e' = true -> debounce_armed base e w ->
  debounce_armed base e' (step e' w) /\
  nextTimer (step e' w) = S (nextTimer w) /\
  sent (step e' w) = sent w /\ core (step e' w) = core w /\
  calls (step e' w) = calls w.
Proof.
  intros He' (Hr & Hl & Hd & Hn & Hb & Ht).
  rewrite (media_event_debounced w e' He' Hr Hl).
  unfold without_debounce. rewrite Hd, Ht, (filter_fresh_last _ _ _ _ Hb).
  unfold debounce_armed. world_norm.
  repeat split; try assumption; try reflexivity; try lia.
  eapply fresh_weaken; [exact Hb | lia].
Qed.

Lemma debounce_armed_run (base : list Timer) (es : list Event) :
  forall (e : Event) (w : World),
  Forall (fun e' => is_media_event e' = true) es ->
  debounce_armed base e w ->
  debounce_armed base (last es e) (run es w) /\
  nextTimer (run es w) = (nextTimer w + length es)%nat /\
  sent (run es w) = sent w /\ core (run es w) = core w /\
  calls (run es w) = calls w.
Proof.
  induction es as [| e' es IH]; intros e w Hes Ha.
  - cbn [run last length]. rewrite Nat.add_0_r.
    split; [exact Ha |]. repeat split; reflexivity.
  - inversion Hes as [| ? ? He' Hes']; subst.
    destruct (debounce_armed_step base e e' w He' Ha)
      as (Ha' & Hn' & Hs' & Hc' & Hcl').
    destruct (IH e' (step e' w) Hes' Ha') as (Ha2 & Hn2 & Hs2 & Hc2 & Hcl2).
    cbn [run length].
    pose proof (last_cons_default e' e es) as Hlast.
    rewrite Hlast. split; [exact Ha2 |]. split; [lia |].
    split; [congruence |]. split; congruence.
Qed.

(** X2. A burst of local play, pause and seek events that pass the two
    guards leaves one debounce timer armed, the one of the last event:
    every earlier one has been cleared. Nothing is sent and no state
    changes until it expires. *)
Theorem debounce_keeps_last_event_only (w : World) (e : Event)
    (es : list Event) :
  timers_fresh w -> isRemoteAction w = false -> syncLock w = false ->
  Forall (fun e' => is_media_event e' = true) (e :: es) ->
  let w' := run (e :: es) w in
  timers w' = without_debounce w
              ++ [mkTimer (nextTimer w + length es) DEBOUNCE_MS
                    (debounce_callback (syncState w) (last es e))] /\
  debounceTimer w' = Some (nextTimer w + length es)%nat /\
  sent w' = sent w /\ core w' = core w /\ calls w' = calls w.
Proof.
  intros Hf Hr Hl Hes. inversion Hes as [| ? ? He Hes']; subst.
  cbv zeta. cbn [run].
  assert (Ha : debounce_armed (without_debounce w) e (step e w)).
  { rewrite (media_event_debounced w e He Hr Hl).
    unfold debounce_armed. world_norm.
    repeat split; try assumption; try reflexivity; try lia.
    apply without_debounce_fresh, Hf. }
  assert (H1 : nextTimer (step e w) = S (nextTimer w)
               /\ sent (step e w) = sent w /\ core (step e w) = core w
               /\ calls (step e w) = calls w
               /\ syncState (step e w) = syncState w).
  { rewrite (media_event_debounced w e He Hr Hl). repeat split. }
  destruct H1 as (Hn1 & Hs1 & Hc1 & Hcl1 & Hst1).
  destruct (debounce_armed_run (without_debounce w) es e (step e w) Hes' Ha)
    as ((_ & _ & Hd & _ & _ & Ht) & Hn & Hs & Hc & Hcl).
  assert (Hst : syncState (run es (step e w)) = syncState w).
  { unfold core in Hc, Hc1. congruence. }
  rewrite Hn, Hn1 in Hd, Ht. cbn [pred Nat.add] in Hd, Ht.
  rewrite Hst in Ht.
  split; [exact Ht |]. split; [exact Hd |].
  split; [congruence |]. split; congruence.
Qed.

Lemma debounce_keeps_last_event_only_witness :
  let w := joined "alice" in
  let w' := run [OnSeek 10; OnSeek 20; OnSeek 30] w in
  timers_fresh w /\ isRemoteAction w = false /\ syncLock w = false /\
  timers w' = [mkTimer 2 DEBOUNCE_MS (DebounceSeek 30)] /\
  sent w' = sent w /\
  sent (step (Expire 2) w')
    = sent w ++ [SyncRequest "seek" 30 (Some "alice")].
Proof.
  assert (Hf : timers_fresh (joined "alice")) by (vm_compute; constructor).
  assert (Hes : Forall (fun e' => is_media_event e' = true)
                  [OnSeek 10; OnSeek 20; OnSeek 30])
    by (repeat constructor).
  destruct (debounce_keeps_last_event_only (joined "alice") (OnSeek 10)
              [OnSeek 20; OnSeek 30] Hf eq_refl eq_refl Hes)
    as (Ht & _ & Hs & _).
  split; [exact Hf |]. split; [reflexivity |]. split; [reflexivity |].
  split; [exact Ht |]. split; [exact Hs |].
  vm_compute. reflexivity.
Defined.




(** X4. A held lock is freed only by a go, by an acknowledgement from
    another peer while a target is pending, or by an expiring timer (the
    settle timer, the poll that acknowledges a request that is not a
    play request, or an acknowledgement timeout whose closure captured a
    handshake state). No local event, no other message and no other
    timer frees it. *)
Theorem held_lock_freed_only_by_commit (w : World) (e : Event) :
  syncLock w = true -> syncLock (step e w) = false ->
  (exists t, e = Receive (SyncGo t)) \/
  (exists t r, e = Receive (SyncAck t r) /\ pendingSync w <> None /\
               r <> myUserId w) \/
  (exists id t, e = Expire id /\
     find (fun t => Nat.eqb (tid t) id) (timers w) = Some t /\
     (callback t = ReleaseLock \/
      (exists type time, callback t = CheckReady type time /\ type <> "play") \/
      (exists c, callback t = AckTimeout c /\
                 (c = requesting \/ c = waiting_ack)))).
Proof.
  intros Hl. destruct (step_fields e w) as (_ & _ & _ & E & _).
  cbv zeta in E. rewrite E. clear E.
  destruct e as [me | m | id | | | t | u |].
  - cbn [handle]. unfold_handlers. world_norm. congruence.
  - destruct m as [ty t i | t r | t | t | u | r | u p t r tg | t s].
    + unfold_handlers; engine_cases; congruence.
    + destruct (id_eqb r (myUserId w)) eqn:Hid.
      * unfold_handlers; engine_cases; congruence.
      * destruct (pendingSync w) eqn:Hp.
        -- intros _. right. left. exists t, r.
           split; [reflexivity |]. split; [congruence |].
           apply id_eqb_neq. exact Hid.
        -- unfold_handlers; engine_cases; congruence.
    + intros _. left. exists t. reflexivity.
    + unfold_handlers; engine_cases; congruence.
    + unfold_handlers; engine_cases; congruence.
    + unfold_handlers; engine_cases; congruence.
    + unfold_handlers; engine_cases; congruence.
    + unfold_handlers; engine_cases; congruence.
  - cbn [handle]. unfold expire, exec.
    destruct (find (fun t => Nat.eqb (tid t) id) (timers w)) as [t|] eqn:Hf;
      [| cbn [snd]; congruence].
    intros H. right. right. exists id, t.
    split; [reflexivity |]. split; [exact Hf |].
    destruct (callback t) as [c | ty tm | | | c | | tm] eqn:Hc.
    + right. right. exists c. split; [reflexivity |].
      destruct c; cbn in H; try congruence; auto.
    + right. left. exists ty, tm. split; [reflexivity |].
      intros ->. revert H. unfold_handlers. engine_cases; congruence.
    + left. reflexivity.
    + exfalso. revert H. unfold_handlers. engine_cases; congruence.
    + exfalso. revert H. unfold_handlers. engine_cases; congruence.
    + exfalso. revert H. unfold_handlers. engine_cases; congruence.
    + exfalso. revert H. unfold_handlers. engine_cases; congruence.
  - unfold_handlers; engine_cases; congruence.
  - unfold_handlers; engine_cases; congruence.
  - unfold_handlers; engine_cases; congruence.
  - unfold_handlers; engine_cases; congruence.
  - unfold_handlers; engine_cases; congruence.
Qed.

Lemma held_lock_freed_only_by_commit_witness :
  syncLock alice_requesting = true /\
  syncLock (step (Receive (SyncAck 0 (Some "bob"))) alice_requesting)
    = false /\
  pendingSync alice_requesting <> None.
Proof.
  split; [reflexivity |]. split; [reflexivity |].
  destruct (held_lock_freed_only_by_commit alice_requesting
              (Receive (SyncAck 0 (Some "bob"))) eq_refl eq_refl)
    as [[t H] | [(t & r & _ & H & _) | (id & t & H & _)]].
  - discriminate H.
  - exact H.
  - discriminate H.
Defined.

(** X5. Without a channel nothing is published: whatever the event
    (other than the subscription succeeding), the log of published
    messages stays as it is. *)
Theorem no_channel_no_publish (w : World) (e : Event) :
  channel w = false -> (forall me, e <> Subscribed me) ->
  sent (step e w) = sent w.
Proof.
  intros Hc Hne.
  assert (Hh : sent (exec (handle e) w) = sent w
               /\ channel (exec (handle e) w) = false).
  { destruct e as [me | m | id | | | t | u |].
    - exfalso. apply (Hne me). reflexivity.
    - unfold_handlers. world_norm. rewrite Hc, andb_false_r. world_norm.
      split; [reflexivity | exact Hc].
    - cbn [handle]. unfold expire, exec.
      destruct (find (fun t => Nat.eqb (tid t) id) (timers w)) as [t|];
        [| split; [reflexivity | exact Hc]].
      destruct (callback t); unfold_handlers; engine_cases;
        split; solve [reflexivity | assumption].
    - unfold_handlers; engine_cases; split; solve [reflexivity | assumption].
    - unfold_handlers; engine_cases; split; solve [reflexivity | assumption].
    - unfold_handlers; engine_cases; split; solve [reflexivity | assumption].
    - unfold_handlers; engine_cases; split; solve [reflexivity | assumption].
    - unfold_handlers; engine_cases; split; solve [reflexivity | assumption]. }
  destruct Hh as [Hs Hch]. unfold step. revert Hs Hch.
  generalize (exec (handle e) w) as v. intros v Hs Hch.
  destruct (deps_changed w v); [| exact Hs].
  unfold syncEffect, bound, bind, get, when, exec. cbn [fst snd].
  rewrite Hch, andb_false_r. exact Hs.
Qed.

Lemma no_channel_no_publish_witness :
  let w := initial None (Some (video 0)) in
  channel w = false /\
  sent (run [OnPlay; Expire 0] w) = [] /\
  syncLock (run [OnPlay; Expire 0] w) = true.
Proof.
  split; [reflexivity |]. split; [| reflexivity].
  assert (Hne : forall e, e = OnPlay \/ e = Expire 0 ->
                forall me, e <> Subscribed me)
    by (intros e [-> | ->] me; discriminate).
  cbn [run].
  rewrite (no_channel_no_publish _ (Expire 0)); [| reflexivity | auto].
  exact (no_channel_no_publish (initial None (Some (video 0))) OnPlay
           eq_refl (Hne OnPlay (or_introl eq_refl))).
Defined.

(** One time check within 0.3 s of the local position changes nothing,
    whatever the state of the peer and whoever sent it. *)
Lemma micro_at_rest_step (w : World) (time : Q) (sender : UserId) :
  (Qabs (time - localTime w) <= MICRO_DRIFT_THRESHOLD)%Q ->
  step (Receive (TimeCheck time sender)) w = w.
Proof.
  intros Hs.
  destruct (bound w) eqn:Hb; [| apply time_check_gate; tauto].
  destruct (SyncState_eqb (syncState w) playing) eqn:Hp.
  - apply SyncState_eqb_eq in Hp.
    destruct (syncLock w) eqn:Hl; [apply time_check_gate; tauto |].
    destruct (id_eqb sender (myUserId w)) eqn:Hid.
    + apply id_eqb_eq in Hid. apply time_check_gate; tauto.
    + apply id_eqb_neq in Hid.
      exact (proj1 (time_check_bands w time sender Hb Hid Hp Hl) Hs).
  - apply time_check_gate. right. left. intros Heq.
    rewrite Heq in Hp. discriminate.
Qed.

(** X6. Drift correction is idle at rest: a sequence of time checks, each
    within 0.3 s of the local position, leaves the peer exactly as it
    was, whatever its state and whoever sent them. *)
Theorem micro_drift_at_rest (w : World) (samples : list (Q * UserId)) :
  Forall (fun s => (Qabs (fst s - localTime w) <= MICRO_DRIFT_THRESHOLD)%Q)
         samples ->
  run (time_checks samples) w = w.
Proof.
  intros H. induction H as [| [time sender] samples Hs _ IH];
    [reflexivity |].
  cbn [time_checks map run fst snd] in *.
  rewrite (micro_at_rest_step w time sender Hs). exact IH.
Qed.

Lemma micro_drift_at_rest_witness :
  let w := playing_peer "bob" in
  let samples := [(3 # 10, Some "alice"); (-(1 # 4), Some "alice");
                  (0, Some "carol")] in
  Forall (fun s => (Qabs (fst s - localTime w) <= MICRO_DRIFT_THRESHOLD)%Q)
         samples /\
  run (time_checks samples) w = w.
Proof.
  assert (H : Forall (fun s => (Qabs (fst s - localTime (playing_peer "bob"))
                                <= MICRO_DRIFT_THRESHOLD)%Q)
                [(3 # 10, Some "alice"); (-(1 # 4), Some "alice");
                 (0, Some "carol")])
    by (repeat constructor; vm_compute; discriminate).
  split; [exact H |].
  exact (micro_drift_at_rest (playing_peer "bob") _ H).
Defined.

(** X7. The periodic tick publishes the local position, and only while
    the peer is bound, playing and unlocked; it changes nothing else. A
    peer whose own position is within 0.3 s of the published one is left
    as it was by that message. *)
Theorem drift_tick_publishes_position (a b : World) :
  (Qabs (localTime a - localTime b) <= MICRO_DRIFT_THRESHOLD)%Q ->
  let a' := step Interval a in
  core a' = core a /\ timers a' = timers a /\ calls a' = calls a /\
  sent a' =
    (if bound a && SyncState_eqb (syncState a) playing && negb (syncLock a)
     then sent a ++ [TimeCheck (localTime a) (myUserId a)]
     else sent a) /\
  step (Receive (TimeCheck (localTime a) (myUserId a))) b = b.
Proof.
  intros Hd. cbv zeta. split; [| split; [| split; [| split]]].
  - rewrite step_core. unfold_handlers. engine_cases; reflexivity.
  - step_to_handler Interval a Hs. clear Hs.
    unfold_handlers. engine_cases; reflexivity.
  - step_to_handler Interval a Hs. clear Hs.
    unfold_handlers. engine_cases; reflexivity.
  - assert (Hh : exec (handle Interval) a =
               if bound a && SyncState_eqb (syncState a) playing
                  && negb (syncLock a)
               then set_sent (sent a ++ [TimeCheck (localTime a) (myUserId a)])
                             a
               else a).
    { unfold localTime. unfold_handlers. world_norm.
      destruct (isConnected a) eqn:Hc, (channel a) eqn:Hch; world_norm;
        try reflexivity.
      destruct (SyncState_eqb (syncState a) playing); world_norm;
        [| reflexivity].
      destruct (syncLock a); world_norm; [reflexivity |].
      rewrite Hch. reflexivity. }
    unfold step. rewrite Hh.
    destruct (bound a && SyncState_eqb (syncState a) playing
              && negb (syncLock a));
      rewrite deps_unchanged; reflexivity.
  - apply (micro_at_rest_step b (localTime a) (myUserId a)). exact Hd.
Qed.

Lemma drift_tick_publishes_position_witness :
  let a := playing_peer "alice" in
  let b := playing_peer "bob" in
  (Qabs (localTime a - localTime b) <= MICRO_DRIFT_THRESHOLD)%Q /\
  core (step Interval a) = core a /\
  step (Receive (TimeCheck (localTime a) (myUserId a))) b = b.
Proof.
  assert (Hd : (Qabs (localTime (playing_peer "alice")
                      - localTime (playing_peer "bob"))
                <= MICRO_DRIFT_THRESHOLD)%Q)
    by (vm_compute; discriminate).
  destruct (drift_tick_publishes_position (playing_peer "alice")
              (playing_peer "bob") Hd) as (Hc & _ & _ & _ & Hb).
  split; [exact Hd |]. split; [exact Hc | exact Hb].
Defined.

Lemma isPlayerReady_internal (v : World) (h : Handle) (p : Internal) :
  playerRef v = Some h -> internal h = Some p ->
  fst (isPlayerReady v) = internal_ready p.
Proof.
  intros Hp Hi. unfold isPlayerReady, getInternalPlayer, bind, get, ret,
    internal_ready. cbn [fst snd]. rewrite Hp, Hi.
  destruct (readyState p); reflexivity.
Qed.

(** Readiness is read off the player alone. *)
Lemma isPlayerReady_same_player (v w : World) :
  playerRef v = playerRef w ->
  fst (isPlayerReady v) = fst (isPlayerReady w).
Proof.
  intros H. unfold isPlayerReady, getInternalPlayer, bind, get, ret.
  cbn [fst snd]. rewrite H.
  destruct (playerRef w) as [h|]; [| reflexivity].
  destruct (internal h) as [p|]; [| reflexivity].
  destruct (readyState p); reflexivity.
Qed.

(** One poll round that finds the player not ready. *)
Lemma poll_round_not_ready (w : World) (base : list Timer) (n : nat) (d : Z)
    (type : string) (time : Q) :
  timers w = base ++ [mkTimer n d (CheckReady type time)] ->
  nextTimer w = S n -> Forall (fun t => (tid t < n)%nat) base ->
  fst (isPlayerReady w) = false ->
  step (Expire n) w =
    set_timers (base ++ [mkTimer (S n) 50 (CheckReady type time)])
               (S (S n)) w.
Proof.
  intros Ht Hn Hb Hr.
  assert (Hh : exec (handle (Expire n)) w =
    set_timers (base ++ [mkTimer (S n) 50 (CheckReady type time)])
               (S (S n)) w).
  { rewrite (expire_armed w base n d (CheckReady type time) Ht Hb).
    cbn [run_callback].
    assert (Hr' : fst (isPlayerReady (set_timers base (nextTimer w) w))
                  = false)
      by (rewrite <- Hr; apply isPlayerReady_same_player; reflexivity).
    rewrite (proj1 (checkReady_round _ type time) Hr').
    world_norm. rewrite Hn. reflexivity. }
  unfold step. rewrite Hh, deps_unchanged; reflexivity.
Qed.

(** X8. The readiness poll has no bound: as long as the player is not
    ready, every round re-arms a 50 ms timer and nothing else happens,
    so after any number of rounds no acknowledgement has been sent, the
    lock and the state are as they were and one poll timer is armed. *)
Theorem readiness_poll_never_gives_up (k : nat) :
  forall (w : World) (base : list Timer) (n : nat) (d : Z)
         (type : string) (time : Q),
  timers w = base ++ [mkTimer n d (CheckReady type time)] ->
  nextTimer w = S n -> Forall (fun t => (tid t < n)%nat) base ->
  fst (isPlayerReady w) = false ->
  let w' := expire_last k w in
  core w' = core w /\ sent w' = sent w /\ calls w' = calls w /\
  nextTimer w' = S (n + k) /\
  timers w' = base ++ [mkTimer (n + k) (if Nat.eqb k 0 then d else 50)
                         (CheckReady type time)].
Proof.
  induction k as [| k IH]; intros w base n d type time Ht Hn Hb Hr.
  - cbn [expire_last Nat.eqb]. rewrite Nat.add_0_r.
    repeat split; assumption.
  - cbn [expire_last Nat.eqb]. rewrite Hn. cbn [pred].
    rewrite (poll_round_not_ready w base n d type time Ht Hn Hb Hr).
    set (w1 := set_timers (base ++ [mkTimer (S n) 50 (CheckReady type time)])
                          (S (S n)) w).
    assert (Hb1 : Forall (fun t => (tid t < S n)%nat) base)
      by (eapply fresh_weaken; [exact Hb | lia]).
    assert (Hr1 : fst (isPlayerReady w1) = false)
      by (rewrite <- Hr; apply isPlayerReady_same_player; reflexivity).
    destruct (IH w1 base (S n) 50%Z type time eq_refl eq_refl Hb1 Hr1)
      as (Hc & Hs & Hcl & Hnx & Htm).
    replace (n + S k)%nat with (S n + k)%nat by lia.
    split; [exact Hc |]. split; [exact Hs |]. split; [exact Hcl |].
    split; [exact Hnx |].
    rewrite Htm. destruct k; reflexivity.
Qed.

Lemma core_fields (a b : World) :
  core a = core b ->
  syncState a = syncState b /\ url a = url b /\ isPlaying a = isPlaying b /\
  syncLock a = syncLock b /\ isRemoteAction a = isRemoteAction b /\
  pendingSync a = pendingSync b /\ playerRef a = playerRef b.
Proof.
  unfold core. intros H. injection H. intros. repeat split; assumption.
Qed.

Lemma readiness_poll_never_gives_up_witness :
  timers bob_buffering = [] ++ [mkTimer 0 100 (CheckReady "play" 5)] /\
  nextTimer bob_buffering = 1%nat /\
  fst (isPlayerReady bob_buffering) = false /\
  sent (expire_last 3 bob_buffering) = sent bob_buffering /\
  syncLock (expire_last 3 bob_buffering) = true /\
  timers (expire_last 3 bob_buffering) = [mkTimer 3 50 (CheckReady "play" 5)].
Proof.
  destruct (readiness_poll_never_gives_up 3 bob_buffering [] 0 100 "play" 5
              eq_refl eq_refl (Forall_nil _) eq_refl)
    as (Hc & Hs & _ & _ & Ht).
  split; [reflexivity |]. split; [reflexivity |]. split; [reflexivity |].
  split; [exact Hs |]. split; [| exact Ht].
  destruct (core_fields _ _ Hc) as (_ & _ & _ & Hl & _). rewrite Hl.
  reflexivity.
Defined.

(** Only the subscription changes the properties of the hook. *)
Lemma handle_props (e : Event) (w : World) :
  (forall me, e <> Subscribed me) ->
  props (exec (handle e) w) = props w.
Proof.
  intros Hne. unfold props.
  destruct e as [me | m | id | | | t | u |].
  - exfalso. apply (Hne me). reflexivity.
  - apply receive_props.
  - cbn [handle]. unfold expire, exec.
    destruct (find (fun t => Nat.eqb (tid t) id) (timers w)) as [t|];
      [| reflexivity].
    destruct (callback t); unfold_handlers; engine_cases; reflexivity.
  - unfold_handlers; engine_cases; reflexivity.
  - unfold_handlers; engine_cases; reflexivity.
  - unfold_handlers; engine_cases; reflexivity.
  - unfold_handlers; engine_cases; reflexivity.
  - unfold_handlers; engine_cases; reflexivity.
Qed.

Lemma step_keeps_props (e : Event) (w : World) :
  (forall me, e <> Subscribed me) ->
  myUserId (step e w) = myUserId w /\ bound (step e w) = bound w.
Proof.
  intros Hne. pose proof (step_props e w) as H.
  rewrite (handle_props e w Hne) in H. unfold props in H.
  injection H. intros Hch Hc Hme. unfold bound.
  rewrite Hch, Hc. split; [exact Hme | reflexivity].
Qed.

Lemma checkReady_player (v : World) (type : string) (time : Q) :
  playerRef (exec (checkReady type time) v) = playerRef v.
Proof. unfold_handlers. engine_cases; reflexivity. Qed.

(** X9. The play handshake between two peers. Alice's request reaches
    Bob, whose lock is free and whose player is ready when polled: Bob
    pauses, seeks to Alice's time, acknowledges and waits with the lock
    held; Alice answers the acknowledgement with go and commits play;
    go makes Bob commit play. Both end 'playing' with the lock free, Bob
    at the position Alice requested from. *)
Theorem play_handshake_converges (a b : World) (c : SyncState) (h : Handle)
    (p : Internal) :
  bound a = true -> bound b = true ->
  syncLock a = false -> syncLock b = false ->
  myUserId a <> myUserId b -> timers_fresh b ->
  playerRef b = Some h -> internal h = Some p -> internal_ready p = true ->
  let t := localTime a in
  let a1 := exec (run_callback (DebouncePlay c)) a in
  let b1 := step (Receive (SyncRequest "play" t (myUserId a))) b in
  let b2 := step (Expire (nextTimer b)) b1 in
  let a2 := step (Receive (SyncAck t (myUserId b))) a1 in
  let b3 := step (Receive (SyncGo t)) b2 in
  sent a1 = sent a ++ [SyncRequest "play" t (myUserId a)] /\
  syncLock a1 = true /\ syncState a1 = requesting /\
  sent b2 = sent b ++ [SyncAck t (myUserId b)] /\
  syncLock b2 = true /\ syncState b2 = waiting_ack /\
  isPlaying b2 = isPlaying b /\
  In (SyncGo t) (sent a2) /\
  isPlaying a2 = true /\ syncState a2 = playing /\ syncLock a2 = false /\
  pendingSync a2 = None /\
  isPlaying b3 = true /\ syncState b3 = playing /\ syncLock b3 = false /\
  localTime b3 = t.
Proof.
  intros Ha Hb Hla Hlb Hid Hf Hp Hi Hr. cbv zeta.
  pose proof (bound_channel a Ha) as Hca.
  pose proof (bound_channel b Hb) as Hcb.
  (* Alice requests *)
  cbn [run_callback].
  destruct (requestPlay_unlocked c a Hla)
    as (Hl1 & Hs1 & _ & _ & Hp1 & Hsent1 & _).
  rewrite Hca in Hsent1. fold (localTime a) in Hp1, Hsent1.
  set (a1 := exec (requestPlay c) a) in *.
  assert (Hprops1 : bound a1 = true /\ myUserId a1 = myUserId a).
  { subst a1. unfold bound in *. unfold_handlers. world_norm.
    rewrite Hla. world_norm. rewrite Hca. world_norm.
    split; [exact Ha | reflexivity]. }
  destruct Hprops1 as [Hba1 Hme1].
  (* Bob receives the request *)
  destruct (seek_request_responder b "play" (localTime a) (myUserId a) h p
              Hb Hid Hlb Hp Hi)
    as (Hlb1 & Hsb1 & _ & _ & Hpb1 & Htb1 & Hsentb1 & Hplb1).
  set (b1 := step (Receive (SyncRequest "play" (localTime a) (myUserId a))) b)
    in *.
  assert (Hpropsb1 : props b1 = props b).
  { subst b1. rewrite step_props. apply receive_props. }
  unfold props in Hpropsb1. injection Hpropsb1 as Hmeb1 Hcb1 Hchb1.
  (* Bob's first poll *)
  assert (Eb2 : exec (handle (Expire (nextTimer b))) b1
                = exec (checkReady "play" (localTime a))
                    (set_timers (timers b) (nextTimer b1) b1)).
  { exact (expire_armed b1 (timers b) (nextTimer b) 100
             (CheckReady "play" (localTime a)) Htb1 Hf). }
  assert (Hrb : fst (isPlayerReady (set_timers (timers b) (nextTimer b1) b1))
                = true).
  { rewrite <- Hr.
    apply (isPlayerReady_internal _ (mkHandle (localTime a) (Some p)) p);
      [exact Hpb1 | reflexivity]. }
  destruct (proj2 (checkReady_round _ "play" (localTime a)) Hrb)
    as (Hsentb2 & _ & Hplb2 & _ & _ & _ & Hplay).
  destruct (Hplay eq_refl) as [Hlb2 Hsb2].
  world_norm. rewrite Hchb1, Hcb, Hsentb1, Hmeb1 in Hsentb2.
  rewrite Hlb1 in Hlb2. rewrite Hplb1 in Hplb2.
  destruct (step_fields (Expire (nextTimer b)) b1)
    as (Es & _ & Ep & El & _ & _ & Epl & _ & _ & Eme & Esent).
  rewrite Eb2 in Es, Ep, El, Epl, Eme, Esent.
  assert (Hdeps : step (Expire (nextTimer b)) b1
                  = exec (handle (Expire (nextTimer b))) b1).
  { unfold step. rewrite deps_unchanged; try reflexivity; rewrite Eb2.
    - unfold_handlers. engine_cases; reflexivity.
    - unfold_handlers. engine_cases; reflexivity.
    - unfold_handlers. engine_cases; reflexivity.
    - unfold_handlers. engine_cases; reflexivity.
    - rewrite Hplb2. symmetry. exact Hplb1. }
  set (b2 := step (Expire (nextTimer b)) b1) in *.
  assert (Hbb2 : bound b2 = true /\ playerRef b2
                 = Some (mkHandle (localTime a) (Some p))).
  { subst b2. split.
    - rewrite (proj2 (step_keeps_props (Expire (nextTimer b)) b1
                        ltac:(discriminate))).
      subst b1.
      rewrite (proj2 (step_keeps_props
                        (Receive (SyncRequest "play" (localTime a)
                                    (myUserId a))) b ltac:(discriminate))).
      exact Hb.
    - rewrite Epl, checkReady_player. exact Hpb1. }
  destruct Hbb2 as [Hbb2 Hpb2].
  (* Alice receives the acknowledgement *)
  assert (Hid' : myUserId b <> myUserId a1) by congruence.
  destruct (ack_commits_play a1 _ (localTime a) (myUserId b) Hba1 Hp1 Hid')
    as (Hpa2 & Hsa2 & Hla2 & Hpda2 & Hsenta2).
  cbn [p_time] in Hsenta2.
  (* Bob receives go *)
  destruct (go_commits_play b2 (localTime a) Hbb2) as (Hpb3 & Hsb3 & Hlb3 & _).
  assert (Hposb3 : localTime (step (Receive (SyncGo (localTime a))) b2)
                   = localTime a).
  { unfold localTime at 1, getCurrentTime, get. cbn [fst].
    destruct (step_fields (Receive (SyncGo (localTime a))) b2)
      as (_ & _ & _ & _ & _ & _ & E & _).
    rewrite E.
    assert (E2 : playerRef (exec (handle (Receive (SyncGo (localTime a)))) b2)
                 = playerRef b2).
    { unfold bound in Hbb2. unfold_handlers. engine_cases; reflexivity. }
    rewrite E2, Hpb2. reflexivity. }
  split; [exact Hsent1 |]. split; [exact Hl1 |]. split; [exact Hs1 |].
  split.
  { destruct Esent as [Esent | Esent]; [rewrite Esent; exact Hsentb2 |].
    exfalso. subst b2. rewrite Hdeps, Eb2, Hsentb2 in Esent.
    apply (f_equal (@length Msg)) in Esent. rewrite !length_app in Esent.
    cbn [length] in Esent. lia. }
  split; [rewrite El; exact Hlb2 |]. split; [rewrite Es; exact Hsb2 |].
  split; [rewrite Ep; exact Hplb2 |].
  split.
  { rewrite Hsenta2. apply in_or_app. right. left. reflexivity. }
  split; [exact Hpa2 |]. split; [exact Hsa2 |]. split; [exact Hla2 |].
  split; [exact Hpda2 |]. split; [exact Hpb3 |]. split; [exact Hsb3 |].
  split; [exact Hlb3 | exact Hposb3].
Qed.

Lemma play_handshake_converges_witness :
  let a := joined "alice" in
  let b := joined "bob" in
  bound a = true /\ bound b = true /\ syncLock a = false /\
  syncLock b = false /\ myUserId a <> myUserId b /\ timers_fresh b /\
  internal_ready (mkInternal (Some 4%Z) (Some 1%Q) true true) = true /\
  isPlaying (step (Receive (SyncAck 0 (Some "bob")))
               (exec (run_callback (DebouncePlay idle)) a)) = true /\
  isPlaying (run [Receive (SyncRequest "play" 0 (Some "alice"));
                  Expire 0; Receive (SyncGo 0)] b) = true.
Proof.
  assert (Hid : myUserId (joined "alice") <> myUserId (joined "bob"))
    by discriminate.
  assert (Hf : timers_fresh (joined "bob")) by (vm_compute; constructor).
  pose proof (play_handshake_converges (joined "alice") (joined "bob") idle
                (video 0) _ eq_refl eq_refl eq_refl eq_refl Hid Hf
                eq_refl eq_refl eq_refl) as H.
  cbv zeta in H.
  destruct H as (_ & _ & _ & _ & _ & _ & _ & _ & Ha & _ & _ & _ & Hb & _).
  split; [reflexivity |]. split; [reflexivity |]. split; [reflexivity |].
  split; [reflexivity |]. split; [exact Hid |]. split; [exact Hf |].
  split; [reflexivity |]. split; [exact Ha | exact Hb].
Defined.

(** X10. A play committed on go is not marked as a remote echo: the flag
    is as it was and the lock is free. If the flag was clear and the
    player then reports a play event, the event passes both guards and,
    once the debounce expires, the peer broadcasts a play request of its
    own and takes the lock. *)
Theorem committed_play_is_requested_again (w : World) (t : Q) :
  bound w = true -> isRemoteAction w = false -> timers_fresh w ->
  let w1 := step (Receive (SyncGo t)) w in
  let w2 := step OnPlay w1 in
  let w3 := step (Expire (nextTimer w1)) w2 in
  isRemoteAction w1 = false /\ syncLock w1 = false /\ isPlaying w1 = true /\
  sent w2 = sent w1 /\
  sent w3 = sent w1 ++ [SyncRequest "play" (localTime w) (myUserId w)] /\
  syncLock w3 = true /\ syncState w3 = requesting.
Proof.
  intros Hb Hr Hf. cbv zeta.
  set (w1 := step (Receive (SyncGo t)) w).
  destruct (go_commits_play w t Hb) as (Hp1 & Hs1 & Hl1 & _).
  fold w1 in Hp1, Hs1, Hl1.
  assert (Hf1 : timers_fresh w1) by (apply step_fresh, Hf).
  assert (Hkeep : isRemoteAction w1 = false /\ localTime w1 = localTime w).
  { subst w1. unfold localTime, getCurrentTime, get. cbn [fst].
    destruct (step_fields (Receive (SyncGo t)) w)
      as (_ & _ & _ & _ & Er & _ & Epl & _).
    rewrite Er, Epl. unfold bound in Hb.
    unfold_handlers. engine_cases; split; reflexivity. }
  destruct Hkeep as [Hr1 Hpos1].
  destruct (step_keeps_props (Receive (SyncGo t)) w ltac:(discriminate))
    as [Hme1 Hbd1]. fold w1 in Hme1, Hbd1. rewrite Hb in Hbd1.
  pose proof (bound_channel w1 Hbd1) as Hc1.
  pose proof (media_event_debounced w1 OnPlay eq_refl Hr1 Hl1) as E2.
  cbn [debounce_callback] in E2.
  set (w2 := step OnPlay w1) in *.
  assert (Ht2 : timers w2 = without_debounce w1
                  ++ [mkTimer (nextTimer w1) DEBOUNCE_MS
                        (DebouncePlay (syncState w1))])
    by (rewrite E2; reflexivity).
  pose proof (expire_armed w2 _ _ _ _ Ht2 (without_debounce_fresh w1 Hf1))
    as E3.
  cbn [run_callback] in E3.
  set (v := set_timers (without_debounce w1) (nextTimer w2) w2) in *.
  assert (Hlv : syncLock v = false) by (subst v; rewrite E2; exact Hl1).
  destruct (requestPlay_unlocked (syncState w1) v Hlv)
    as (Hl3 & Hs3 & Hp3 & _ & _ & Hsent3 & _).
  assert (Hv : channel v = true /\ sent v = sent w1
               /\ fst (getCurrentTime v) = localTime w
               /\ myUserId v = myUserId w /\ isPlaying v = isPlaying w2).
  { subst v. rewrite E2. world_norm. rewrite Hc1, <- Hpos1, Hme1.
    repeat split; reflexivity. }
  destruct Hv as (Hcv & Hsv & Hposv & Hmev & Hpv).
  rewrite Hcv, Hsv, Hposv, Hmev in Hsent3.
  assert (Hstep3 : step (Expire (nextTimer w1)) w2
                   = exec (requestPlay (syncState w1)) v).
  { unfold step. rewrite E3. rewrite deps_unchanged; try reflexivity.
    - subst v. unfold_handlers. engine_cases; reflexivity.
    - subst v. unfold_handlers. engine_cases; reflexivity.
    - subst v. unfold_handlers. engine_cases; reflexivity.
    - subst v. unfold_handlers. engine_cases; reflexivity.
    - rewrite Hp3. exact Hpv. }
  rewrite Hstep3.
  split; [exact Hr1 |]. split; [exact Hl1 |]. split; [exact Hp1 |].
  split; [rewrite E2; reflexivity |].
  split; [exact Hsent3 |]. split; [exact Hl3 | exact Hs3].
Qed.

Lemma committed_play_is_requested_again_witness :
  let w := joined "bob" in
  bound w = true /\ isRemoteAction w = false /\ timers_fresh w /\
  sent (run [Receive (SyncGo 7); OnPlay; Expire 0] w)
  = sent (step (Receive (SyncGo 7)) w)
    ++ [SyncRequest "play" 0 (Some "bob")].
Proof.
  assert (Hf : timers_fresh (joined "bob")) by (vm_compute; constructor).
  destruct (committed_play_is_requested_again (joined "bob") 7
              eq_refl eq_refl Hf) as (_ & _ & _ & _ & H & _).
  split; [reflexivity |]. split; [reflexivity |]. split; [exact Hf |].
  exact H.
Defined.

(* ================================================================== *)
(** * Properties of the video component and of the recording countdown *)





(** The two states of the double-tap detection between taps on one
    side: nothing remembered, or a first tap remembered. *)
Lemma clicks_count (rect : VideoPlayer.Rect) (duration : Q)
    (side : VideoPlayer.Side) (taps : list (Z * Q)) :
  Forall (fun t => VideoPlayer.tap_side rect (snd t) = side) taps ->
  forall s : VideoPlayer.Taps,
  (VideoPlayer.lastTapSide s = None -> VideoPlayer.quick_taps taps ->
   length (VideoPlayer.tapSeeks
             (VideoPlayer.clicks (Some rect) duration taps s))
   = (length (VideoPlayer.tapSeeks s) + Nat.div2 (length taps))%nat) /\
  (VideoPlayer.lastTapSide s = Some side ->
   VideoPlayer.gaps_ok (VideoPlayer.lastTapTime s) taps ->
   length (VideoPlayer.tapSeeks
             (VideoPlayer.clicks (Some rect) duration taps s))
   = (length (VideoPlayer.tapSeeks s) + Nat.div2 (S (length taps)))%nat).
Proof.
  intros Hside. induction Hside as [| [now x] taps Hx _ IH]; intros s.
  - cbn. split; intros; lia.
  - cbn [snd] in Hx. split.
    + intros Hs Hq. cbn [VideoPlayer.quick_taps fst] in Hq.
      unfold VideoPlayer.clicks. cbn [fold_left fst snd].
      assert (E : VideoPlayer.handleVideoTap (Some rect) duration
                    (VideoPlayer.Click x) now s
                  = VideoPlayer.mkTaps now (Some side)
                      (VideoPlayer.position s) (VideoPlayer.tapSeeks s)).
      { unfold VideoPlayer.handleVideoTap. rewrite Hx, Hs.
        cbn [VideoPlayer.side_eqb]. rewrite andb_false_r. reflexivity. }
      rewrite E.
      destruct (IH (VideoPlayer.mkTaps now (Some side)
                      (VideoPlayer.position s) (VideoPlayer.tapSeeks s)))
        as [_ Harmed].
      unfold VideoPlayer.clicks in Harmed.
      rewrite (Harmed eq_refl Hq). reflexivity.
    + intros Hs [Hgap Hrest]. cbn [fst] in Hgap, Hrest.
      unfold VideoPlayer.clicks. cbn [fold_left fst snd].
      assert (E : exists p t,
                  VideoPlayer.handleVideoTap (Some rect) duration
                    (VideoPlayer.Click x) now s
                  = VideoPlayer.mkTaps 0 None p
                      (VideoPlayer.tapSeeks s ++ [t])).
      { unfold VideoPlayer.handleVideoTap. rewrite Hx, Hs.
        apply Z.ltb_lt in Hgap. rewrite Hgap.
        assert (Hse : VideoPlayer.side_eqb (Some side) side = true)
          by (destruct side; reflexivity).
        rewrite Hse. cbn [andb]. eexists. eexists. reflexivity. }
      destruct E as (p & t & E). rewrite E.
      destruct (IH (VideoPlayer.mkTaps 0 None p
                      (VideoPlayer.tapSeeks s ++ [t]))) as [Hidle _].
      unfold VideoPlayer.clicks in Hidle.
      assert (Hq : VideoPlayer.quick_taps taps).
      { destruct taps as [| t' r]; [exact I |]. exact (proj2 Hrest). }
      rewrite (Hidle eq_refl Hq).
      cbn [VideoPlayer.tapSeeks length]. rewrite length_app.
      cbn [length Nat.div2]. lia.
Qed.

(** X12. Taps in quick succession on one side of the video, starting
    with nothing remembered, skip once for every pair: [n] taps make
    exactly [n / 2] seeks, the third tap of a burst starting a new
    pair. *)
Theorem quick_taps_skip_per_pair (rect : VideoPlayer.Rect) (duration : Q)
    (side : VideoPlayer.Side) (taps : list (Z * Q)) (s : VideoPlayer.Taps) :
  VideoPlayer.lastTapSide s = None ->
  Forall (fun t => VideoPlayer.tap_side rect (snd t) = side) taps ->
  VideoPlayer.quick_taps taps ->
  length (VideoPlayer.tapSeeks
            (VideoPlayer.clicks (Some rect) duration taps s))
  = (length (VideoPlayer.tapSeeks s) + Nat.div2 (length taps))%nat.
Proof.
  intros Hs Hside Hq.
  exact (proj1 (clicks_count rect duration side taps Hside s) Hs Hq).
Qed.

Lemma quick_taps_skip_per_pair_witness :
  let rect := VideoPlayer.mkRect 0 400 in
  let taps := [(1000%Z, 300%Q); (1100%Z, 350%Q); (1250%Z, 390%Q);
               (1400%Z, 210%Q); (1600%Z, 399%Q)] in
  let s := VideoPlayer.mkTaps 0 None (Some 50) [] in
  VideoPlayer.lastTapSide s = None /\
  Forall (fun t => VideoPlayer.tap_side rect (snd t) = VideoPlayer.SideRight)
         taps /\
  VideoPlayer.quick_taps taps /\
  length (VideoPlayer.tapSeeks (VideoPlayer.clicks (Some rect) 600 taps s))
  = 2%nat.
Proof.
  assert (Hside : Forall (fun t => VideoPlayer.tap_side (VideoPlayer.mkRect 0 400)
                                     (snd t) = VideoPlayer.SideRight)
                    [(1000%Z, 300%Q); (1100%Z, 350%Q); (1250%Z, 390%Q);
                     (1400%Z, 210%Q); (1600%Z, 399%Q)])
    by (repeat constructor).
  assert (Hq : VideoPlayer.quick_taps
                 [(1000%Z, 300%Q); (1100%Z, 350%Q); (1250%Z, 390%Q);
                  (1400%Z, 210%Q); (1600%Z, 399%Q)])
    by (cbn; repeat split; reflexivity).
  split; [reflexivity |]. split; [exact Hside |]. split; [exact Hq |].
  exact (quick_taps_skip_per_pair (VideoPlayer.mkRect 0 400) 600
           VideoPlayer.SideRight _ (VideoPlayer.mkTaps 0 None (Some 50) [])
           eq_refl Hside Hq).
Defined.

(** X13. The target of a double-tap skip stays on the time line: a skip
    back never goes below 0 nor forward of the current time, a skip
    ahead never goes beyond the duration nor more than ten seconds
    ahead; before the duration is known (0), a skip ahead leads to 0. *)
Theorem skip_target_bounds (duration current : Q) :
  (0 <= current)%Q ->
  (0 <= VideoPlayer.skip_target VideoPlayer.SideLeft duration current
     <= current)%Q /\
  (VideoPlayer.skip_target VideoPlayer.SideRight duration current
     <= duration)%Q /\
  (VideoPlayer.skip_target VideoPlayer.SideRight duration current
     <= current + 10)%Q /\
  (VideoPlayer.skip_target VideoPlayer.SideRight 0 current == 0)%Q.
Proof.
  intros Hc. unfold VideoPlayer.skip_target, VideoPlayer.SKIP_SECONDS.
  split; [split |].
  - apply Q.le_max_l.
  - apply Q.max_lub; [exact Hc | lra].
  - split; [apply Q.le_min_l |]. split; [apply Q.le_min_r |].
    apply Q.min_l. lra.
Qed.

Lemma skip_target_bounds_witness :
  (0 <= 4)%Q /\
  (VideoPlayer.skip_target VideoPlayer.SideLeft 600 4 == 0)%Q.
Proof.
  assert (Hc : (0 <= 4)%Q) by discriminate.
  split; [exact Hc |].
  destruct (skip_target_bounds 600 4 Hc) as [[H0 _] _].
  apply Qle_antisym; [| exact H0].
  vm_compute. discriminate.
Defined.

(** X14. The recording countdown counts down by one per tick, stops at 0
    and never goes below: after [n] ticks from a start value that is not
    negative it is [max 0 (start - n)]. Counting from the maximum, the
    progress ring stays between 0 and 100 per cent. *)
Theorem countdown_stops_at_zero (n : nat) (start : Z) :
  (0 <= start)%Z ->
  WalkieTalkie.countdown_after n start = Z.max 0 (start - Z.of_nat n) /\
  (0 < start ->
   (0 <= WalkieTalkie.progress true start
           (WalkieTalkie.countdown_after n start) <= 100)%Q)%Z.
Proof.
  intros Hs.
  assert (E : WalkieTalkie.countdown_after n start
              = Z.max 0 (start - Z.of_nat n)).
  { induction n as [| n IH].
    - cbn. lia.
    - change (WalkieTalkie.countdown_tick
                (WalkieTalkie.countdown_after n start)
              = Z.max 0 (start - Z.of_nat (S n))).
      rewrite IH. unfold WalkieTalkie.countdown_tick.
      destruct (Z.leb_spec (Z.max 0 (start - Z.of_nat n)) 1); lia. }
  split; [exact E |].
  intros Hpos. rewrite E. unfold WalkieTalkie.progress.
  set (c := Z.max 0 (start - Z.of_nat n)).
  assert (Hc : (0 <= c <= start)%Z) by (subst c; lia).
  assert (H0 : (0 <= inject_Z (start - c))%Q)
    by (change 0%Q with (inject_Z 0); rewrite <- Zle_Qle; lia).
  assert (H1 : (inject_Z (start - c) <= inject_Z start)%Q)
    by (rewrite <- Zle_Qle; lia).
  assert (Hp : (0 < inject_Z start)%Q)
    by (change 0%Q with (inject_Z 0); rewrite <- Zlt_Qlt; lia).
  split.
  - apply Qmult_le_0_compat; [| discriminate].
    apply Qle_shift_div_l; [exact Hp |]. rewrite Qmult_0_l. exact H0.
  - assert (Hq : (inject_Z (start - c) / inject_Z start <= 1)%Q).
    { apply Qle_shift_div_r; [exact Hp |]. rewrite Qmult_1_l. exact H1. }
    setoid_replace 100%Q with (1 * 100)%Q at 2 by reflexivity.
    apply Qmult_le_compat_r; [exact Hq | discriminate].
Qed.

Lemma countdown_stops_at_zero_witness :
  (0 <= WalkieTalkie.MAX_RECORD_SECONDS)%Z /\
  WalkieTalkie.countdown_after 5 WalkieTalkie.MAX_RECORD_SECONDS = 0%Z.
Proof.
  assert (H : (0 <= WalkieTalkie.MAX_RECORD_SECONDS)%Z) by discriminate.
  split; [exact H |].
  exact (proj1 (countdown_stops_at_zero 5 WalkieTalkie.MAX_RECORD_SECONDS H)).
Defined.

(* ================================================================== *)
(** * Properties of the socket server *)

Lemma set_has_In (x : string) (s : list string) :
  Server.set_has x s = true <-> In x s.
Proof.
  unfold Server.set_has. rewrite existsb_exists. split.
  - intros (y & Hy & E). apply String.eqb_eq in E. subst. exact Hy.
  - intros H. exists x. split; [exact H | apply String.eqb_refl].
Qed.

Lemma set_add_NoDup (x : string) (s : list string) :
  NoDup s -> NoDup (Server.set_add x s).
Proof.
  intros H. unfold Server.set_add.
  destruct (Server.set_has x s) eqn:E; [exact H |].
  apply NoDup_app; [exact H | repeat constructor; intros [] |].
  intros y Hy [Hx | []]. subst y.
  apply set_has_In in Hy. congruence.
Qed.

Lemma set_add_length (x : string) (s : list string) :
  length (Server.set_add x s)
  = if Server.set_has x s then length s else S (length s).
Proof.
  unfold Server.set_add. destruct (Server.set_has x s); [reflexivity |].
  rewrite length_app. cbn. lia.
Qed.

Lemma set_delete_NoDup (x : string) (s : list string) :
  NoDup s -> NoDup (Server.set_delete x s).
Proof. intros H. apply NoDup_filter. exact H. Qed.

Lemma set_delete_length (x : string) (s : list string) :
  (length (Server.set_delete x s) <= length s)%nat.
Proof. apply filter_length_le. Qed.

Lemma map_get_In (k : string) (m : list (string * Server.Room))
    (r : Server.Room) :
  Server.map_get k m = Some r -> In (k, r) m.
Proof.
  induction m as [| [k' r'] m IH]; cbn [Server.map_get]; [discriminate |].
  destruct (String.eqb_spec k' k) as [-> | _].
  - intros H. injection H as ->. left. reflexivity.
  - intros H. right. apply IH, H.
Qed.

Lemma map_set_keys (k : string) (r : Server.Room)
    (m : list (string * Server.Room)) :
  forall k', In k' (map fst (Server.map_set k r m)) <->
             k' = k \/ In k' (map fst m).
Proof.
  induction m as [| [k0 r0] m IH]; intros k'; cbn [Server.map_set].
  - cbn. intuition.
  - destruct (String.eqb_spec k0 k) as [-> | Hne]; cbn [map fst In].
    + intuition.
    + rewrite IH. intuition.
Qed.

Lemma map_set_ok (P : Server.Room -> Prop) (k : string) (r : Server.Room)
    (m : list (string * Server.Room)) :
  P r -> Forall (fun e => P (snd e)) m -> NoDup (map fst m) ->
  Forall (fun e => P (snd e)) (Server.map_set k r m) /\
  NoDup (map fst (Server.map_set k r m)).
Proof.
  intros Hr. induction m as [| [k0 r0] m IH]; intros Hm Hk;
    cbn [Server.map_set].
  - split; repeat constructor; [exact Hr | intros []].
  - inversion Hm as [| ? ? H0 Hm']; subst.
    cbn [map fst] in Hk. inversion Hk as [| ? ? Hnin Hk']; subst.
    destruct (String.eqb_spec k0 k) as [-> | Hne].
    + split; [constructor; assumption |]. cbn [map fst].
      constructor; assumption.
    + destruct (IH Hm' Hk') as [IH1 IH2].
      split; [constructor; assumption |]. cbn [map fst].
      constructor; [| exact IH2].
      rewrite map_set_keys. intros [E | Hin]; [congruence | contradiction].
Qed.

Lemma map_delete_ok (P : Server.Room -> Prop) (k : string)
    (m : list (string * Server.Room)) :
  Forall (fun e => P (snd e)) m -> NoDup (map fst m) ->
  Forall (fun e => P (snd e)) (Server.map_delete k m) /\
  NoDup (map fst (Server.map_delete k m)).
Proof.
  intros Hm Hk. unfold Server.map_delete. split.
  - apply Forall_forall. intros e He. apply filter_In in He.
    rewrite Forall_forall in Hm. apply Hm, He.
  - induction m as [| [k0 r0] m IH]; cbn [filter fst]; [constructor |].
    inversion Hm; subst. cbn [map fst] in Hk. inversion Hk; subst.
    destruct (negb (String.eqb k0 k)); [| apply IH; assumption].
    cbn [map fst]. constructor; [| apply IH; assumption].
    intros Hin. apply in_map_iff in Hin. destruct Hin as ([k1 r1] & E & Hin).
    cbn [fst] in E. subst k1. apply filter_In in Hin.
    destruct Hin as [Hin _].
    match goal with H : ~ In k0 _ |- _ => apply H end.
    apply in_map_iff. exists (k0, r1). split; [reflexivity | exact Hin].
Qed.

Lemma rooms_ok_get (s : Server.State) (k : string) (r : Server.Room) :
  Server.rooms_ok s -> Server.map_get k (Server.rooms s) = Some r ->
  Server.room_ok r.
Proof.
  intros [Hf _] Hg. apply map_get_In in Hg.
  rewrite Forall_forall in Hf. exact (Hf _ Hg).
Qed.

Lemma emit_rooms (t : Server.Target) (e : Server.Emit) (s : Server.State) :
  Server.rooms (Server.emit t e s) = Server.rooms s.
Proof. reflexivity. Qed.

Lemma map_set_twice (k : string) (r1 r2 : Server.Room)
    (m : list (string * Server.Room)) :
  Server.map_set k r2 (Server.map_set k r1 m) = Server.map_set k r2 m.
Proof.
  induction m as [| [k0 r0] m IH]; cbn [Server.map_set].
  - rewrite String.eqb_refl. reflexivity.
  - destruct (String.eqb k0 k) eqn:E; cbn [Server.map_set].
    + rewrite String.eqb_refl. reflexivity.
    + rewrite E, IH. reflexivity.
Qed.

Lemma joinRoom_ok (id roomId : string) (s : Server.State) :
  Server.rooms_ok s -> Server.rooms_ok (Server.joinRoom id roomId s).
Proof.
  intros Hok. unfold Server.joinRoom.
  destruct (Server.map_get roomId (Server.rooms s)) as [room|] eqn:Hg.
  - pose proof (rooms_ok_get s roomId room Hok Hg) as [[H1 H2] Hnd].
    destruct ((2 <=? length (Server.users room))%nat
              && negb (Server.set_has id (Server.users room))) eqn:Hfull.
    + exact Hok.
    + assert (Hroom : Server.room_ok
                (Server.mkRoom (Server.set_add id (Server.users room))
                               (Server.videoState room))).
      { split; [| apply set_add_NoDup, Hnd].
        cbn [Server.users]. rewrite set_add_length.
        destruct (Server.set_has id (Server.users room)) eqn:Hh; [lia |].
        rewrite andb_true_r in Hfull. apply Nat.leb_gt in Hfull. lia. }
      destruct Hok as [Hf Hk].
      destruct (Server.videoState
                  (Server.mkRoom (Server.set_add id (Server.users room))
                                 (Server.videoState room)));
        unfold Server.rooms_ok; cbn [Server.rooms Server.emit
          Server.socket_join];
        apply (map_set_ok Server.room_ok); assumption.
  - cbn [Server.users length Nat.leb andb].
    destruct Hok as [Hf Hk].
    unfold Server.rooms_ok.
    cbn [Server.rooms Server.emit Server.socket_join Server.videoState].
    rewrite map_set_twice.
    apply (map_set_ok Server.room_ok); [| assumption | assumption].
    split; [cbn; lia | cbn; repeat constructor; intros []].
Qed.

Lemma fold_emit_rooms (A : Type) (f : Server.State -> A -> Server.State)
    (l : list A) (s : Server.State) :
  (forall st a, Server.rooms (f st a) = Server.rooms st) ->
  Server.rooms (fold_left f l s) = Server.rooms s.
Proof.
  intros Hf. revert s. induction l as [| a l IH]; intros s; cbn [fold_left];
    [reflexivity |]. rewrite IH. apply Hf.
Qed.

Lemma voiceNote_rooms (id blob : string) (d : Q) (s : Server.State) :
  Server.rooms (Server.voiceNote id blob d s) = Server.rooms s.
Proof.
  unfold Server.voiceNote. apply fold_emit_rooms.
  intros st r. destruct (negb (String.eqb r id)); reflexivity.
Qed.

Lemma videoUpdate_ok (id roomId : string) (vs : Server.VideoState)
    (s : Server.State) :
  Server.rooms_ok s -> Server.rooms_ok (Server.videoUpdate id roomId vs s).
Proof.
  intros Hok. unfold Server.videoUpdate.
  destruct (Server.map_get roomId (Server.rooms s)) as [room|] eqn:Hg;
    [| exact Hok].
  pose proof (rooms_ok_get s roomId room Hok Hg) as Hr.
  destruct Hok as [Hf Hk]. unfold Server.rooms_ok.
  cbn [Server.rooms Server.emit].
  apply (map_set_ok Server.room_ok); assumption.
Qed.

Lemma leave_ok (id roomId : string) (s : Server.State) :
  Server.rooms_ok s -> Server.rooms_ok (Server.leave id s roomId).
Proof.
  intros Hok. unfold Server.leave.
  destruct (Server.map_get roomId (Server.rooms s)) as [room|] eqn:Hg;
    [| exact Hok].
  pose proof (rooms_ok_get s roomId room Hok Hg) as [[H1 H2] Hnd].
  destruct Hok as [Hf Hk].
  cbn [Server.users].
  pose proof (set_delete_length id (Server.users room)) as Hlen.
  destruct (Nat.eqb (length (Server.set_delete id (Server.users room))) 0)
    eqn:Hz; unfold Server.rooms_ok; cbn [Server.rooms Server.emit].
  - split.
    + apply Forall_forall. intros e He. apply filter_In in He. destruct He as [He Hne].
      destruct e as [k r]. cbn [fst snd] in *.
      assert (Hin : In (k, r) (Server.rooms s)).
      { clear - He Hne. induction (Server.rooms s) as [| [k0 r0] m IH];
          cbn [Server.map_set] in He; [destruct He as [E | []] |].
        - injection E as <- <-. rewrite String.eqb_refl in Hne. discriminate.
        - destruct (String.eqb k0 roomId) eqn:E.
          + destruct He as [E' | He].
            * injection E' as <- <-. rewrite String.eqb_refl in Hne.
              discriminate.
            * right. exact He.
          + destruct He as [E' | He]; [left; exact E' | right; apply IH, He]. }
      rewrite Forall_forall in Hf. exact (Hf _ Hin).
    + assert (Hd : Server.map_delete roomId
               (Server.map_set roomId
                  (Server.mkRoom (Server.set_delete id (Server.users room))
                                 (Server.videoState room)) (Server.rooms s))
               = Server.map_delete roomId (Server.rooms s)).
      { clear. unfold Server.map_delete.
        induction (Server.rooms s) as [| [k0 r0] m IH];
          cbn [Server.map_set filter fst].
        - rewrite String.eqb_refl. reflexivity.
        - destruct (String.eqb k0 roomId) eqn:E; cbn [filter fst].
          + rewrite String.eqb_refl. reflexivity.
          + rewrite E. cbn [negb]. rewrite IH. reflexivity. }
      fold (Server.map_delete roomId
              (Server.map_set roomId
                 (Server.mkRoom (Server.set_delete id (Server.users room))
                                (Server.videoState room)) (Server.rooms s))).
      rewrite Hd. apply (map_delete_ok Server.room_ok); assumption.
  - apply Nat.eqb_neq in Hz.
    apply (map_set_ok Server.room_ok); [| assumption | assumption].
    split; [cbn [Server.users]; lia |].
    apply set_delete_NoDup, Hnd.
Qed.

Lemma disconnecting_ok (id : string) (s : Server.State) :
  Server.rooms_ok s -> Server.rooms_ok (Server.disconnecting id s).
Proof.
  intros Hok. unfold Server.disconnecting.
  assert (H : Server.rooms_ok
                (fold_left (Server.leave id) (Server.socket_rooms id s) s)).
  { generalize (Server.socket_rooms id s). intros l. revert s Hok.
    induction l as [| r l IH]; intros s Hok; cbn [fold_left]; [exact Hok |].
    apply IH, leave_ok, Hok. }
  exact H.
Qed.

Lemma step_ok (e : Server.Event) (s : Server.State) :
  Server.rooms_ok s -> Server.rooms_ok (Server.step e s).
Proof.
  intros Hok. destruct e; cbn [Server.step].
  - apply joinRoom_ok, Hok.
  - apply videoUpdate_ok, Hok.
  - exact Hok.
  - unfold Server.rooms_ok. rewrite voiceNote_rooms. exact Hok.
  - apply disconnecting_ok, Hok.
Qed.

(** X15. Whatever the sockets send and in whatever order, every room the
    server holds has one or two users, each listed once. *)
Theorem server_rooms_hold_one_or_two (es : list Server.Event)
    (roomId : string) (room : Server.Room) :
  Server.map_get roomId (Server.rooms (Server.run es Server.empty))
    = Some room ->
  (1 <= length (Server.users room) <= 2)%nat /\ NoDup (Server.users room).
Proof.
  intros Hg.
  assert (Hok : Server.rooms_ok (Server.run es Server.empty)).
  { unfold Server.run.
    assert (H0 : Server.rooms_ok Server.empty)
      by (split; constructor).
    revert H0. generalize Server.empty. clear Hg.
    induction es as [| e es IH]; intros s Hs; cbn [fold_left]; [exact Hs |].
    apply IH, step_ok, Hs. }
  exact (rooms_ok_get _ _ _ Hok Hg).
Qed.

Lemma server_rooms_hold_one_or_two_witness :
  let es := [Server.JoinRoom "a" "r"; Server.JoinRoom "b" "r";
             Server.JoinRoom "c" "r"; Server.Disconnecting "a";
             Server.JoinRoom "c" "r"] in
  Server.map_get "r" (Server.rooms (Server.run es Server.empty))
    = Some (Server.mkRoom ["b"; "c"] None)
  /\ (1 <= length ["b"; "c"] <= 2)%nat /\ NoDup ["b"; "c"].
Proof.
  intros es.
  assert (Hg : Server.map_get "r" (Server.rooms (Server.run es Server.empty))
               = Some (Server.mkRoom ["b"; "c"] None))
    by (vm_compute; reflexivity).
  split; [exact Hg |].
  exact (server_rooms_hold_one_or_two es "r" _ Hg).
Defined.

Lemma map_get_set_same (k : string) (r : Server.Room)
    (m : list (string * Server.Room)) :
  Server.map_get k (Server.map_set k r m) = Some r.
Proof.
  induction m as [| [k0 r0] m IH]; cbn [Server.map_set Server.map_get].
  - rewrite String.eqb_refl. reflexivity.
  - destruct (String.eqb k0 k) eqn:E; cbn [Server.map_get].
    + rewrite String.eqb_refl. reflexivity.
    + rewrite E. exact IH.
Qed.

Lemma map_get_set_other (k k' : string) (r : Server.Room)
    (m : list (string * Server.Room)) :
  k <> k' -> Server.map_get k (Server.map_set k' r m) = Server.map_get k m.
Proof.
  intros Hne. induction m as [| [k0 r0] m IH];
    cbn [Server.map_set Server.map_get].
  - destruct (String.eqb_spec k' k); [congruence | reflexivity].
  - destruct (String.eqb_spec k0 k') as [-> | Hn]; cbn [Server.map_get].
    + destruct (String.eqb_spec k' k); [congruence | reflexivity].
    + destruct (String.eqb k0 k); [reflexivity | exact IH].
Qed.

Lemma map_get_delete_same (k : string) (m : list (string * Server.Room)) :
  Server.map_get k (Server.map_delete k m) = None.
Proof.
  unfold Server.map_delete.
  induction m as [| [k0 r0] m IH]; cbn [filter fst]; [reflexivity |].
  destruct (String.eqb k0 k) eqn:E; cbn [negb]; [exact IH |].
  cbn [Server.map_get]. rewrite E. exact IH.
Qed.

Lemma map_get_delete_other (k k' : string)
    (m : list (string * Server.Room)) :
  k <> k' -> Server.map_get k (Server.map_delete k' m) = Server.map_get k m.
Proof.
  intros Hne. unfold Server.map_delete.
  induction m as [| [k0 r0] m IH]; cbn [filter fst]; [reflexivity |].
  destruct (String.eqb_spec k0 k') as [-> | Hn]; cbn [negb Server.map_get].
  - destruct (String.eqb_spec k' k); [congruence | exact IH].
  - destruct (String.eqb k0 k); [reflexivity | exact IH].
Qed.

Lemma set_has_false (x : string) (s : list string) :
  ~ In x s -> Server.set_has x s = false.
Proof.
  intros H. destruct (Server.set_has x s) eqn:E; [| reflexivity].
  apply set_has_In in E. contradiction.
Qed.

Lemma joinRoom_full (c r : string) (room : Server.Room) (s : Server.State) :
  Server.map_get r (Server.rooms s) = Some room ->
  (2 <= length (Server.users room))%nat ->
  ~ In c (Server.users room) ->
  Server.joinRoom c r s = Server.emit (Server.ToSocket c) Server.RoomFull s.
Proof.
  intros Hg Hlen Hnin. unfold Server.joinRoom. rewrite Hg.
  rewrite (set_has_false _ _ Hnin).
  apply Nat.leb_le in Hlen. rewrite Hlen. reflexivity.
Qed.

Lemma joined_of_join_other (id id' room : string)
    (j : list (string * list string)) :
  id <> id' ->
  Server.joined_of id (Server.join_set id' room j) = Server.joined_of id j.
Proof.
  intros Hne. induction j as [| [k rs] j IH];
    cbn [Server.join_set Server.joined_of].
  - destruct (String.eqb_spec id' id); [congruence | reflexivity].
  - destruct (String.eqb_spec k id') as [-> | Hn]; cbn [Server.joined_of].
    + destruct (String.eqb_spec id' id); [congruence | reflexivity].
    + destruct (String.eqb k id); [reflexivity | exact IH].
Qed.

Lemma joined_of_join_same (id room : string)
    (j : list (string * list string)) :
  In room (Server.joined_of id (Server.join_set id room j)).
Proof.
  induction j as [| [k rs] j IH]; cbn [Server.join_set Server.joined_of].
  - rewrite String.eqb_refl. left. reflexivity.
  - destruct (String.eqb k id) eqn:E; cbn [Server.joined_of].
    + rewrite String.eqb_refl. unfold Server.set_add.
      destruct (Server.set_has room rs) eqn:Hh.
      * apply set_has_In, Hh.
      * apply in_or_app. right. left. reflexivity.
    + rewrite E. exact IH.
Qed.

(** X16. A room with two users is closed to a third socket and open to its
    own two. The outsider's join changes no room and no membership and
    is answered by [room-full] alone; a member's repeated join leaves
    the room's users and video state as they were and is answered by
    the list of the other users. *)
Theorem full_room_admits_members_only (id r : string) (room : Server.Room)
    (s : Server.State) :
  Server.map_get r (Server.rooms s) = Some room ->
  (2 <= length (Server.users room))%nat ->
  (~ In id (Server.users room) ->
     Server.joinRoom id r s
     = Server.mkState (Server.rooms s) (Server.joined s)
         (Server.out s ++ [(Server.ToSocket id, Server.RoomFull)]))
  /\ (In id (Server.users room) ->
      Server.map_get r (Server.rooms (Server.joinRoom id r s)) = Some room
      /\ In r (Server.joined_of id (Server.joined (Server.joinRoom id r s)))
      /\ last (Server.out (Server.joinRoom id r s))
              (Server.ToSocket id, Server.RoomFull)
         = (Server.ToSocket id,
            Server.AllUsers
              (filter (fun u => negb (String.eqb u id)) (Server.users room)))).
Proof.
  intros Hg Hlen. split.
  - intros Hnin. rewrite (joinRoom_full _ _ _ _ Hg Hlen Hnin). reflexivity.
  - intros Hin. unfold Server.joinRoom. rewrite Hg.
    apply set_has_In in Hin. rewrite Hin, andb_false_r.
    assert (Ha : Server.set_add id (Server.users room) = Server.users room)
      by (unfold Server.set_add; rewrite Hin; reflexivity).
    cbn [Server.videoState Server.users]. rewrite Ha.
    destruct room as [us vs]. cbn [Server.videoState Server.users] in *.
    destruct vs as [v|];
      cbn [Server.emit Server.rooms Server.joined Server.out
           Server.socket_join];
      rewrite map_get_set_same, last_last;
      (split; [reflexivity | split; [apply joined_of_join_same | reflexivity]]).
Qed.

Lemma full_room_admits_members_only_witness :
  let s := Server.run [Server.JoinRoom "a" "r"; Server.JoinRoom "b" "r"]
                      Server.empty in
  Server.joinRoom "c" "r" s
  = Server.mkState (Server.rooms s) (Server.joined s)
      (Server.out s ++ [(Server.ToSocket "c", Server.RoomFull)])
  /\ last (Server.out (Server.joinRoom "b" "r" s))
          (Server.ToSocket "b", Server.RoomFull)
     = (Server.ToSocket "b", Server.AllUsers ["a"]).
Proof.
  intros s.
  assert (Hg : Server.map_get "r" (Server.rooms s)
               = Some (Server.mkRoom ["a"; "b"] None)) by reflexivity.
  assert (Hlen : (2 <= length (Server.users (Server.mkRoom ["a"; "b"] None)))%nat)
    by (cbn; lia).
  destruct (full_room_admits_members_only "c" "r" _ s Hg Hlen) as [Hc _].
  destruct (full_room_admits_members_only "b" "r" _ s Hg Hlen) as [_ Hb].
  split.
  - apply Hc. cbn. intros [E | [E | []]]; discriminate.
  - apply Hb. cbn. right. left. reflexivity.
Defined.

(** X17. The server keeps a room's last video update for those who come
    later. Whoever sent it, member or not, a socket admitted to the
    room afterwards is sent exactly that state as [video-sync], between
    the notice to the others and the list of users. *)
Theorem late_joiner_is_sent_last_update (sender id r : string)
    (vs : Server.VideoState) (room : Server.Room) (s : Server.State) :
  Server.map_get r (Server.rooms s) = Some room ->
  ((length (Server.users room) < 2)%nat \/ In id (Server.users room)) ->
  let s' := Server.joinRoom id r (Server.videoUpdate sender r vs s) in
  Server.out s'
  = Server.out s
    ++ [(Server.ToRoomExcept r sender, Server.VideoUpdate vs);
        (Server.ToRoomExcept r id, Server.UserJoined id);
        (Server.ToSocket id, Server.VideoSync vs);
        (Server.ToSocket id,
         Server.AllUsers (filter (fun u => negb (String.eqb u id))
                                 (Server.set_add id (Server.users room))))]
  /\ Server.map_get r (Server.rooms s')
     = Some (Server.mkRoom (Server.set_add id (Server.users room)) (Some vs)).
Proof.
  intros Hg Hadm s'. subst s'.
  unfold Server.videoUpdate. rewrite Hg.
  unfold Server.joinRoom.
  cbn [Server.emit Server.rooms Server.joined Server.out].
  rewrite map_get_set_same. cbn [Server.users Server.videoState].
  assert (Hc : (2 <=? length (Server.users room))%nat
               && negb (Server.set_has id (Server.users room)) = false).
  { destruct Hadm as [Hlt | Hin].
    - apply Nat.leb_gt in Hlt. rewrite Hlt. reflexivity.
    - apply set_has_In in Hin. rewrite Hin. apply andb_false_r. }
  rewrite Hc.
  cbn [Server.emit Server.rooms Server.joined Server.out Server.socket_join].
  rewrite map_set_twice, map_get_set_same.
  split; [| reflexivity].
  rewrite <- !app_assoc. reflexivity.
Qed.

Lemma late_joiner_is_sent_last_update_witness :
  let s := Server.run [Server.JoinRoom "a" "r"] Server.empty in
  let vs := Server.mkVideoState true 42 (Some "https://v/1") in
  In (Server.ToSocket "b", Server.VideoSync vs)
     (Server.out (Server.joinRoom "b" "r" (Server.videoUpdate "x" "r" vs s))).
Proof.
  intros s vs.
  assert (Hg : Server.map_get "r" (Server.rooms s)
               = Some (Server.mkRoom ["a"] None)) by reflexivity.
  destruct (late_joiner_is_sent_last_update "x" "b" "r" vs _ s Hg
              ltac:(left; cbn; lia)) as [Hout _].
  rewrite Hout. apply in_or_app. right. cbn. tauto.
Defined.

(** X18. An update sent before the room exists is lost. The server
    drops a [video-update] for an unknown room, so the socket that then
    opens the room finds it without video state and is sent no
    [video-sync]. *)
Theorem update_before_join_is_lost (sender id r : string)
    (vs : Server.VideoState) (s : Server.State) :
  Server.map_get r (Server.rooms s) = None ->
  let s' := Server.joinRoom id r (Server.videoUpdate sender r vs s) in
  Server.out s'
  = Server.out s ++ [(Server.ToRoomExcept r id, Server.UserJoined id);
                     (Server.ToSocket id, Server.AllUsers [])]
  /\ Server.map_get r (Server.rooms s') = Some (Server.mkRoom [id] None).
Proof.
  intros Hg s'. subst s'.
  unfold Server.videoUpdate. rewrite Hg.
  unfold Server.joinRoom. rewrite Hg.
  cbn [Server.users length Nat.leb andb Server.videoState Server.emit
       Server.rooms Server.joined Server.out Server.socket_join
       Server.set_add Server.set_has existsb app filter].
  rewrite String.eqb_refl. cbn [negb].
  rewrite map_set_twice, map_get_set_same.
  split; [| reflexivity].
  rewrite <- !app_assoc. reflexivity.
Qed.

Lemma update_before_join_is_lost_witness :
  let vs := Server.mkVideoState true 42 (Some "https://v/1") in
  Server.out (Server.joinRoom "a" "r"
                (Server.videoUpdate "a" "r" vs Server.empty))
  = [(Server.ToRoomExcept "r" "a", Server.UserJoined "a");
     (Server.ToSocket "a", Server.AllUsers [])].
Proof.
  intros vs.
  destruct (update_before_join_is_lost "a" "a" "r" vs Server.empty
              eq_refl) as [Hout _].
  exact Hout.
Defined.

Lemma joinRoom_fresh (id r : string) (s : Server.State) :
  Server.map_get r (Server.rooms s) = None ->
  Server.out (Server.joinRoom id r s)
  = Server.out s ++ [(Server.ToRoomExcept r id, Server.UserJoined id);
                     (Server.ToSocket id, Server.AllUsers [])]
  /\ Server.map_get r (Server.rooms (Server.joinRoom id r s))
     = Some (Server.mkRoom [id] None).
Proof.
  intros Hg. unfold Server.joinRoom. rewrite Hg.
  cbn [Server.users length Nat.leb andb Server.videoState Server.emit
       Server.rooms Server.joined Server.out Server.socket_join
       Server.set_add Server.set_has existsb app filter].
  rewrite String.eqb_refl. cbn [negb].
  rewrite map_set_twice, map_get_set_same.
  split; [| reflexivity].
  rewrite <- !app_assoc. reflexivity.
Qed.

Lemma leave_get_other (id r r' : string) (s : Server.State) :
  r <> r' ->
  Server.map_get r (Server.rooms (Server.leave id s r'))
  = Server.map_get r (Server.rooms s).
Proof.
  intros Hne. unfold Server.leave.
  destruct (Server.map_get r' (Server.rooms s)) as [room|]; [| reflexivity].
  destruct (Nat.eqb _ 0); cbn [Server.rooms Server.emit].
  - rewrite map_get_delete_other by exact Hne.
    apply map_get_set_other, Hne.
  - apply map_get_set_other, Hne.
Qed.

Lemma leave_get_alone (id r : string) (s : Server.State) :
  (forall room, Server.map_get r (Server.rooms s) = Some room ->
                Server.set_delete id (Server.users room) = []) ->
  Server.map_get r (Server.rooms (Server.leave id s r)) = None.
Proof.
  intros Halone. unfold Server.leave.
  destruct (Server.map_get r (Server.rooms s)) as [room|] eqn:Hg;
    [| exact Hg].
  cbn [Server.users]. rewrite (Halone room eq_refl). cbn [length Nat.eqb].
  cbn [Server.rooms Server.emit]. apply map_get_delete_same.
Qed.

Lemma leave_fold_gone (id r : string) (l : list string) :
  forall s,
    (forall room, Server.map_get r (Server.rooms s) = Some room ->
                  Server.set_delete id (Server.users room) = []) ->
    In r l \/ Server.map_get r (Server.rooms s) = None ->
    Server.map_get r (Server.rooms (fold_left (Server.leave id) l s)) = None.
Proof.
  induction l as [| r' l IH]; intros s Halone Hin; cbn [fold_left].
  - destruct Hin as [[] | Hn]. exact Hn.
  - destruct (String.eqb_spec r r') as [<- | Hne].
    + pose proof (leave_get_alone id r s Halone) as Hgone.
      apply IH; [| right; exact Hgone].
      intros room Hg. congruence.
    + apply IH.
      * intros room. rewrite leave_get_other by exact Hne. apply Halone.
      * rewrite leave_get_other by exact Hne.
        destruct Hin as [[E | Hin] | Hn]; [congruence | left; exact Hin |
                                            right; exact Hn].
Qed.

(** X19. A socket turned away from a full room can still steer its video
    but cannot speak into it. Its [video-update] is stored and relayed
    to the room like a member's, because that handler looks up the room
    and not the sender; its [voice-note] is relayed to nobody, because
    that handler walks the rooms the socket has joined. *)
Theorem outsider_updates_video_but_not_voice (c r blob : string) (d : Q)
    (vs : Server.VideoState) (room : Server.Room) (s : Server.State) :
  Server.map_get r (Server.rooms s) = Some room ->
  (2 <= length (Server.users room))%nat ->
  ~ In c (Server.users room) ->
  Server.joined_of c (Server.joined s) = [] ->
  let s1 := Server.joinRoom c r s in
  Server.voiceNote c blob d s1 = s1
  /\ Server.out (Server.videoUpdate c r vs s1)
     = Server.out s ++ [(Server.ToSocket c, Server.RoomFull);
                        (Server.ToRoomExcept r c, Server.VideoUpdate vs)]
  /\ Server.map_get r (Server.rooms (Server.videoUpdate c r vs s1))
     = Some (Server.mkRoom (Server.users room) (Some vs)).
Proof.
  intros Hg Hlen Hnin Hj s1. subst s1.
  rewrite (joinRoom_full _ _ _ _ Hg Hlen Hnin).
  split; [| split].
  - unfold Server.voiceNote, Server.socket_rooms.
    cbn [Server.emit Server.joined]. rewrite Hj.
    cbn [filter app Server.set_add Server.set_has existsb fold_left].
    rewrite String.eqb_refl. reflexivity.
  - unfold Server.videoUpdate. cbn [Server.emit Server.rooms]. rewrite Hg.
    cbn [Server.out Server.emit]. rewrite <- app_assoc. reflexivity.
  - unfold Server.videoUpdate. cbn [Server.emit Server.rooms]. rewrite Hg.
    cbn [Server.rooms Server.emit]. apply map_get_set_same.
Qed.

Lemma outsider_updates_video_but_not_voice_witness :
  let s := Server.run [Server.JoinRoom "a" "r"; Server.JoinRoom "b" "r"]
                      Server.empty in
  let vs := Server.mkVideoState false 7 None in
  let s1 := Server.joinRoom "c" "r" s in
  Server.voiceNote "c" "blob" 3 s1 = s1
  /\ Server.map_get "r" (Server.rooms (Server.videoUpdate "c" "r" vs s1))
     = Some (Server.mkRoom ["a"; "b"] (Some vs)).
Proof.
  intros s vs s1.
  assert (Hg : Server.map_get "r" (Server.rooms s)
               = Some (Server.mkRoom ["a"; "b"] None)) by reflexivity.
  assert (Hn : ~ In "c" (Server.users (Server.mkRoom ["a"; "b"] None)))
    by (cbn; intros [E | [E | []]]; discriminate).
  destruct (outsider_updates_video_but_not_voice "c" "r" "blob" 3 vs _ s Hg
              ltac:(cbn; lia) Hn eq_refl) as (Hv & _ & Hr).
  split; [exact Hv | exact Hr].
Defined.

(** X20. A room does not outlive its last user. When the only user of a
    room disconnects the room is deleted with its video state, so the
    next socket to join under the same id opens a new room and is sent
    no [video-sync]. *)
Theorem last_user_leaving_forgets_room (a b r : string) (room : Server.Room)
    (s : Server.State) :
  Server.map_get r (Server.rooms s) = Some room ->
  Server.users room = [a] ->
  In r (Server.socket_rooms a s) ->
  let s1 := Server.disconnecting a s in
  Server.map_get r (Server.rooms s1) = None
  /\ Server.out (Server.joinRoom b r s1)
     = Server.out s1 ++ [(Server.ToRoomExcept r b, Server.UserJoined b);
                         (Server.ToSocket b, Server.AllUsers [])]
  /\ Server.map_get r (Server.rooms (Server.joinRoom b r s1))
     = Some (Server.mkRoom [b] None).
Proof.
  intros Hg Hus Hin s1.
  assert (Hgone : Server.map_get r (Server.rooms s1) = None).
  { subst s1. unfold Server.disconnecting. cbn [Server.rooms].
    apply leave_fold_gone; [| left; exact Hin].
    intros room' Hg'. assert (room' = room) by congruence. subst room'.
    rewrite Hus. cbn [Server.set_delete filter].
    rewrite String.eqb_refl. reflexivity. }
  split; [exact Hgone |].
  apply joinRoom_fresh, Hgone.
Qed.

Lemma last_user_leaving_forgets_room_witness :
  let vs := Server.mkVideoState true 42 (Some "https://v/1") in
  let s := Server.run [Server.JoinRoom "a" "r";
                       Server.UpdateVideo "a" "r" vs] Server.empty in
  Server.map_get "r" (Server.rooms s) = Some (Server.mkRoom ["a"] (Some vs))
  /\ Server.map_get "r"
       (Server.rooms (Server.joinRoom "b" "r" (Server.disconnecting "a" s)))
     = Some (Server.mkRoom ["b"] None).
Proof.
  intros vs s.
  assert (Hg : Server.map_get "r" (Server.rooms s)
               = Some (Server.mkRoom ["a"] (Some vs))) by reflexivity.
  split; [exact Hg |].
  destruct (last_user_leaving_forgets_room "a" "b" "r" _ s Hg eq_refl
              ltac:(vm_compute; tauto)) as (_ & _ & Hr).
  exact Hr.
Defined.

(* ================================================================== *)
(** * Properties of the room page over the socket server *)

Ltac client_unfold :=
  unfold SocketClient.handle,
    SocketClient.onVideoSync, SocketClient.onVideoUpdate,
    SocketClient.onUserJoined, SocketClient.onUserDisconnected,
    SocketClient.handleTogglePlay, SocketClient.handlePlay,
    SocketClient.handlePause, SocketClient.handlePlay_in,
    SocketClient.handlePause_in, SocketClient.handleSeek,
    SocketClient.handleUrlChange, SocketClient.onProgress,
    SocketClient.handleRecordStart, SocketClient.handleRecordStop,
    SocketClient.onloadedmetadata, SocketClient.onerror,
    SocketClient.expire, SocketClient.resume, SocketClient.handlePlay_in.

Ltac client_branch :=
  repeat match goal with
         | |- context [if ?b then _ else _] => destruct b eqn:?
         | |- context [match nth_error ?l ?i with _ => _ end] =>
             destruct (nth_error l i) as [[? ?]|] eqn:?
         | |- context [match SocketClient.finite_nonzero ?d with _ => _ end] =>
             destruct (SocketClient.finite_nonzero d) eqn:?
         end.

Ltac client_fields :=
  cbn [SocketClient.page SocketClient.seekCmd SocketClient.userCount
       SocketClient.socket SocketClient.isConnected SocketClient.roomId
       SocketClient.emitted SocketClient.recordings SocketClient.resumes
       SocketClient.setUserCount SocketClient.setSeekCmd
       SocketClient.setVideoState SocketClient.set_page
       SocketClient.setPlaying SocketClient.setInterruption
       SocketClient.emit SocketClient.set_recordings
       SocketClient.set_resumes].

(** What no handler changes: the socket, the connection and the room. *)
Lemma client_handle_props (e : SocketClient.Event) (c : SocketClient.Client) :
  SocketClient.socket (SocketClient.handle e c) = SocketClient.socket c /\
  SocketClient.isConnected (SocketClient.handle e c)
    = SocketClient.isConnected c /\
  SocketClient.roomId (SocketClient.handle e c) = SocketClient.roomId c.
Proof.
  destruct e; client_unfold; client_branch; client_fields;
    repeat split; first [reflexivity | assumption].
Qed.

Lemma client_step_props (e : SocketClient.Event) (c : SocketClient.Client) :
  SocketClient.socket (SocketClient.step e c) = SocketClient.socket c /\
  SocketClient.isConnected (SocketClient.step e c)
    = SocketClient.isConnected c /\
  SocketClient.roomId (SocketClient.step e c) = SocketClient.roomId c.
Proof.
  unfold SocketClient.step, SocketClient.syncEffect.
  destruct (client_handle_props e c) as (H1 & H2 & H3).
  cbv zeta. destruct (Qeq_bool _ _); [tauto |].
  destruct (SocketClient.subscribed _); [| tauto].
  cbn [SocketClient.emit SocketClient.socket SocketClient.isConnected
       SocketClient.roomId]. tauto.
Qed.

Lemma client_handle_userCount (e : SocketClient.Event)
    (c : SocketClient.Client) :
  (1 <= SocketClient.userCount c <= 2)%Z ->
  (1 <= SocketClient.userCount (SocketClient.handle e c) <= 2)%Z.
Proof.
  intros H.
  destruct e; client_unfold; client_branch; client_fields; lia.
Qed.

Lemma client_step_userCount (e : SocketClient.Event)
    (c : SocketClient.Client) :
  (1 <= SocketClient.userCount c <= 2)%Z ->
  (1 <= SocketClient.userCount (SocketClient.step e c) <= 2)%Z.
Proof.
  intros H. unfold SocketClient.step, SocketClient.syncEffect. cbv zeta.
  pose proof (client_handle_userCount e c H) as H'.
  destruct (Qeq_bool _ _); [exact H' |].
  destruct (SocketClient.subscribed _); exact H'.
Qed.

(** X21. The user count shown in the header is always 1 or 2: whatever
    the server announces and whatever the user does, in any order, the
    count of a mounted page never leaves that range, because a join
    adds one up to 2 and a disconnect takes one away down to 1. *)
Theorem user_count_stays_one_or_two (es : list SocketClient.Event)
    (socket isConnected : bool) (roomId : string) :
  (1 <= SocketClient.userCount
          (SocketClient.run es
             (SocketClient.mounted socket isConnected roomId)) <= 2)%Z.
Proof.
  unfold SocketClient.run.
  assert (H0 : (1 <= SocketClient.userCount
                       (SocketClient.mounted socket isConnected roomId)
                <= 2)%Z).
  { unfold SocketClient.mounted, SocketClient.syncEffect.
    destruct (SocketClient.subscribed _); cbn; lia. }
  revert H0. generalize (SocketClient.mounted socket isConnected roomId).
  induction es as [| e es IH]; intros c Hc; cbn [fold_left]; [exact Hc |].
  apply IH, client_step_userCount, Hc.
Qed.

Lemma member_join_out (id r : string) (room : Server.Room)
    (vs : Server.VideoState) (s : Server.State) :
  Server.map_get r (Server.rooms s) = Some room ->
  In id (Server.users room) ->
  Server.videoState room = Some vs ->
  Server.out (Server.joinRoom id r s)
  = Server.out s
    ++ [(Server.ToRoomExcept r id, Server.UserJoined id);
        (Server.ToSocket id, Server.VideoSync vs);
        (Server.ToSocket id,
         Server.AllUsers (filter (fun u => negb (String.eqb u id))
                                 (Server.users room)))].
Proof.
  intros Hg Hin Hvs. unfold Server.joinRoom. rewrite Hg.
  apply set_has_In in Hin. rewrite Hin, andb_false_r.
  assert (Ha : Server.set_add id (Server.users room) = Server.users room)
    by (unfold Server.set_add; rewrite Hin; reflexivity).
  cbn [Server.videoState Server.users]. rewrite Ha, Hvs.
  cbn [Server.emit Server.rooms Server.joined Server.out Server.socket_join].
  rewrite <- !app_assoc. reflexivity.
Qed.

(** X22. Every change of the playback position makes the page join its
    room again, and the server's answer overwrites the page. The sync
    effect depends on [videoState.timestamp], so a progress report with
    a new position re-runs it and emits ['join-room']; the server admits
    the member again, tells the room that a user joined and sends the
    stored video state as ['video-sync']; the page replaces its whole
    video state by the stored one and commands a seek to the stored
    position, and unless that position is the reported one the effect
    runs, and joins, once more. *)
Theorem progress_rejoins_and_is_overwritten (c : SocketClient.Client)
    (s : Server.State) (id : string) (room : Server.Room)
    (vs : Server.VideoState) (t : Q) :
  SocketClient.subscribed c = true ->
  ~ (SocketClient.timestamp c == t)%Q ->
  Server.map_get (SocketClient.roomId c) (Server.rooms s) = Some room ->
  In id (Server.users room) ->
  Server.videoState room = Some vs ->
  let r := SocketClient.roomId c in
  let c1 := SocketClient.step (SocketClient.Progress t) c in
  let s1 := Server.joinRoom id r s in
  let c2 := SocketClient.step
              (SocketClient.VideoSync (SocketClient.of_server vs)) c1 in
  SocketClient.emitted c1
    = SocketClient.emitted c ++ [SocketClient.EmitJoinRoom r] /\
  SocketClient.timestamp c1 = t /\
  In (Server.ToRoomExcept r id, Server.UserJoined id) (Server.out s1) /\
  In (Server.ToSocket id, Server.VideoSync vs) (Server.out s1) /\
  SocketClient.videoState c2 = SocketClient.of_server vs /\
  SocketClient.seekCmd c2 = Some (Server.timestamp vs) /\
  SocketClient.emitted c2
    = SocketClient.emitted c1
      ++ (if Qeq_bool t (Server.timestamp vs) then []
          else [SocketClient.EmitJoinRoom r]).
Proof.
  intros Hsub Hne Hg Hin Hvs r c1 s1 c2.
  assert (Hq : Qeq_bool (SocketClient.timestamp c) t = false).
  { destruct (Qeq_bool (SocketClient.timestamp c) t) eqn:E; [| reflexivity].
    apply Qeq_bool_eq in E. contradiction. }
  assert (Hc1 : c1 = SocketClient.emit (SocketClient.EmitJoinRoom r)
                       (SocketClient.onProgress t c)).
  { subst c1. unfold SocketClient.step. cbv zeta.
    cbn [SocketClient.handle].
    change (SocketClient.timestamp (SocketClient.onProgress t c)) with t.
    rewrite Hq. unfold SocketClient.syncEffect.
    change (SocketClient.subscribed (SocketClient.onProgress t c))
      with (SocketClient.subscribed c).
    rewrite Hsub. reflexivity. }
  assert (Hsub1 : SocketClient.subscribed c1 = true)
    by (rewrite Hc1; exact Hsub).
  assert (Ht1 : SocketClient.timestamp c1 = t) by (rewrite Hc1; reflexivity).
  assert (Hr1 : SocketClient.roomId c1 = r) by (rewrite Hc1; reflexivity).
  pose proof (member_join_out id r room vs s Hg Hin Hvs) as Hout.
  split; [rewrite Hc1; reflexivity |].
  split; [exact Ht1 |].
  split; [subst s1; rewrite Hout; apply in_or_app; right; cbn; tauto |].
  split; [subst s1; rewrite Hout; apply in_or_app; right; cbn; tauto |].
  subst c2. unfold SocketClient.step. cbv zeta.
  cbn [SocketClient.handle]. rewrite Hsub1.
  change (SocketClient.timestamp
            (SocketClient.onVideoSync (SocketClient.of_server vs) c1))
    with (Server.timestamp vs).
  rewrite Ht1.
  destruct (Qeq_bool t (Server.timestamp vs)).
  - split; [reflexivity |]. split; [reflexivity |].
    cbn. rewrite app_nil_r. reflexivity.
  - unfold SocketClient.syncEffect.
    change (SocketClient.subscribed
              (SocketClient.onVideoSync (SocketClient.of_server vs) c1))
      with (SocketClient.subscribed c1).
    rewrite Hsub1.
    split; [reflexivity |]. split; [reflexivity |].
    cbn [SocketClient.emit SocketClient.emitted SocketClient.onVideoSync
         SocketClient.setSeekCmd SocketClient.setVideoState
         SocketClient.set_page SocketClient.roomId].
    rewrite Hr1. reflexivity.
Qed.

Lemma progress_rejoins_and_is_overwritten_witness :
  let vs := Server.mkVideoState true 10 (Some "https://v/1") in
  let s := Server.run [Server.JoinRoom "a" "r";
                       Server.UpdateVideo "a" "r" vs] Server.empty in
  let c := SocketClient.run [SocketClient.Play 10]
             (SocketClient.mounted true true "r") in
  let c2 := SocketClient.run
              [SocketClient.Progress 11;
               SocketClient.VideoSync (SocketClient.of_server vs)] c in
  SocketClient.timestamp c2 = 10 /\
  SocketClient.seekCmd c2 = Some 10 /\
  SocketClient.emitted c2
  = [SocketClient.EmitJoinRoom "r";
     SocketClient.EmitVideoUpdate "r" true 10 "";
     SocketClient.EmitJoinRoom "r"; SocketClient.EmitJoinRoom "r"].
Proof.
  intros vs s c c2.
  assert (Hne : ~ (SocketClient.timestamp c == 11)%Q)
    by (vm_compute; discriminate).
  assert (Hg : Server.map_get (SocketClient.roomId c) (Server.rooms s)
               = Some (Server.mkRoom ["a"] (Some vs)))
    by (vm_compute; reflexivity).
  destruct (progress_rejoins_and_is_overwritten c s "a" _ vs 11
              eq_refl Hne Hg ltac:(left; reflexivity) eq_refl)
    as (_ & _ & _ & _ & Hv & Hk & He).
  split; [| split].
  - change (SocketRoomPage.timestamp (SocketClient.videoState c2) = 10).
    unfold c2, SocketClient.run. cbn [fold_left]. rewrite Hv. reflexivity.
  - unfold c2, SocketClient.run. cbn [fold_left]. exact Hk.
  - unfold c2, SocketClient.run. cbn [fold_left]. rewrite He.
    vm_compute. reflexivity.
Defined.



(** Only the recording and its timer touch the waiting audio elements
    and the resume timers. *)
Lemma client_step_keeps_timers (e : SocketClient.Event)
    (c : SocketClient.Client) :
  SocketClient.is_recording_event e = false ->
  SocketClient.resumes (SocketClient.step e c) = SocketClient.resumes c /\
  SocketClient.recordings (SocketClient.step e c)
    = SocketClient.recordings c.
Proof.
  intros He.
  assert (H : SocketClient.resumes (SocketClient.handle e c)
              = SocketClient.resumes c /\
              SocketClient.recordings (SocketClient.handle e c)
              = SocketClient.recordings c).
  { destruct e; try discriminate He; client_unfold; client_branch;
      client_fields; split; reflexivity. }
  unfold SocketClient.step, SocketClient.syncEffect. cbv zeta.
  destruct (Qeq_bool _ _); [exact H |].
  destruct (SocketClient.subscribed _); exact H.
Qed.

Lemma client_run_keeps_timers (es : list SocketClient.Event) :
  Forall (fun e => SocketClient.is_recording_event e = false) es ->
  forall c : SocketClient.Client,
  SocketClient.resumes (SocketClient.run es c) = SocketClient.resumes c /\
  SocketClient.socket (SocketClient.run es c) = SocketClient.socket c /\
  SocketClient.roomId (SocketClient.run es c) = SocketClient.roomId c.
Proof.
  induction 1 as [| e es He _ IH]; intros c; [repeat split |].
  unfold SocketClient.run. cbn [fold_left].
  destruct (IH (SocketClient.step e c)) as (I1 & I2 & I3).
  unfold SocketClient.run in I1, I2, I3. rewrite I1, I2, I3.
  destruct (client_step_keeps_timers e c He) as [K1 _].
  destruct (client_step_props e c) as (P1 & _ & P3).
  rewrite K1, P1, P3. repeat split.
Qed.

(** X24. The sender of a voice note resumes with the video state of the
    moment the recording stopped. Recording pauses the local video and
    sends nothing; when the length of the note is known the note is
    sent and, for a finite length other than 0, a timer of that length
    is armed; whatever happens in between (progress, seeks, a new
    address, remote updates), its expiry sends a play update carrying
    the position and the address captured when the recording stopped,
    and starts the video. A length of 0, NaN or infinity resumes at
    once instead, NaN being sent as 0. *)
Theorem sender_resumes_with_captured_state (c : SocketClient.Client)
    (d : Q) (es : list SocketClient.Event) :
  SocketClient.socket c = true ->
  SocketClient.recordings c = [] -> SocketClient.resumes c = [] ->
  ~ (d == 0)%Q ->
  Forall (fun e => SocketClient.is_recording_event e = false) es ->
  let r := SocketClient.roomId c in
  let t := SocketClient.timestamp c in
  let u := SocketRoomPage.url (SocketClient.videoState c) in
  let c1 := SocketClient.step SocketClient.RecordStart c in
  let c2 := SocketClient.step (SocketClient.RecordStop true) c1 in
  let c3 := SocketClient.step
              (SocketClient.LoadedMetadata 0 (SocketClient.Finite d)) c2 in
  let c4 := SocketClient.run es c3 in
  let c5 := SocketClient.step (SocketClient.Expire 0) c4 in
  SocketRoomPage.playing (SocketClient.videoState c1) = false /\
  SocketClient.emitted c2 = SocketClient.emitted c /\
  SocketClient.emitted c3
    = SocketClient.emitted c
      ++ [SocketClient.EmitVoiceNote (SocketClient.Finite d)] /\
  SocketRoomPage.isVoiceInterruption (SocketClient.page c3) = true /\
  SocketRoomPage.playing (SocketClient.videoState c3) = false /\
  SocketClient.emitted c5
    = SocketClient.emitted c4 ++ [SocketClient.EmitVideoUpdate r true t u] /\
  SocketRoomPage.playing (SocketClient.videoState c5) = true /\
  SocketRoomPage.isVoiceInterruption (SocketClient.page c5) = false /\
  SocketClient.resumes c5 = [] /\
  (forall d', SocketClient.finite_nonzero d' = None ->
     SocketClient.emitted
       (SocketClient.step (SocketClient.LoadedMetadata 0 d') c2)
     = SocketClient.emitted c
       ++ [SocketClient.EmitVoiceNote (SocketClient.or_zero d');
           SocketClient.EmitVideoUpdate r true t u]).
Proof.
  intros Hs Hrec Hres Hd Hes r t u c1 c2 c3 c4 c5.
  assert (Hrefl : forall q, Qeq_bool q q = true)
    by (intros q; apply Qeq_bool_iff; reflexivity).
  assert (Hq : Qeq_bool d 0 = false).
  { destruct (Qeq_bool d 0) eqn:E; [| reflexivity].
    apply Qeq_bool_eq in E. contradiction. }
  set (cap := SocketRoomPage.mkVideoState false t u).
  assert (Hc1 : c1 = SocketClient.handleRecordStart c).
  { subst c1. unfold SocketClient.step. cbv zeta. cbn [SocketClient.handle].
    change (SocketClient.timestamp (SocketClient.handleRecordStart c))
      with (SocketClient.timestamp c).
    rewrite Hrefl. reflexivity. }
  assert (Hc2 : c2 = SocketClient.set_recordings [cap] c1).
  { subst c2. unfold SocketClient.step. cbv zeta. cbn [SocketClient.handle].
    unfold SocketClient.handleRecordStop.
    assert (E : SocketClient.socket c1 = true) by (rewrite Hc1; exact Hs).
    rewrite E. cbn [andb].
    assert (E' : SocketClient.recordings c1 = [])
      by (rewrite Hc1; exact Hrec).
    rewrite E'. cbn [app].
    change (SocketClient.timestamp
              (SocketClient.set_recordings [SocketClient.videoState c1] c1))
      with (SocketClient.timestamp c1).
    rewrite Hrefl. rewrite Hc1. reflexivity. }
  assert (Hload : forall d',
            SocketClient.step (SocketClient.LoadedMetadata 0 d') c2
            = let c' := SocketClient.emit
                          (SocketClient.EmitVoiceNote
                             (SocketClient.or_zero d'))
                          (SocketClient.set_recordings [] c2) in
              match SocketClient.finite_nonzero d' with
              | Some q => SocketClient.set_resumes [(q * 1000, cap)] c'
              | None => SocketClient.resume cap c'
              end).
  { intros d'. unfold SocketClient.step. cbv zeta.
    cbn [SocketClient.handle]. unfold SocketClient.onloadedmetadata.
    rewrite Hc2. cbn [SocketClient.recordings SocketClient.set_recordings
                     nth_error SocketClient.remove_nth].
    cbv zeta.
    cbn [SocketClient.resumes SocketClient.emit SocketClient.set_recordings].
    assert (E : SocketClient.resumes c1 = [])
      by (rewrite Hc1; exact Hres).
    rewrite E. cbn [app].
    destruct (SocketClient.finite_nonzero d').
    - match goal with
      | |- (if Qeq_bool ?a ?b then _ else _) = _ =>
          change b with a; rewrite Hrefl
      end.
      rewrite Hc1. reflexivity.
    - unfold SocketClient.resume, SocketClient.handlePlay_in.
      assert (E1 : SocketClient.socket c1 = true) by (rewrite Hc1; exact Hs).
      change (SocketClient.socket
                (SocketClient.setInterruption false
                   (SocketClient.emit
                      (SocketClient.EmitVoiceNote (SocketClient.or_zero d'))
                      (SocketClient.set_recordings []
                         (SocketClient.set_recordings [cap] c1)))))
        with (SocketClient.socket c1).
      rewrite E1.
      match goal with
      | |- (if Qeq_bool ?a ?b then _ else _) = _ =>
          change b with a; rewrite Hrefl
      end.
      rewrite Hc1. reflexivity. }
  assert (Hc3 : c3 = SocketClient.set_resumes [(d * 1000, cap)]
                       (SocketClient.emit
                          (SocketClient.EmitVoiceNote (SocketClient.Finite d))
                          (SocketClient.set_recordings [] c2))).
  { subst c3. rewrite Hload. cbn [SocketClient.finite_nonzero].
    rewrite Hq. reflexivity. }
  destruct (client_run_keeps_timers es Hes c3) as (R1 & R2 & R3).
  fold c4 in R1, R2, R3.
  assert (H4res : SocketClient.resumes c4 = [(d * 1000, cap)])
    by (rewrite R1, Hc3; reflexivity).
  assert (H4s : SocketClient.socket c4 = true)
    by (rewrite R2, Hc3, Hc2, Hc1; exact Hs).
  assert (H4r : SocketClient.roomId c4 = r)
    by (rewrite R3, Hc3, Hc2, Hc1; reflexivity).
  assert (Hc5 : c5 = SocketClient.resume cap (SocketClient.set_resumes [] c4)).
  { subst c5. unfold SocketClient.step. cbv zeta. cbn [SocketClient.handle].
    unfold SocketClient.expire. rewrite H4res.
    cbn [nth_error SocketClient.remove_nth].
    unfold SocketClient.resume, SocketClient.handlePlay_in.
    cbn [SocketClient.socket SocketClient.setInterruption
         SocketClient.set_page SocketClient.set_resumes].
    rewrite H4s.
    match goal with
    | |- (if Qeq_bool ?a ?b then _ else _) = _ =>
        change b with a; rewrite Hrefl
    end.
    reflexivity. }
  split; [rewrite Hc1; reflexivity |].
  split; [rewrite Hc2, Hc1; reflexivity |].
  split; [rewrite Hc3, Hc2, Hc1; reflexivity |].
  split; [rewrite Hc3, Hc2, Hc1; reflexivity |].
  split; [rewrite Hc3, Hc2, Hc1; reflexivity |].
  assert (H5 : SocketClient.resume cap (SocketClient.set_resumes [] c4)
               = SocketClient.setPlaying true
                   (SocketClient.emit
                      (SocketClient.EmitVideoUpdate r true t u)
                      (SocketClient.setInterruption false
                         (SocketClient.set_resumes [] c4)))).
  { unfold SocketClient.resume, SocketClient.handlePlay_in.
    cbn [SocketClient.socket SocketClient.setInterruption
         SocketClient.set_page SocketClient.set_resumes
         SocketClient.roomId].
    rewrite H4s, H4r. reflexivity. }
  rewrite Hc5, H5.
  split; [reflexivity |]. split; [reflexivity |]. split; [reflexivity |].
  split; [reflexivity |].
  intros d' Hd'. rewrite Hload, Hd'. cbv zeta.
  unfold SocketClient.resume, SocketClient.handlePlay_in.
  cbn [SocketClient.socket SocketClient.setInterruption
       SocketClient.set_page SocketClient.emit
       SocketClient.set_recordings].
  rewrite Hc2, Hc1.
  cbn [SocketClient.socket SocketClient.set_recordings
       SocketClient.handleRecordStart].
  unfold SocketClient.handleRecordStart, SocketClient.setPlaying,
    SocketClient.setInterruption, SocketClient.set_page.
  cbn [SocketClient.socket]. rewrite Hs.
  cbn [SocketClient.emitted SocketClient.emit SocketClient.roomId
       SocketClient.page].
  rewrite <- app_assoc. reflexivity.
Qed.

Lemma sender_resumes_with_captured_state_witness :
  let c := SocketClient.run [SocketClient.UrlChange "https://v/1";
                             SocketClient.Seek 5]
             (SocketClient.mounted true true "r") in
  let es := [SocketClient.UrlChange "https://v/2"] in
  let c4 := SocketClient.run es
              (SocketClient.step
                 (SocketClient.LoadedMetadata 0 (SocketClient.Finite 2))
                 (SocketClient.step (SocketClient.RecordStop true)
                    (SocketClient.step SocketClient.RecordStart c))) in
  let c5 := SocketClient.step (SocketClient.Expire 0) c4 in
  SocketRoomPage.url (SocketClient.videoState c4) = "https://v/2" /\
  SocketClient.emitted c5
  = SocketClient.emitted c4
    ++ [SocketClient.EmitVideoUpdate (SocketClient.roomId c) true
          (SocketClient.timestamp c)
          (SocketRoomPage.url (SocketClient.videoState c))] /\
  SocketRoomPage.url (SocketClient.videoState c) = "https://v/1".
Proof.
  intros c es c4 c5.
  assert (Hd : ~ (2 == 0)%Q) by discriminate.
  assert (Hes : Forall (fun e => SocketClient.is_recording_event e = false) es)
    by (repeat constructor).
  destruct (sender_resumes_with_captured_state c 2 es eq_refl eq_refl eq_refl
              Hd Hes) as (_ & _ & _ & _ & _ & H5 & _).
  split; [vm_compute; reflexivity |].
  split; [exact H5 | vm_compute; reflexivity].
Defined.
